(** * hdmf-zarr: the Zarr I/O backend of HDMF (src/hdmf_zarr/backend.py)

    A shallow embedding of [ZarrIO]: the dtype resolution helpers, the
    reference records ([__get_ref], [resolve_ref]), the write engine
    ([write_builder], [write_group], [write_dataset], [write_link],
    [write_attributes]) and the read engine ([__read_group],
    [__read_dataset], [__read_links], [__read_attrs]) with its cache of
    built builders.  Python objects with identity (builders) carry an
    explicit identifier; the IO object's mutable fields are threaded as a
    state record; exceptions are an explicit outcome. *)

From stdpp Require Import gmap strings list fin_maps pretty.
From Stdlib Require Import Ascii String.

Local Open Scope string_scope.
Set Warnings "-register-all".

(** ** Module variables of backend.py *)

Definition ROOT_NAME : string := "root".
Definition SPEC_LOC_ATTR : string := ".specloc".
Definition DEFAULT_SPEC_LOC_DIR : string := "specifications".

(** ** Exceptions and outcomes *)

Inductive exn :=
| ValueError (msg : string)
| TypeError (msg : string)
| KeyError (key : string)
| IndexError (msg : string)
| NotImplementedError (msg : string)
| AttributeError (msg : string)
| Exception (msg : string).

(** The outcome of a call: a value, a raised exception, or a call depth
    beyond the bound given to the model (Python's RecursionError). *)
Inductive outcome (A : Type) :=
| Ok (a : A)
| Raise (e : exn)
| RecursionError.
Arguments Ok {A} a.
Arguments Raise {A} e.
Arguments RecursionError {A}.

Definition obind {A B} (o : outcome A) (k : A -> outcome B) : outcome B :=
  match o with
  | Ok a => k a
  | Raise e => Raise e
  | RecursionError => RecursionError
  end.

(** ** JSON values, as stored in Zarr attributes *)

Inductive json :=
| JNull
| JBool (b : bool)
| JNum (n : Z)
| JStr (s : string)
| JList (items : list json)
| JDict (items : list (string * json)).

(** ** TypeResolver: [__dtypes], [__resolve_dtype_helper__], [get_type] *)

Module TypeResolver.

(** The numpy scalar types named in [__dtypes]. *)
Inductive np_type :=
| np_float32 | np_float64
| np_int64 | np_uint64 | np_int32 | np_int16 | np_int8
| np_bool_
| np_uint32 | np_uint16 | np_uint8.

(** Python type objects that occur as storage types. *)
Inductive pytype :=
| ty_str                      (* str *)
| ty_bytes                    (* bytes *)
| ty_np (t : np_type)         (* a numpy scalar type *)
| ty_ZarrReference            (* hdmf_zarr.utils.ZarrReference *)
| ty_object                   (* object *)
| ty_native (name : string).  (* any other class: int, float, bool, ... *)

(** What [__resolve_dtype_helper__] returns: a type object or an
    np.dtype; the compound np.dtype keeps the argument list it was
    built from. *)
Inductive np_kind := k_number | k_bool | k_flexible | k_object | k_other.

Inductive storage_type :=
| st_type (t : pytype)
| st_np_dtype (name : string) (str : string) (kind : np_kind)
| st_compound (fields : list (string * option storage_type)).

(** The [__dtypes] class attribute, in source order. *)
Definition __dtypes : list (string * pytype) :=
  [ ("float", ty_np np_float32);
    ("float32", ty_np np_float32);
    ("double", ty_np np_float64);
    ("float64", ty_np np_float64);
    ("long", ty_np np_int64);
    ("int64", ty_np np_int64);
    ("uint64", ty_np np_uint64);
    ("int", ty_np np_int32);
    ("int32", ty_np np_int32);
    ("int16", ty_np np_int16);
    ("int8", ty_np np_int8);
    ("bool", ty_np np_bool_);
    ("bool_", ty_np np_bool_);
    ("text", ty_str);
    ("utf", ty_str);
    ("utf8", ty_str);
    ("utf-8", ty_str);
    ("ascii", ty_bytes);
    ("bytes", ty_bytes);
    ("str", ty_str);
    ("isodatetime", ty_str);
    ("string_", ty_bytes);
    ("uint32", ty_np np_uint32);
    ("uint16", ty_np np_uint16);
    ("uint8", ty_np np_uint8);
    ("ref", ty_ZarrReference);
    ("reference", ty_ZarrReference);
    ("object", ty_ZarrReference);
    ("region", ty_ZarrReference) ].

(** [dict.get(key)]: the value bound to the key, [None] when absent. *)
Fixpoint dict_get {V} (d : list (string * V)) (key : string) : option V :=
  match d with
  | [] => None
  | (k, v) :: d' => if String.eqb k key then Some v else dict_get d' key
  end.

(** The dtype descriptors a builder can carry ([builder.dtype]). *)
Inductive dtype_desc :=
| D_None                                      (* dtype is None *)
| D_concrete (t : storage_type)               (* a type or np.dtype *)
| D_str (name : string)                       (* a symbolic name *)
| D_dict (reftype : string)                   (* {'target_type':.., 'reftype':..} *)
| D_list (fields : list (string * dtype_desc)) (* compound: [{'name','dtype'}] *)
| D_RefSpec                                   (* hdmf.spec.RefSpec *)
| D_DtypeSpec (dtype : dtype_desc)            (* hdmf.spec.DtypeSpec *)
| D_other (repr : string).                    (* anything else *)

(** The data of a dataset as [get_type] inspects it. *)
Inductive pydata :=
| PyStr (s : string)             (* isinstance(data, str) *)
| PyBytes (b : string)           (* isinstance(data, bytes) *)
| PyScalar (t : pytype)          (* no __len__; type(data) is t *)
| PySeq (items : list pydata).   (* has __len__ and is indexable *)

Fixpoint __resolve_dtype_helper__ (dtype : dtype_desc)
  : outcome (option storage_type) :=
  match dtype with
  | D_None => Ok None
  | D_concrete t => Ok (Some t)
  | D_str name => Ok (st_type <$> dict_get __dtypes name)
  | D_dict reftype => Ok (st_type <$> dict_get __dtypes reftype)
  | D_list fields =>
      let fix go (l : list (string * dtype_desc))
        : outcome (list (string * option storage_type)) :=
        match l with
        | [] => Ok []
        | (n, x) :: l' =>
            obind (__resolve_dtype_helper__ x) (fun t =>
            obind (go l') (fun r => Ok ((n, t) :: r)))
        end in
      obind (go fields) (fun r => Ok (Some (st_compound r)))
  | D_RefSpec => Raise (ValueError "Cant resolve dtype RefSpec")
  | D_DtypeSpec _ => Raise (ValueError "Cant resolve dtype DtypeSpec")
  | D_other repr => Raise (ValueError ("Cant resolve dtype " ++ repr))
  end.

(** [__serial_dtype__]: the type tag written for a resolved dtype.
    [np_name] is the name of the numpy scalar type a field of a
    compound np.dtype is converted to. *)
Definition np_type_name (t : np_type) : string :=
  match t with
  | np_float32 => "float32" | np_float64 => "float64"
  | np_int64 => "int64" | np_uint64 => "uint64" | np_int32 => "int32"
  | np_int16 => "int16" | np_int8 => "int8" | np_bool_ => "bool_"
  | np_uint32 => "uint32" | np_uint16 => "uint16" | np_uint8 => "uint8"
  end.

Definition type_name (t : pytype) : string :=
  match t with
  | ty_str => "str"
  | ty_bytes => "bytes"
  | ty_np n => np_type_name n
  | ty_ZarrReference => "ZarrReference"
  | ty_object => "object"
  | ty_native n => n
  end.

Definition np_name (t : pytype) : string :=
  match t with
  | ty_str => "str_"
  | ty_bytes => "bytes_"
  | ty_np n => np_type_name n
  | ty_native n =>
      if String.eqb n "int" then "int64"
      else if String.eqb n "float" then "float64"
      else if String.eqb n "bool" then "bool_"
      else "object_"
  | _ => "object_"
  end.

Fixpoint serial_field (t : storage_type) : json :=
  match t with
  | st_type t => JStr (np_name t)
  | st_np_dtype name _ _ => JStr name
  | st_compound fields =>
      JList ((fix go (l : list (string * option storage_type)) : list json :=
                match l with
                | [] => []
                | (n, x) :: l' =>
                    JDict [("name", JStr n);
                           ("dtype", match x with
                                     | Some t' => serial_field t'
                                     | None => JStr "float64"
                                     end)] :: go l'
                end) fields)
  end.

Definition __serial_dtype__ (dtype : storage_type) : json :=
  match dtype with
  | st_type t => JStr (type_name t)
  | _ => serial_field dtype
  end.

(** [np.dtype(t).str], [t] being [None] for the default float64. *)
Definition np_dtype_str (t : option storage_type) : string :=
  match t with
  | None => "<f8"
  | Some (st_type ty_str) => "<U0"
  | Some (st_type ty_bytes) => "|S0"
  | Some (st_type (ty_np n)) =>
      match n with
      | np_float32 => "<f4" | np_float64 => "<f8"
      | np_int64 => "<i8" | np_uint64 => "<u8" | np_int32 => "<i4"
      | np_int16 => "<i2" | np_int8 => "|i1" | np_bool_ => "|b1"
      | np_uint32 => "<u4" | np_uint16 => "<u2" | np_uint8 => "|u1"
      end
  | Some (st_type (ty_native n)) =>
      if String.eqb n "int" then "<i8"
      else if String.eqb n "float" then "<f8"
      else if String.eqb n "bool" then "|b1"
      else "|O"
  | Some (st_type _) => "|O"
  | Some (st_np_dtype _ str _) => str
  | Some (st_compound _) => "|V"
  end.

(** [__is_ref]. *)
Fixpoint __is_ref (dtype : dtype_desc) : bool :=
  match dtype with
  | D_DtypeSpec d => __is_ref d
  | D_RefSpec => true
  | D_str name => (String.eqb name "object" || String.eqb name "region")%bool
  | _ => false
  end.

(** [hdmf.utils.get_data_shape]: lengths along the first elements. *)
Fixpoint get_data_shape (d : pydata) : list nat :=
  match d with
  | PySeq items =>
      List.length items :: match items with
                      | [] => []
                      | x :: _ => get_data_shape x
                      end
  | _ => []
  end.

(** [len(data)], for what has a length. *)
Definition py_len (d : pydata) : option nat :=
  match d with
  | PySeq items => Some (List.length items)
  | PyStr s | PyBytes s => Some (String.length s)
  | PyScalar _ => None
  end.

(** [data.item(0)] of an ndarray: its first scalar. *)
Fixpoint first_item (d : pydata) : pydata :=
  match d with
  | PySeq (x :: _) => first_item x
  | _ => d
  end.

(** Element-wise [o.decode("utf-8")] of bytes. *)
Fixpoint decode_bytes (d : pydata) : pydata :=
  match d with
  | PyBytes b => PyStr b
  | PySeq items => PySeq (map decode_bytes items)
  | _ => d
  end.

Fixpoint get_type (data : pydata) : outcome storage_type :=
  match data with
  | PyStr _ => Ok (default (st_type ty_str) (st_type <$> dict_get __dtypes "str"))
  | PyBytes _ => Ok (default (st_type ty_bytes) (st_type <$> dict_get __dtypes "bytes"))
  | PyScalar t => Ok (st_type t)
  | PySeq items =>
      match items with
      | [] => Raise (ValueError "cannot determine type for empty data")
      | first :: _ => get_type first
      end
  end.

Definition __resolve_dtype__ (dtype : dtype_desc) (data : pydata)
  : outcome storage_type :=
  obind (__resolve_dtype_helper__ dtype) (fun r =>
    match r with
    | None => get_type data
    | Some t => Ok t
    end).

End TypeResolver.

(** ** Paths: the parts of [os.path] the backend uses *)

Module Path.

(** [s.split("/")]: the components between separators, empty ones kept. *)
Fixpoint split_sep (s : string) : list string :=
  match s with
  | EmptyString => [EmptyString]
  | String c s' =>
      if Ascii.eqb c "/" then EmptyString :: split_sep s'
      else match split_sep s' with
           | [] => [String c EmptyString]
           | w :: ws => String c w :: ws
           end
  end.

(** [os.path.basename(p)]: what follows the last separator. *)
Definition basename (p : string) : string := List.last (split_sep p) EmptyString.

Definition startswith_sep (s : string) : bool :=
  match s with
  | String c _ => Ascii.eqb c "/"
  | EmptyString => false
  end.

Fixpoint endswith_sep (s : string) : bool :=
  match s with
  | EmptyString => false
  | String c EmptyString => Ascii.eqb c "/"
  | String _ s' => endswith_sep s'
  end.

(** [os.path.join(a, b)] (posixpath). *)
Definition join (a b : string) : string :=
  if startswith_sep b then b
  else if (String.eqb a "" || endswith_sep a)%bool then a ++ b
  else a ++ "/" ++ b.

(** [s.replace("\\", "/")]. *)
Fixpoint replace_backslash (s : string) : string :=
  match s with
  | EmptyString => EmptyString
  | String c s' =>
      String (if Ascii.eqb c "\" then "/"%char else c) (replace_backslash s')
  end.

(** [s.lstrip(".")] and [s.rstrip("/")], used for remote stores. *)
Fixpoint lstrip_dot (s : string) : string :=
  match s with
  | String c s' => if Ascii.eqb c "." then lstrip_dot s' else s
  | EmptyString => EmptyString
  end.

Fixpoint rstrip_sep (s : string) : string :=
  match s with
  | EmptyString => EmptyString
  | String c s' =>
      match rstrip_sep s' with
      | EmptyString => if Ascii.eqb c "/" then EmptyString else String c EmptyString
      | r => String c r
      end
  end.

(** [os.path.dirname(p)]: the head up to the last separator, without
    trailing separators unless it consists of separators only. *)
Definition dirname (p : string) : string :=
  match split_sep p with
  | [] | [_] => EmptyString
  | comps =>
      let head := String.concat "/" (removelast comps) ++ "/" in
      match rstrip_sep head with
      | EmptyString => head
      | stripped => stripped
      end
  end.

(** ["/".join(names)]. *)
Definition join_names (names : list string) : string := String.concat "/" names.

End Path.

(** The operating system behind [os.path]: normalisation and the file
    system queries are left to the platform. *)
Class OsPath := {
  normpath : string -> string;
  abspath : string -> string;
  relpath : string -> string -> string;   (* relpath(path, start) *)
  isdir : string -> bool;
  exists_ : string -> bool                (* os.path.exists *)
}.

(** ** Reference records *)

Definition json_opt_str (o : option string) : json :=
  match o with Some s => JStr s | None => JNull end.

(** [hdmf_zarr.utils.ZarrReference]: a dict with these four keys. *)
Record ZarrReference := {
  ref_source : string;
  ref_path : string;
  ref_object_id : option string;
  ref_source_object_id : option string
}.

Definition ref_json (r : ZarrReference) : json :=
  JDict [ ("source", JStr (ref_source r));
          ("path", JStr (ref_path r));
          ("object_id", json_opt_str (ref_object_id r));
          ("source_object_id", json_opt_str (ref_source_object_id r)) ].

(** Python dicts keep insertion order: [d[key] = v] replaces the value of
    an existing key in place and appends a new key at the end. *)
Fixpoint dict_set {V} (d : list (string * V)) (key : string) (v : V)
  : list (string * V) :=
  match d with
  | [] => [(key, v)]
  | (k, x) :: d' =>
      if String.eqb k key then (k, v) :: d' else (k, x) :: dict_set d' key v
  end.

Definition dict_get {V} := @TypeResolver.dict_get V.

Definition dict_has {V} (d : list (string * V)) (key : string) : bool :=
  match dict_get d key with Some _ => true | None => false end.

(** ** Builders of the container model (hdmf.build), as the backend sees them *)

(** What every Builder carries: its identity [id(builder)], name, parent
    chain, location, source file and the [object_id] that
    [builder.get('object_id', None)] returns. *)
Inductive BuilderInfo := mkInfo {
  b_id : nat;
  b_name : string;
  b_parent : option BuilderInfo;
  b_location : option string;
  b_source : option string;
  b_object_id : option string
}.

(** A container of the model layer; [manager.build] turns it into a
    builder, and [c_builder] is its [builder] attribute when it has one. *)
Record Container := {
  c_id : nat;
  c_builder : option BuilderInfo
}.

Class BuildManager := {
  build : Container -> BuilderInfo
}.

(** NumPy behind [np.dtype(name)]: the dtype a string stands for, none
    for a string numpy does not understand. *)
Class NumPy := {
  np_dtype : string -> option TypeResolver.storage_type
}.

(** The objects a reference can be made to ([ref_object] of [__get_ref]). *)
Inductive ref_object :=
| RO_Builder (b : BuilderInfo)                       (* Group- or DatasetBuilder *)
| RO_LinkBuilder (l : BuilderInfo) (target : BuilderInfo)
| RO_ReferenceBuilder (target : BuilderInfo)         (* ReferenceBuilder.builder *)
| RO_RegionBuilder (target : BuilderInfo)            (* a ReferenceBuilder subclass *)
| RO_Container (c : Container).

(** Elements of attribute values, by how [json] treats them. *)
Inductive attr_item :=
| AI_json (v : json)             (* serialisable as it is *)
| AI_np_generic (item : json)    (* numpy scalar; [.item()] is serialisable *)
| AI_bytes (decoded : string)    (* bytes or np.bytes_; [.decode("utf-8")] *)
| AI_other (repr : string).      (* nothing json can encode *)

(** Attribute values of a builder, by the case [write_attributes] takes. *)
Inductive attr_value :=
| AV_sequence (items : list attr_item)   (* set, list or tuple *)
| AV_ndarray (items : list attr_item)    (* np.ndarray with ndim != 0 *)
| AV_reference (r : ref_object)          (* Container, Builder, ReferenceBuilder *)
| AV_ndarray0 (repr : string)            (* np.ndarray with ndim == 0 *)
| AV_scalar (v : attr_item).

(** Elements of a compound row: a plain value or an object to reference. *)
Inductive cell :=
| C_val (v : TypeResolver.pydata)
| C_ref (r : ref_object).

(** The [io_settings] a ZarrDataIO carries to [require_dataset]. *)
Record io_settings := {
  ios_shape : option (list nat);
  ios_chunks : option (option (list nat));   (* Some None: chunks=True *)
  ios_dtype : option TypeResolver.dtype_desc;
  ios_other : list (string * json)
}.

Definition no_io_settings : io_settings :=
  {| ios_shape := None; ios_chunks := None; ios_dtype := None; ios_other := [] |}.

(** ** The Zarr library at its boundary: stores, nodes, handles *)

Module Zarr.
Import TypeResolver.

(** An element of a compound row: a plain value or a reference. *)
Inductive stored_cell :=
| SC_val (v : pydata)
| SC_ref (r : ZarrReference).

(** What an array holds: its content, or an earlier content with one
    more assignment [dset[at_] = v] made to a part of it. *)
Inductive array_data :=
| AD_unset                                   (* created, nothing assigned *)
| AD_refs (refs : list ZarrReference)        (* object-coded references *)
| AD_rows (rows : list (list stored_cell))   (* compound rows *)
| AD_values (v : pydata)                     (* an array of the shape of the node *)
| AD_assigned (base : array_data) (at_ : list nat) (v : pydata).

(** [np.isscalar(v)]: strings, bytes and numbers. *)
Definition np_isscalar (v : pydata) : bool :=
  match v with
  | PyStr _ | PyBytes _ => true
  | PyScalar (ty_np _) | PyScalar ty_str | PyScalar ty_bytes => true
  | PyScalar (ty_native n) => bool_decide (n ∈ ["int"; "float"; "bool"; "complex"])
  | _ => false
  end.

(** [np.asanyarray(v).shape]; a ragged sequence makes no array. *)
Fixpoint np_shape (v : pydata) : option (list nat) :=
  match v with
  | PySeq items =>
      match items with
      | [] => Some [0]
      | x :: rest =>
          match np_shape x with
          | Some s =>
              if forallb (fun y => bool_decide (np_shape y = Some s)) rest
              then Some (List.length items :: s) else None
          | None => None
          end
      end
  | _ => Some []
  end.

(** The array of a shape that holds one value everywhere. *)
Fixpoint np_full (shape : list nat) (v : pydata) : pydata :=
  match shape with
  | [] => v
  | n :: rest => PySeq (replicate n (np_full rest v))
  end.

(** The value of an assignment as Zarr takes it for a selection of a
    shape: a scalar fills the selection, anything else must be an array
    of that shape.  (The conversion of the values to the dtype of the
    array is not modelled.) *)
Definition as_content (shape : list nat) (v : pydata) : option pydata :=
  if np_isscalar v then Some (np_full shape v)
  else if bool_decide (np_shape v = Some shape) then Some v else None.

(** [o[c0][c1]...]: indexing as Python does it. *)
Fixpoint item_at (o : pydata) (c : list nat) : outcome pydata :=
  match c with
  | [] => Ok o
  | i :: c' =>
      match o with
      | PySeq items =>
          match items !! i with
          | Some x => item_at x c'
          | None => Raise (IndexError "list index out of range")
          end
      | PyStr s =>
          match String.get i s with
          | Some ch => item_at (PyStr (String ch EmptyString)) c'
          | None => Raise (IndexError "string index out of range")
          end
      | PyBytes b =>
          match String.get i b with
          | Some _ => item_at (PyScalar (ty_native "int")) c'
          | None => Raise (IndexError "index out of range")
          end
      | PyScalar _ => Raise (TypeError "object is not subscriptable")
      end
  end.

(** [np.ndindex(shape)]: the index tuples of a shape, the last axis
    running fastest. *)
Fixpoint ndindex (shape : list nat) : list (list nat) :=
  match shape with
  | [] => [[]]
  | n :: rest => flat_map (fun i => map (cons i) (ndindex rest)) (seq 0 n)
  end.

Record zarray := {
  a_shape : list nat;
  a_chunks : option (list nat);              (* None: as large as the shape *)
  a_dtype : option storage_type;             (* None: no [dtype] attribute *)
  a_object_codec : bool;
  a_data : array_data
}.

Inductive znode :=
| ZGroup (attrs : list (string * json))
| ZArray (attrs : list (string * json)) (arr : zarray).

Definition node_attrs (n : znode) : list (string * json) :=
  match n with ZGroup a => a | ZArray a _ => a end.

Definition set_node_attrs (n : znode) (a : list (string * json)) : znode :=
  match n with ZGroup _ => ZGroup a | ZArray _ arr => ZArray a arr end.

Definition is_group (n : znode) : bool :=
  match n with ZGroup _ => true | ZArray _ _ => false end.

(** A store on disk or behind a URL: its nodes by in-store path, and
    whether consolidated metadata (.zmetadata) was written for it. *)
Record zfile := {
  zf_nodes : gmap (list string) znode;
  zf_consolidated : bool;
  zf_remote : bool;          (* opened as an FSStore *)
  zf_path : string           (* the [path] attribute of the store *)
}.

Inductive store_kind := DirectoryStore | FSStore | ConsolidatedMetadataStore.

(** A [zarr.hierarchy.Group] or [zarr.core.Array] object: the store it
    was opened from and its path inside it.  [z_location] is the
    location the store was opened with, [z_store_path] the [path]
    attribute of the underlying store. *)
Record zarr_obj := {
  z_kind : store_kind;
  z_location : string;
  z_store_path : string;
  z_path : list string
}.

(** [zarr_obj.path] and [zarr_obj.name]. *)
Definition path_str (z : zarr_obj) : string := Path.join_names (z_path z).
Definition name_str (z : zarr_obj) : string := "/" ++ Path.join_names (z_path z).

Definition child (z : zarr_obj) (name : string) : zarr_obj :=
  {| z_kind := z_kind z; z_location := z_location z;
     z_store_path := z_store_path z; z_path := (z_path z ++ [name])%list |}.

(** Zarr's normalisation of an item path: empty segments are dropped
    and "." or ".." segments are refused. *)
Definition normalize_storage_path (p : string) : option (list string) :=
  let segs := filter (fun s => s <> "") (Path.split_sep p) in
  if existsb (fun s => (String.eqb s "." || String.eqb s "..")%bool) segs
  then None else Some segs.

(** The direct children of a path among the keys of a store. *)
Definition is_child_of (parent k : list string) : bool :=
  match List.rev k with
  | [] => false
  | _ :: r => bool_decide (List.rev r = parent)
  end.

Definition last_name (k : list string) : string := List.last k "".

End Zarr.

(** ** The IO object *)

Module IO.
Import TypeResolver Zarr.

(** A DataChunkIterator: what it recommends and what it will produce. *)
Record chunk_iterator := {
  dci_recommended_chunk_shape : option (list nat);
  dci_recommended_data_shape : list nat;
  dci_dtype : dtype_desc;
  dci_values : pydata
}.

(** Calls made to the store and to the chunk-write coordinator, in
    order (most recent last). *)
Inductive call :=
| c_require_group (at_ : list string)
| c_getitem (at_ : list string)
| c_attrs_set (at_ : list string) (key : string) (value : json)
| c_require_dataset (at_ : list string)
| c_create_dataset (at_ : list string)
| c_copy (from_ : string) (at_ : list string)
| c_setitem (at_ : list string)
| c_queue_append (at_ : list string)
| c_exhaust_queue
| c_consolidate_metadata (store : string).

(** Attribute values of the builders constructed on read: stored JSON
    or, for a resolved reference, the builder it points to. *)
Inductive read_attr :=
| RA_json (v : json)
| RA_builder (id : nat).

(** The data of a DatasetBuilder constructed on read. *)
Inductive read_data :=
| RD_array (z : zarr_obj)                       (* the lazy zarr.core.Array *)
| RD_scalar (v : array_data)                    (* zarr_obj[()]: the whole content *)
| RD_table (z : zarr_obj) (dtypes : list json)  (* BuilderZarrTableDataset *)
| RD_references (z : zarr_obj).                 (* BuilderZarrReferenceDataset *)

(** The dtype of a DatasetBuilder constructed on read: the stored type
    tag, or the array's own dtype when the tag is missing. *)
Inductive read_dtype :=
| RT_tag (v : json)
| RT_raw (t : storage_type).

(** Identity of a builder object: one handed in by the caller
    ([inl (b_id b)]) or one allocated by the read engine ([inr i], the
    i-th object constructed). *)
Definition ident : Type := nat + nat.

(** Builder objects constructed by the read engine. *)
Inductive built_builder :=
| BGroup (name : string) (source : string)
         (attributes : list (string * read_attr)) (location : string)
         (groups datasets links : list nat)
| BDataset (name : string) (source : string)
           (attributes : list (string * read_attr)) (location : string)
           (dtype : read_dtype) (maxshape : list nat) (chunks : bool)
           (data : read_data)
| BLink (name : string) (source : string) (location : string) (builder : nat).

Definition built_attributes (b : built_builder) : list (string * read_attr) :=
  match b with
  | BGroup _ _ a _ _ _ _ => a
  | BDataset _ _ a _ _ _ _ _ => a
  | BLink _ _ _ _ => []
  end.

(** The fields of a [ZarrIO] object, with the stores it can reach and
    the builder objects it has allocated. *)
Record ZarrIO := {
  source : string;                                (* self.source *)
  path : string;                                  (* self.path *)
  file : zarr_obj;                                (* self.__file *)
  stores : gmap string zfile;                     (* by location *)
  _written_builders : gset (nat + nat);           (* WriteStatusTracker *)
  __dci_queue : option (list (zarr_obj * chunk_iterator));
  __built : gmap string nat;                      (* canonical path -> builder *)
  objects : list built_builder;                   (* by identity, oldest first *)
  warned : list string;                           (* warnings.warn *)
  calls : list call
}.

End IO.

(** ** State and exceptions: the monad of the backend's methods *)

Module Monad.
Import IO.

Definition M (A : Type) : Type := ZarrIO -> outcome A * ZarrIO.

Definition ret {A} (a : A) : M A := fun io => (Ok a, io).
Definition raise {A} (e : exn) : M A := fun io => (Raise e, io).
Definition too_deep {A} : M A := fun io => (RecursionError, io).

Definition bind {A B} (m : M A) (k : A -> M B) : M B :=
  fun io =>
    match m io with
    | (Ok a, io') => k a io'
    | (Raise e, io') => (Raise e, io')
    | (RecursionError, io') => (RecursionError, io')
    end.

Definition get : M ZarrIO := fun io => (Ok io, io).
Definition modify (f : ZarrIO -> ZarrIO) : M unit := fun io => (Ok tt, f io).
Definition lift {A} (o : outcome A) : M A := fun io => (o, io).

(** [try: m except Exception: raise e]. *)
Definition reraise {A} (m : M A) (e : exn) : M A :=
  fun io =>
    match m io with
    | (Raise _, io') => (Raise e, io')
    | r => r
    end.

(** [try: m except ValueError: handler]. *)
Definition except_ValueError {A} (m handler : M A) : M A :=
  fun io =>
    match m io with
    | (Raise (ValueError _), io') => handler io'
    | r => r
    end.

(** [for x in l: body(x)]. *)
Fixpoint for_each {A} (l : list A) (body : A -> M unit) : M unit :=
  match l with
  | [] => ret tt
  | x :: l' => bind (body x) (fun _ => for_each l' body)
  end.

(** A loop that carries a value: [for x in l: acc = body(acc, x)]. *)
Fixpoint fold_m {A S} (body : S -> A -> M S) (l : list A) (acc : S) : M S :=
  match l with
  | [] => ret acc
  | x :: l' => bind (body acc x) (fun acc' => fold_m body l' acc')
  end.

(** [[f(x) for x in l]]. *)
Fixpoint map_m {A B} (f : A -> M B) (l : list A) : M (list B) :=
  match l with
  | [] => ret []
  | x :: l' => bind (f x) (fun y => bind (map_m f l') (fun ys => ret (y :: ys)))
  end.

Definition with_stores (f : gmap string Zarr.zfile -> gmap string Zarr.zfile)
  (io : ZarrIO) : ZarrIO :=
  {| source := source io; path := path io; file := file io;
     stores := f (stores io);
     _written_builders := _written_builders io; __dci_queue := __dci_queue io;
     __built := __built io; objects := objects io; warned := warned io;
     calls := calls io |}.

Definition with_written (f : gset ident -> gset ident) (io : ZarrIO) : ZarrIO :=
  {| source := source io; path := path io; file := file io;
     stores := stores io;
     _written_builders := f (_written_builders io); __dci_queue := __dci_queue io;
     __built := __built io; objects := objects io; warned := warned io;
     calls := calls io |}.

Definition with_dci_queue
  (f : option (list (Zarr.zarr_obj * chunk_iterator))
       -> option (list (Zarr.zarr_obj * chunk_iterator)))
  (io : ZarrIO) : ZarrIO :=
  {| source := source io; path := path io; file := file io;
     stores := stores io;
     _written_builders := _written_builders io; __dci_queue := f (__dci_queue io);
     __built := __built io; objects := objects io; warned := warned io;
     calls := calls io |}.

Definition with_built (f : gmap string nat -> gmap string nat) (io : ZarrIO) : ZarrIO :=
  {| source := source io; path := path io; file := file io;
     stores := stores io;
     _written_builders := _written_builders io; __dci_queue := __dci_queue io;
     __built := f (__built io); objects := objects io; warned := warned io;
     calls := calls io |}.

Definition with_objects (f : list built_builder -> list built_builder)
  (io : ZarrIO) : ZarrIO :=
  {| source := source io; path := path io; file := file io;
     stores := stores io;
     _written_builders := _written_builders io; __dci_queue := __dci_queue io;
     __built := __built io; objects := f (objects io); warned := warned io;
     calls := calls io |}.

Definition with_warned (f : list string -> list string) (io : ZarrIO) : ZarrIO :=
  {| source := source io; path := path io; file := file io;
     stores := stores io;
     _written_builders := _written_builders io; __dci_queue := __dci_queue io;
     __built := __built io; objects := objects io; warned := f (warned io);
     calls := calls io |}.

Definition with_calls (f : list call -> list call) (io : ZarrIO) : ZarrIO :=
  {| source := source io; path := path io; file := file io;
     stores := stores io;
     _written_builders := _written_builders io; __dci_queue := __dci_queue io;
     __built := __built io; objects := objects io; warned := warned io;
     calls := f (calls io) |}.

(** [warnings.warn(msg)]. *)
Definition warn (msg : string) : M unit := modify (with_warned (fun w => (w ++ [msg])%list)).

(** Record a call to the store or to the coordinator. *)
Definition called (c : call) : M unit := modify (with_calls (fun l => (l ++ [c])%list)).

(** [self._written_builders.set_written(builder)] and [get_written]. *)
Definition set_written (b : ident) : M unit :=
  modify (with_written (fun w => {[ b ]} ∪ w)).

Definition get_written (b : ident) : M bool :=
  fun io => (Ok (bool_decide (b ∈ _written_builders io)), io).

End Monad.

Notation "'let*' x ':=' c 'in' k" := (Monad.bind c (fun x => k))
  (at level 10, x pattern, c at level 100, k at level 200).
Notation "c ';;;' k" := (Monad.bind c (fun _ => k))
  (at level 100, k at level 200, right associativity).

(** ** Dataset, link and group builders handed to the write engine *)

Module Builders.
Import TypeResolver Zarr IO.

(** [builder.data] once lazy wrappers are set aside. *)
Inductive py_data :=
| Data_Array (a : zarr_obj)                      (* zarr.core.Array *)
| Data_HDMF_containers (first : Container) (rest : list ref_object)
    (* an HDMFDataset with len > 0 whose first element is a Container *)
| Data_HDMF_other (loaded : py_data)             (* any other HDMFDataset; data[:] *)
| Data_ReferenceBuilder (target : BuilderInfo)
| Data_refs (items : list ref_object)            (* a sequence of objects to reference *)
| Data_rows (rows : list (list cell))            (* a sequence of records *)
| Data_chunk_iterator (it : chunk_iterator)      (* AbstractDataChunkIterator *)
| Data_values (v : pydata) (is_ndarray : bool).  (* str, bytes, scalar, sequence *)

(** [builder.data]: plain, wrapped in a ZarrDataIO, or an h5py.Dataset
    (which [ZarrDataIO.from_h5py_dataset] wraps with inferred settings). *)
Inductive dataset_data :=
| Plain (d : py_data)
| ZarrDataIO (settings : io_settings) (link_data : bool) (d : py_data)
| H5pyDataset (inferred : io_settings) (link_data : bool) (v : pydata).

Record DatasetBuilder := {
  d_info : BuilderInfo;
  d_attributes : list (string * attr_value);
  d_data : dataset_data;
  d_dtype : dtype_desc
}.

(** A LinkBuilder and what the backend reads of its target
    ([builder.builder]). *)
Record LinkBuilder := {
  l_info : BuilderInfo;
  l_builder : BuilderInfo
}.

Inductive GroupBuilder := mkGroup {
  g_info : BuilderInfo;
  g_attributes : list (string * attr_value);
  g_groups : list (string * GroupBuilder);
  g_datasets : list (string * DatasetBuilder);
  g_links : list (string * LinkBuilder)
}.

Definition ident_of (b : BuilderInfo) : ident := inl (b_id b).

End Builders.

(** ** The backend's methods *)

Section Backend.
Import TypeResolver Zarr IO Monad Builders.
Context {os : OsPath} {manager : BuildManager} {numpy : NumPy}.

(** *** PathRegistry: [__get_path] *)

(** The names collected by the loop of [__get_path]: from the builder
    up its parents, stopping at a missing parent or at ROOT_NAME. *)
Fixpoint names_to_root (curr : BuilderInfo) : list string :=
  if String.eqb (b_name curr) ROOT_NAME then []
  else b_name curr ::
       match b_parent curr with
       | None => []
       | Some p => names_to_root p
       end.

Definition __get_path (builder : BuilderInfo) : string :=
  match b_location builder with
  | Some location =>
      Path.replace_backslash (normpath (Path.join location (b_name builder)))
  | None => "/" ++ Path.join_names (List.rev (names_to_root builder))
  end.

(** *** ReferenceResolver: [__get_ref] *)

(** Where the loop of [__get_ref] stops: the ancestor named ROOT_NAME,
    or [None] when the parent chain ends first. *)
Fixpoint walk_to_root (curr : BuilderInfo) : option BuilderInfo :=
  if String.eqb (b_name curr) ROOT_NAME then Some curr
  else match b_parent curr with
       | None => None
       | Some p => walk_to_root p
       end.

Definition __get_ref (ref_object : ref_object) (export_source : option string)
  : M ZarrReference :=
  let* builder :=
    match ref_object with
    | RO_RegionBuilder _ =>
        raise (NotImplementedError
                 "Region references are currently not supported by ZarrIO")
    | RO_Builder b => ret b
    | RO_LinkBuilder _ target => ret target
    | RO_ReferenceBuilder target => ret target
    | RO_Container c => ret (build c)
    end in
  let path := __get_path builder in
  let object_id := b_object_id builder in
  let* source_object_id :=
    match walk_to_root builder with
    | Some curr => ret (b_object_id curr)
    | None =>
        warn ("Could not determine source_object_id for builder with path: "
              ++ path) ;;;
        ret None
    end in
  let* io := get in
  let source0 :=
    match b_source builder with
    | Some src => if isdir src then src else source io
    | None => source io
    end in
  let source1 :=
    match export_source with
    | Some _ => "."
    | None => relpath (abspath source0) (abspath (source io))
    end in
  ret {| ref_source := source1; ref_path := path;
         ref_object_id := object_id;
         ref_source_object_id := source_object_id |}.

(** *** Store access *)

Definition node_at (io : ZarrIO) (z : zarr_obj) : option znode :=
  f ← stores io !! z_location z; zf_nodes f !! z_path z.

(** Replace (or create) the node a handle points to. *)
Definition put_node (z : zarr_obj) (n : znode) : M unit :=
  modify (with_stores (fun st =>
    match st !! z_location z with
    | Some f =>
        <[ z_location z :=
             {| zf_nodes := <[ z_path z := n ]> (zf_nodes f);
                zf_consolidated := zf_consolidated f;
                zf_remote := zf_remote f; zf_path := zf_path f |} ]> st
    | None => st
    end)).

(** [__get_store_path(store)]: the path of the store, looking through
    a ConsolidatedMetadataStore. *)
Definition __get_store_path (z : zarr_obj) : string := z_store_path z.

(** [is_remote()]. *)
Definition is_remote (io : ZarrIO) : bool :=
  match z_kind (file io) with
  | FSStore | ConsolidatedMetadataStore => true
  | DirectoryStore => false
  end.

(** [__open_file_consolidated(store, mode='r')]: [zarr.open_consolidated],
    and plain [zarr.open] when the store has no consolidated metadata;
    both fail on a location that holds no hierarchy. *)
Definition __open_file_consolidated (store : string) : M zarr_obj :=
  let* io := get in
  match stores io !! store with
  | None => raise (ValueError ("path not found: " ++ store))
  | Some f =>
      match zf_nodes f !! [] with
      | None => raise (ValueError ("path not found: " ++ store))
      | Some _ =>
          ret {| z_kind := if zf_consolidated f then ConsolidatedMetadataStore
                           else if zf_remote f then FSStore else DirectoryStore;
                 z_location := store;
                 z_store_path := zf_path f;
                 z_path := [] |}
      end
  end.

(** [zarr_obj[item]] on a group: the node at the item path, KeyError
    when there is none; indexing an array with a path is an error too. *)
Definition zarr_getitem (z : zarr_obj) (item : string) : M zarr_obj :=
  let* io := get in
  match node_at io z with
  | Some (ZGroup _) =>
      match normalize_storage_path item with
      | None => raise (ValueError ("path containing '.' or '..' segment not allowed"))
      | Some segs =>
          let k := if Path.startswith_sep item then segs else (z_path z ++ segs)%list in
          let target := {| z_kind := z_kind z; z_location := z_location z;
                           z_store_path := z_store_path z; z_path := k |} in
          match node_at io target with
          | Some _ => ret target
          | None => raise (KeyError item)
          end
      end
  | _ => raise (TypeError "not a group")
  end.

(** [for x in v] on a stored JSON value: the items of a list, the keys
    of a dict, the characters of a string; nothing else can be iterated. *)
Definition json_iter (v : json) : option (list json) :=
  match v with
  | JList items => Some items
  | JDict items => Some (map (fun kv : string * json => JStr kv.1) items)
  | JStr s => Some (map (fun c => JStr (String c EmptyString)) (list_ascii_of_string s))
  | _ => None
  end.

(** [str(v)] for the values found in reference dicts. *)
Definition py_str (v : json) : string :=
  match v with
  | JStr s => s
  | JNull => "None"
  | JBool true => "True"
  | JBool false => "False"
  | JNum n => pretty n
  | JList _ => "[...]"
  | JDict _ => "{...}"
  end.

(** [zarr_ref.get(key, None)]: a null entry reads as a missing one. *)
Definition ref_get (zarr_ref : list (string * json)) (key : string) : option json :=
  match dict_get zarr_ref key with
  | Some JNull | None => None
  | Some v => Some v
  end.

(** *** ReferenceResolver: [resolve_ref] *)

(** The location a reference's source stands for: joined to this
    file's directory for a local store, appended to this file's path
    (without the leading dots) for a remote one. *)
Definition resolve_location (io : ZarrIO) (source_file : string) : string :=
  if negb (is_remote io) then abspath (Path.join (source io) source_file)
  else Path.rstrip_sep (path io) ++ Path.lstrip_dot source_file.

Definition resolve_ref (zarr_ref : list (string * json)) : M (string * zarr_obj) :=
  let* source_file :=
    match ref_get zarr_ref "source" with
    | None =>
        match dict_get zarr_ref "path" with
        | Some p => ret (py_str p)
        | None => raise (KeyError "path")
        end
    | Some src => ret (py_str src)
    end in
  let* io := get in
  let source_file := resolve_location io source_file in
  let object_path := ref_get zarr_ref "path" in
  let* target_name :=
    match object_path with
    | Some (JStr p) =>
        if String.eqb p "" then ret ROOT_NAME else ret (Path.basename p)
    | Some (JBool false) => ret ROOT_NAME
    | Some (JNum 0) => ret ROOT_NAME
    | Some (JList []) => ret ROOT_NAME
    | Some (JDict []) => ret ROOT_NAME
    | Some _ => raise (TypeError "expected str, bytes or os.PathLike object")
    | None => ret ROOT_NAME
    end in
  let* target_zarr_obj := __open_file_consolidated source_file in
  let* target_zarr_obj :=
    match object_path with
    | Some p =>
        reraise
          (match p with
           | JStr item => zarr_getitem target_zarr_obj item
           | _ => raise (TypeError "unsupported item")
           end)
          (ValueError ("Found bad link to object " ++ py_str p
                       ++ " in file " ++ source_file))
    | None => ret target_zarr_obj
    end in
  ret (target_name, target_zarr_obj).

(** *** WriteEngine: attributes and links *)

(** [obj.attrs[key] = value] on the handle of a group or an array.
    The keys are kept in the order of their first assignment, as the
    dict cached by an Attributes object keeps them; zarr writes them
    out sorted, so a handle opened later meets them in that order, and
    no statement below relies on the order.  The stores of the model
    hold groups and arrays only: the bare '.zattrs' key zarr would
    write for a handle whose node is gone has no place in them, and
    the model stops there with a KeyError. *)
Definition zarr_attrs_set (obj : zarr_obj) (key : string) (value : json) : M unit :=
  let* io := get in
  match node_at io obj with
  | Some n =>
      called (c_attrs_set (z_path obj) key value) ;;;
      put_node obj (set_node_attrs n (dict_set (node_attrs n) key value))
  | None => raise (KeyError (name_str obj))
  end.

(** [obj.attrs]: the attributes of the node, an empty dict where the
    store holds none for the path. *)
Definition zarr_attrs (obj : zarr_obj) : M (list (string * json)) :=
  let* io := get in ret (default [] (node_attrs <$> node_at io obj)).

(** [json.dumps] accepts a tuple when every element is serialisable. *)
Fixpoint items_json (items : list attr_item) : option (list json) :=
  match items with
  | [] => Some []
  | AI_json v :: r => cons v <$> items_json r
  | _ :: _ => None
  end.

(** [value.tolist()] of an ndarray: numpy scalars become Python values. *)
Definition tolist (items : list attr_item) : list attr_item :=
  map (fun i => match i with AI_np_generic v => AI_json v | _ => i end) items.

(** The element-wise conversion tried after a TypeError. *)
Definition convert_item (i : attr_item) : attr_item :=
  match i with
  | AI_np_generic v => AI_json v
  | AI_bytes s => AI_json (JStr s)
  | _ => i
  end.

Definition not_serializable : string := "Object is not JSON serializable".

(** The reference record of a reference-valued attribute: of the
    value itself when it is a Builder, of [value.builder] otherwise. *)
Definition attribute_ref (value : ref_object) (export_source : option string)
  : M ZarrReference :=
  match value with
  | RO_Builder _ | RO_LinkBuilder _ _ => __get_ref value export_source
  | RO_ReferenceBuilder target | RO_RegionBuilder target =>
      __get_ref (RO_Builder target) export_source
  | RO_Container c =>
      match c_builder c with
      | Some b => __get_ref (RO_Builder b) export_source
      | None => raise (AttributeError "'Container' object has no attribute 'builder'")
      end
  end.

Definition write_attribute (obj : zarr_obj) (export_source : option string)
  (key : string) (value : attr_value) : M unit :=
  match value with
  | AV_sequence items | AV_ndarray items =>
      (* Case 1: list, set, tuple type attributes *)
      let tmp := match value with AV_ndarray _ => tolist items | _ => items end in
      match items_json tmp with
      | Some l => zarr_attrs_set obj key (JList l)
      | None =>
          match items_json (map convert_item items) with
          | Some l => zarr_attrs_set obj key (JList l)
          | None => raise (TypeError (not_serializable ++ " type=" ++ "  data="))
          end
      end
  | AV_reference r =>
      (* Case 2: References *)
      let type_str := "object" in
      let* refs := attribute_ref r export_source in
      let tmp := JDict [("zarr_dtype", JStr type_str); ("value", ref_json refs)] in
      zarr_attrs_set obj key tmp
  | AV_ndarray0 _ =>
      (* Case 3 on a 0-d array: nothing of it can be serialised *)
      raise (TypeError (not_serializable ++ "key=" ++ key ++ " type=" ++ "  data="))
  | AV_scalar v =>
      (* Case 3: Scalar attributes *)
      match v with
      | AI_json j => zarr_attrs_set obj key j
      | _ =>
          match convert_item v with
          | AI_json j => zarr_attrs_set obj key j
          | _ => raise (TypeError (not_serializable ++ "key=" ++ key
                                   ++ " type=" ++ "  data="))
          end
      end
  end.

Definition write_attributes (obj : zarr_obj)
  (attributes : list (string * attr_value)) (export_source : option string) : M unit :=
  for_each attributes (fun kv => write_attribute obj export_source kv.1 kv.2).

Definition link_json (target_source target_path link_name : string) : json :=
  JDict [("source", JStr target_source); ("path", JStr target_path);
         ("name", JStr link_name)].

Definition __add_link__ (parent : zarr_obj)
  (target_source target_path link_name : string) : M unit :=
  let* attrs := zarr_attrs parent in
  (if dict_has attrs "zarr_link" then ret tt
   else zarr_attrs_set parent "zarr_link" (JList [])) ;;;
  let* attrs := zarr_attrs parent in
  (* zarr_link = list(parent.attrs['zarr_link']) *)
  let* zarr_link :=
    match dict_get attrs "zarr_link" with
    | Some v =>
        match json_iter v with
        | Some items => ret items
        | None => raise (TypeError "object is not iterable")
        end
    | None => raise (KeyError "zarr_link")
    end in
  zarr_attrs_set parent "zarr_link"
    (JList (zarr_link ++ [link_json target_source target_path link_name])%list).

Definition write_link (parent : zarr_obj) (builder : LinkBuilder) : M unit :=
  let* written := get_written (ident_of (l_info builder)) in
  if written then ret tt
  else
    let name := b_name (l_info builder) in
    let target_builder := l_builder builder in
    let* zarr_ref := __get_ref (RO_Builder target_builder) None in
    let zarr_ref_source :=
      if bool_decide (b_source (l_info builder) = b_source target_builder)
      then "." else ref_source zarr_ref in
    __add_link__ parent zarr_ref_source (ref_path zarr_ref) name ;;;
    set_written (ident_of (l_info builder)).

(** *** The store calls of the write engine *)

(** [parent.require_group(name)]. *)
Definition zarr_require_group (parent : zarr_obj) (name : string) : M zarr_obj :=
  let target := child parent name in
  called (c_require_group (z_path target)) ;;;
  let* io := get in
  match node_at io parent, node_at io target with
  | Some (ZGroup _), Some (ZGroup _) => ret target
  | Some (ZGroup _), Some (ZArray _ _) => raise (ValueError "path contains an array")
  | Some (ZGroup _), None => put_node target (ZGroup []) ;;; ret target
  | _, _ => raise (KeyError (name_str parent))
  end.

(** [parent[name]] on the store being written. *)
Definition zarr_item (parent : zarr_obj) (name : string) : M zarr_obj :=
  called (c_getitem (z_path (child parent name))) ;;;
  zarr_getitem parent name.

Definition new_array (shape : list nat) (dtype : storage_type) (object_codec : bool)
  (settings : io_settings) : znode :=
  ZArray [] {| a_shape := shape;
               a_chunks := default None (ios_chunks settings);
               a_dtype := Some dtype;
               a_object_codec := object_codec;
               a_data := AD_unset |}.

(** [parent.require_dataset(name, shape=, dtype=, **io_settings)]: the
    existing array when its shape agrees, a new one otherwise. *)
Definition zarr_require_dataset (parent : zarr_obj) (name : string)
  (shape : list nat) (dtype : storage_type) (object_codec : bool)
  (settings : io_settings) : M zarr_obj :=
  let target := child parent name in
  called (c_require_dataset (z_path target)) ;;;
  let* io := get in
  match node_at io parent, node_at io target with
  | Some (ZGroup _), Some (ZArray _ arr) =>
      if bool_decide (a_shape arr = shape) then ret target
      else raise (TypeError "shape do not match existing array")
  | Some (ZGroup _), Some (ZGroup _) => raise (ValueError "path contains a group")
  | Some (ZGroup _), None =>
      put_node target (new_array shape dtype object_codec settings) ;;; ret target
  | _, _ => raise (KeyError (name_str parent))
  end.

(** [parent.create_dataset(name, **io_settings)]: refuses an existing node. *)
Definition zarr_create_dataset (parent : zarr_obj) (name : string)
  (shape : list nat) (dtype : storage_type) (settings : io_settings) : M zarr_obj :=
  let target := child parent name in
  called (c_create_dataset (z_path target)) ;;;
  let* io := get in
  match node_at io parent, node_at io target with
  | Some (ZGroup _), None =>
      put_node target (new_array shape dtype false settings) ;;; ret target
  | Some (ZGroup _), Some _ => raise (ValueError "path contains an array or group")
  | _, _ => raise (KeyError (name_str parent))
  end.

(** Assignment of the whole content of an array. *)
Definition fill (dset : zarr_obj) (data : array_data) : M unit :=
  let* io := get in
  match node_at io dset with
  | Some (ZArray attrs arr) =>
      put_node dset (ZArray attrs {| a_shape := a_shape arr; a_chunks := a_chunks arr;
                                     a_dtype := a_dtype arr;
                                     a_object_codec := a_object_codec arr;
                                     a_data := data |})
  | _ => raise (KeyError (name_str dset))
  end.

(** The content an array of a shape has after [dset[...] = data]. *)
Definition assigned (shape : list nat) (data : array_data) : option array_data :=
  match data with
  | AD_values v => AD_values <$> as_content shape v
  | AD_refs refs => if bool_decide (shape = [List.length refs]) then Some data else None
  | AD_rows rows => if bool_decide (shape = [List.length rows]) then Some data else None
  | _ => Some data
  end.

(** [dset[...] = data]: a ValueError when the value has not the shape
    of the array. *)
Definition zarr_setitem (dset : zarr_obj) (data : array_data) : M unit :=
  called (c_setitem (z_path dset)) ;;;
  let* io := get in
  match node_at io dset with
  | Some (ZArray _ arr) =>
      match assigned (a_shape arr) data with
      | Some content => fill dset content
      | None => raise (ValueError "parameter 'value': array has not the expected shape")
      end
  | _ => raise (KeyError (name_str dset))
  end.

(** [dset[c] = v] for an index tuple [c]: the indices must lie inside
    the array; a single item takes any value, a larger selection a
    scalar or an array of its shape. *)
Definition zarr_setitem_at (dset : zarr_obj) (c : list nat) (v : pydata) : M unit :=
  called (c_setitem (z_path dset)) ;;;
  let* io := get in
  match node_at io dset with
  | Some (ZArray _ arr) =>
      if negb (Nat.leb (List.length c) (List.length (a_shape arr)))
      then raise (IndexError "too many indices for array")
      else if negb (forallb (fun ix : nat * nat => Nat.ltb ix.1 ix.2)
                      (zip c (a_shape arr)))
      then raise (IndexError "index out of bounds")
      else
        let selection := drop (List.length c) (a_shape arr) in
        match selection, as_content selection v with
        | _ :: _, None =>
            raise (ValueError "parameter 'value': array has not the expected shape")
        | _, _ => fill dset (AD_assigned (a_data arr) c v)
        end
  | _ => raise (KeyError (name_str dset))
  end.

(** [zarr.copy(data, parent, name=name)]: the array and its attributes
    are copied under the new name; an existing node is an error. *)
Definition zarr_copy (data : zarr_obj) (parent : zarr_obj) (name : string) : M unit :=
  let target := child parent name in
  called (c_copy (name_str data) (z_path target)) ;;;
  let* io := get in
  match node_at io data, node_at io parent, node_at io target with
  | Some n, Some (ZGroup _), None => put_node target n
  | Some _, Some (ZGroup _), Some _ =>
      raise (Exception "an object already exists in destination")
  | _, _, _ => raise (KeyError (name_str parent))
  end.

(** [zarr.consolidate_metadata(store=self.path)]. *)
Definition consolidate_metadata (store : string) : M unit :=
  called (c_consolidate_metadata store) ;;;
  let* io := get in
  match stores io !! store with
  | Some f =>
      modify (with_stores (fun st =>
        <[ store := {| zf_nodes := zf_nodes f; zf_consolidated := true;
                       zf_remote := zf_remote f; zf_path := zf_path f |} ]> st))
  | None => raise (ValueError ("path not found: " ++ store))
  end.

(** *** The chunk-write coordinator: [ZarrIODataChunkIteratorQueue] *)

Definition no_queue {A} (method : string) : M A :=
  raise (AttributeError ("'NoneType' object has no attribute '" ++ method ++ "'")).

(** [self.__dci_queue.append(dataset=dset, data=data)]. *)
Definition queue_append (dset : zarr_obj) (data : chunk_iterator) : M unit :=
  let* io := get in
  match __dci_queue io with
  | Some _ =>
      called (c_queue_append (z_path dset)) ;;;
      modify (with_dci_queue (fun q => (fun l => (l ++ [(dset, data)])%list) <$> q))
  | None => no_queue "append"
  end.

(** [self.__dci_queue.exhaust_queue()]: every queued array is fully
    written and the queue is left empty. *)
Definition exhaust_queue : M unit :=
  let* io := get in
  match __dci_queue io with
  | Some q =>
      called c_exhaust_queue ;;;
      for_each q (fun e => fill e.1 (AD_values (dci_values e.2))) ;;;
      modify (with_dci_queue (fun _ => Some []))
  | None => no_queue "exhaust_queue"
  end.

(** *** WriteEngine: [__scalar_fill__], [__list_fill__],
    [__setup_chunked_dataset__] *)

Definition could_not_determine (name : string) (parent : zarr_obj) : exn :=
  Exception ("cannot add " ++ name ++ " to " ++ name_str parent
             ++ " - could not determine type").

Definition object_ : storage_type := st_type ty_object.

Definition is_object (t : storage_type) : bool :=
  match t with st_type ty_object => true | _ => false end.

Definition __scalar_fill__ (parent : zarr_obj) (name : string) (data : pydata)
  (dtype : dtype_desc) (settings : io_settings) : M zarr_obj :=
  let* dtype := reraise (lift (__resolve_dtype__ dtype data))
                        (could_not_determine name parent) in
  let* dset := zarr_require_dataset parent name [1] dtype (is_object dtype) settings in
  zarr_setitem dset (AD_values data) ;;;
  zarr_attrs_set dset "zarr_dtype" (JStr "scalar") ;;;
  ret dset.

(** A field of a compound np.dtype that is flexible (strings, bytes,
    records) or an object. *)
Definition field_needs_object (f : option storage_type) : bool :=
  match f with
  | Some (st_type (ty_np _)) => false
  | Some (st_type (ty_native n)) =>
      negb (String.eqb n "int" || String.eqb n "float" || String.eqb n "bool")
  | Some (st_type _) => true
  | Some (st_np_dtype _ _ (k_flexible | k_object)) => true
  | Some (st_np_dtype _ _ _) => false
  | Some (st_compound _) => true
  | None => false
  end.

(** The shape, the dtype and the object codec [__list_fill__] settles on. *)
Definition list_fill_layout (data : pydata) (is_ndarray : bool)
  (dtype : storage_type) (settings : io_settings)
  : M (list nat * storage_type * bool) :=
  match ios_shape settings with
  | Some shape => ret (shape, dtype, false)
  | None =>
      match dtype with
      | st_np_dtype _ _ k_number | st_np_dtype _ _ k_bool
      | st_type (ty_np np_bool_) =>
          ret (get_data_shape data, dtype, false)
      | st_compound fields =>
          match py_len data with
          | None => raise (TypeError "object is not subscriptable")
          | Some _ =>
              if existsb field_needs_object (map snd fields)
              then ret (get_data_shape data, object_, true)
              else ret (get_data_shape data, dtype, false)
          end
      | st_np_dtype _ _ _ =>
          match py_len data with
          | None => raise (TypeError "object is not subscriptable")
          | Some n =>
              if (Nat.ltb 0 n && is_ndarray)%bool then
                match first_item data with
                | PyBytes _ => ret (get_data_shape data, st_type ty_bytes, false)
                | PyStr _ => ret (get_data_shape data, st_type ty_str, false)
                | _ => ret ([n], dtype, false)
                end
              else ret ([n], object_, true)
          end
      | st_type _ => ret (get_data_shape data, dtype, false)
      end
  end.

Definition __list_fill__ (parent : zarr_obj) (name : string) (data : pydata)
  (is_ndarray : bool) (dtype : dtype_desc) (settings : io_settings) : M zarr_obj :=
  let* dtype := reraise (lift (__resolve_dtype__ dtype data))
                        (could_not_determine name parent) in
  let type_str := __serial_dtype__ dtype in
  let* layout := list_fill_layout data is_ndarray dtype settings in
  let '(data_shape, dtype, object_codec) := layout in
  let* dset := zarr_require_dataset parent name data_shape dtype object_codec settings in
  zarr_attrs_set dset "zarr_dtype" type_str ;;;
  (* Write the data to file *)
  (if is_object dtype then
     for_each (ndindex data_shape) (fun c =>
       let* o := lift (item_at data c) in
       (* bytes are not JSON serializable *)
       zarr_setitem_at dset c (match o with PyBytes b => PyStr b | _ => o end))
   else
     (* standard write, one row at a time after a ValueError *)
     except_ValueError (zarr_setitem dset (AD_values data))
       (match py_len data with
        | Some n =>
            for_each (seq 0 n) (fun i =>
              let* row := lift (item_at data [i]) in zarr_setitem_at dset [i] row)
        | None => raise (TypeError "object has no len()")
        end)) ;;;
  ret dset.

Definition with_chunks (settings : io_settings) (chunks : option (list nat))
  : io_settings :=
  {| ios_shape := ios_shape settings; ios_chunks := Some chunks;
     ios_dtype := ios_dtype settings; ios_other := ios_other settings |}.

(** What [np.dtype] makes of the 'dtype' handed to zarr; [None] stands
    for the default, float64. *)
Definition as_np_dtype (dtype : dtype_desc) : outcome (option storage_type) :=
  match dtype with
  | D_None => Ok None
  | D_concrete t => Ok (Some t)
  | D_str n =>
      match np_dtype n with
      | Some t => Ok (Some t)
      | None => Raise (TypeError "data type not understood")
      end
  | _ => Raise (TypeError "data type not understood")
  end.

(** [__setup_chunked_dataset__(parent, name, data, options)], [options]
    carrying the 'dtype' of the builder and the io settings, as
    [write_dataset] calls it. *)
Definition __setup_chunked_dataset__ (parent : zarr_obj) (name : string)
  (data : chunk_iterator) (dtype : dtype_desc) (settings : io_settings) : M zarr_obj :=
  let chunks := match ios_chunks settings with
                | Some c => c
                | None => dci_recommended_chunk_shape data
                end in
  let shape := default (dci_recommended_data_shape data) (ios_shape settings) in
  reraise
    (let* t := match ios_dtype settings with
               | Some given => lift (as_np_dtype given)
               | None =>
                   match dtype with
                   | D_str n =>
                       (* map to real dtype if we were given a string *)
                       ret (st_type <$> dict_get __dtypes n)
                   | _ => lift (as_np_dtype dtype)
                   end
               end in
     let* dset := zarr_create_dataset parent name shape
                    (default (st_type (ty_np np_float64)) t)
                    (with_chunks settings chunks) in
     zarr_attrs_set dset "zarr_dtype" (JStr (np_dtype_str t)) ;;;
     ret dset)
    (Exception ("Could not create dataset " ++ name ++ " in " ++ name_str parent)).

(** *** WriteEngine: [write_dataset] *)

(** [__get_ref(item, export_source)] on an element of the data: only
    builders, reference builders and containers can be referenced. *)
Definition cell_ref (c : cell) (export_source : option string) : M ZarrReference :=
  match c with
  | C_ref r => __get_ref r export_source
  | C_val _ => raise (TypeError "cannot build an object that is not a container")
  end.

(** The loop over [enumerate(options['dtype'])] of a compound dataset:
    the indices of the reference fields and the type tag of every
    field.  [row0] is [data[0]]. *)
Fixpoint compound_type_str (fields : list (string * dtype_desc)) (i : nat)
  (row0 : option (list cell)) (export_source : option string)
  : M (list nat * list json) :=
  match fields with
  | [] => ret ([], [])
  | (n, dts) :: rest =>
      let* here :=
        if __is_ref dts then
          match row0 with
          | None => raise (IndexError "list index out of range")
          | Some row =>
              match row !! i with
              | None => raise (IndexError "list index out of range")
              | Some c =>
                  cell_ref c export_source ;;;
                  ret ([i], JDict [("name", JStr n); ("dtype", JStr "object")])
              end
          end
        else
          let* t := lift (__resolve_dtype_helper__ (D_list [(n, dts)])) in
          match __serial_dtype__ <$> t with
          | Some (JList (d :: _)) => ret ([], d)
          | _ => raise (IndexError "list index out of range")
          end in
      let* more := compound_type_str rest (S i) row0 export_source in
      ret ((here.1 ++ more.1)%list, here.2 :: more.2)
  end.

(** One row with its reference fields replaced by reference records. *)
Fixpoint new_item (refs : list nat) (i : nat) (item : list cell)
  (export_source : option string) : M (list stored_cell) :=
  match item with
  | [] => ret []
  | c :: item' =>
      let* c' :=
        if bool_decide (i ∈ refs) then
          let* r := cell_ref c export_source in ret (SC_ref r)
        else match c with
             | C_val v => ret (SC_val v)
             | C_ref _ => raise (TypeError "cannot store an object in a plain field")
             end in
      let* r := new_item refs (S i) item' export_source in
      ret (c' :: r)
  end.

Definition is_text_dtype (d : dtype_desc) : bool :=
  match d with
  | D_concrete (st_type ty_str) => true
  | D_str n =>
      bool_decide (n ∈ ["str"; "text"; "utf"; "utf8"; "utf-8"; "isodatetime"])
  | _ => false
  end.

(** The storage dtype of a compound dataset with references: text and
    reference fields become objects. *)
Fixpoint new_dtype (fields : list (string * dtype_desc))
  : outcome (list (string * option storage_type)) :=
  match fields with
  | [] => Ok []
  | (n, d) :: rest =>
      obind (if is_text_dtype d then Ok (Some object_)
             else match d with
                  | D_dict _ => Ok (Some object_)
                  | _ => __resolve_dtype_helper__ d
                  end) (fun t =>
      obind (new_dtype rest) (fun r => Ok ((n, t) :: r)))
  end.

(** The rows of a table as plain nested values, when none is an object. *)
Fixpoint row_values (row : list cell) : option (list pydata) :=
  match row with
  | [] => Some []
  | C_val v :: r => cons v <$> row_values r
  | C_ref _ :: _ => None
  end.

Fixpoint rows_values (rows : list (list cell)) : option (list pydata) :=
  match rows with
  | [] => Some []
  | row :: r =>
      match row_values row, rows_values r with
      | Some v, Some vs => Some (PySeq v :: vs)
      | _, _ => None
      end
  end.

(** The data as [__list_fill__] and [__scalar_fill__] take it. *)
Definition plain_values (data : py_data) : option (pydata * bool) :=
  match data with
  | Data_values v is_ndarray => Some (v, is_ndarray)
  | Data_rows rows => (fun l => (PySeq l, false)) <$> rows_values rows
  | _ => None
  end.

(** [data[0]] as the record a reference field is taken from. *)
Definition first_row (data : py_data) : option (list cell) :=
  match data with
  | Data_rows rows => head rows
  | Data_values (PySeq (PySeq items :: _)) _ => Some (map C_val items)
  | _ => None
  end.

Definition unsupported_data {A} : M A :=
  raise (TypeError "data cannot be converted to an array").

(** [self.__dci_queue = ZarrIODataChunkIteratorQueue()] when there is none. *)
Definition init_dci_queue : M unit :=
  modify (with_dci_queue (fun q => match q with None => Some [] | Some _ => q end)).

(** The branches of [write_dataset] below the Zarr array and
    HDMFDataset cases: compound data, references, regular data.  The
    result is the pair [(linked, dset)]. *)
Definition write_typed (parent : zarr_obj) (builder : DatasetBuilder)
  (export_source : option string) (data : py_data) (settings : io_settings)
  : M (bool * option zarr_obj) :=
  let name := b_name (d_info builder) in
  let dtype := d_dtype builder in
  match dtype with
  | D_list fields =>
      (* Write a compound dataset *)
      let* rt := compound_type_str fields 0 (first_row data) export_source in
      let '(refs, type_str) := rt in
      if Nat.ltb 0 (List.length refs) then
        match data with
        | Data_rows rows =>
            set_written (ident_of (d_info builder)) ;;;
            let* new_items := map_m (fun item =>
                if forallb (fun i => Nat.ltb i (List.length item)) refs
                then new_item refs 0 item export_source
                else raise (IndexError "list index out of range")) rows in
            let* fields' := lift (new_dtype fields) in
            let* dset := zarr_require_dataset parent name [List.length new_items]
                           (st_compound fields') true settings in
            zarr_attrs_set dset "zarr_dtype" (JList type_str) ;;;
            zarr_setitem dset (AD_rows new_items) ;;;
            ret (false, Some dset)
        | _ => unsupported_data
        end
      else
        (* write a compound datatype *)
        match plain_values data with
        | Some (v, nd) =>
            let* dset := __list_fill__ parent name v nd dtype settings in
            ret (false, Some dset)
        | None => unsupported_data
        end
  | _ =>
      if __is_ref dtype then
        (* Write a dataset of references *)
        let* sr :=
          match data with
          | Data_ReferenceBuilder target =>
              let* r := __get_ref (RO_Builder target) export_source in
              ret ([1], [r])
          | Data_refs items =>
              let* rs := map_m (fun item => __get_ref item export_source) items in
              ret ([List.length items], rs)
          | _ => unsupported_data
          end in
        let '(shape, refs) := sr in
        let* dset := zarr_require_dataset parent name shape object_ true settings in
        set_written (ident_of (d_info builder)) ;;;
        zarr_attrs_set dset "zarr_dtype" (JStr "object") ;;;
        zarr_setitem dset (AD_refs refs) ;;;
        ret (false, Some dset)
      else
        (* write a 'regular' dataset without DatasetIO info *)
        match data with
        | Data_chunk_iterator it =>
            let* dset := __setup_chunked_dataset__ parent name it dtype settings in
            queue_append dset it ;;;
            ret (false, Some dset)
        | _ =>
            match plain_values data with
            | Some (PySeq items, nd) =>
                let* dset := __list_fill__ parent name (PySeq items) nd dtype settings in
                ret (false, Some dset)
            | Some (v, _) =>
                let* dset := __scalar_fill__ parent name v dtype settings in
                ret (false, Some dset)
            | None => unsupported_data
            end
        end
  end.

(** [write_dataset] once [data], [io_settings] and [link_data] are
    separated; the recursive call is the one made with [force_data]. *)
Fixpoint write_dataset_data (parent : zarr_obj) (builder : DatasetBuilder)
  (export_source : option string) (data : py_data) (settings : io_settings)
  (link_data exhaust_dci : bool) {struct data} : M (option zarr_obj) :=
  (if exhaust_dci then init_dci_queue else ret tt) ;;;
  let* written := get_written (ident_of (d_info builder)) in
  if written then ret None
  else
    let name := b_name (d_info builder) in
    let* ld :=
      match data with
      | Data_Array a =>
          if link_data then
            __add_link__ parent (__get_store_path a) (name_str a) name ;;;
            ret (true, None)
          else
            zarr_copy a parent name ;;;
            let* dset := zarr_item parent name in
            ret (false, Some dset)
      | Data_HDMF_containers first rest =>
          let* ref_data := map_m (fun r => __get_ref r export_source)
                                 (RO_Container first :: rest) in
          let* dset := zarr_require_dataset parent name [List.length ref_data]
                         object_ true settings in
          zarr_attrs_set dset "zarr_dtype" (JStr "object") ;;;
          zarr_setitem dset (AD_refs ref_data) ;;;
          set_written (ident_of (d_info builder)) ;;;
          ret (false, Some dset)
      | Data_HDMF_other loaded =>
          let* dset := write_dataset_data parent builder export_source loaded
                         no_io_settings link_data true in
          set_written (ident_of (d_info builder)) ;;;
          ret (false, dset)
      | _ => write_typed parent builder export_source data settings
      end in
    let '(linked, dset) := ld in
    (if linked then ret tt
     else match dset with
          | Some d => write_attributes d (d_attributes builder) None
          | None => raise (TypeError "incorrect type for 'obj' (got 'NoneType')")
          end) ;;;
    set_written (ident_of (d_info builder)) ;;;
    (if exhaust_dci then exhaust_queue else ret tt) ;;;
    ret dset.

Definition write_dataset (parent : zarr_obj) (builder : DatasetBuilder)
  (link_data exhaust_dci : bool) (export_source : option string)
  : M (option zarr_obj) :=
  match d_data builder with
  | Plain data =>
      write_dataset_data parent builder export_source data no_io_settings
        link_data exhaust_dci
  | ZarrDataIO settings link_data' data =>
      write_dataset_data parent builder export_source data settings
        link_data' exhaust_dci
  | H5pyDataset inferred link_data' v =>
      write_dataset_data parent builder export_source (Data_values v false) inferred
        link_data' exhaust_dci
  end.

(** *** WriteEngine: [write_group] and [write_builder] *)

Fixpoint write_group (parent : zarr_obj) (builder : GroupBuilder)
  (link_data exhaust_dci : bool) (export_source : option string) : M zarr_obj :=
  let* written := get_written (ident_of (g_info builder)) in
  let* group :=
    if written then zarr_item parent (b_name (g_info builder))
    else zarr_require_group parent (b_name (g_info builder)) in
  (fix subgroups (l : list (string * GroupBuilder)) : M unit :=
     match l with
     | [] => ret tt
     | (_, sub_builder) :: l' =>
         write_group group sub_builder link_data exhaust_dci None ;;;
         subgroups l'
     end) (g_groups builder) ;;;
  for_each (g_datasets builder) (fun sub =>
    write_dataset group sub.2 link_data exhaust_dci export_source ;;; ret tt) ;;;
  for_each (g_links builder) (fun sub => write_link group sub.2) ;;;
  write_attributes group (g_attributes builder) None ;;;
  set_written (ident_of (g_info builder)) ;;;
  ret group.

Definition write_builder (f_builder : GroupBuilder)
  (link_data exhaust_dci : bool) (export_source : option string)
  (consolidate_metadata_ : bool) : M unit :=
  let* io := get in
  for_each (g_groups f_builder) (fun sub =>
    write_group (file io) sub.2 link_data exhaust_dci export_source ;;; ret tt) ;;;
  for_each (g_datasets f_builder) (fun sub =>
    write_dataset (file io) sub.2 link_data exhaust_dci export_source ;;; ret tt) ;;;
  write_attributes (file io) (g_attributes f_builder) None ;;;
  exhaust_queue ;;;
  set_written (ident_of (g_info f_builder)) ;;;
  if consolidate_metadata_ then
    let* io := get in consolidate_metadata (path io)
  else ret tt.

(** *** [get_zarr_paths] and [get_zarr_parent_path] *)

(** The loop of [get_zarr_paths]: climb while the parent directory
    holds a .zgroup; [n] bounds the climb by the length of the path. *)
Fixpoint climb_to_file (n : nat) (filepath : string) : string :=
  match n with
  | 0 => filepath
  | S n' =>
      if exists_ (Path.join (Path.dirname filepath) ".zgroup")
      then climb_to_file n' (Path.dirname filepath)
      else filepath
  end.

Definition get_zarr_paths (zarr_object : zarr_obj) : string * string :=
  let fpath := __get_store_path zarr_object in
  let fullpath :=
    Path.replace_backslash (normpath (Path.join fpath (path_str zarr_object))) in
  let filepath := climb_to_file (String.length fullpath) fullpath in
  let objectpath := "/" ++ relpath fullpath filepath in
  (filepath, objectpath).

Definition get_zarr_parent_path (zarr_object : zarr_obj) : string :=
  Path.dirname (get_zarr_paths zarr_object).2.

(** *** ReadEngine: the cache of built builders *)

(** The key of a Zarr object in [self.__built]. *)
Definition built_key (zarr_obj : zarr_obj) : string :=
  Path.join (__get_store_path zarr_obj) (path_str zarr_obj).

Definition __get_built (zarr_obj : zarr_obj) : M (option nat) :=
  let* io := get in ret (__built io !! built_key zarr_obj).

(** [self.__built.setdefault(path, builder)]. *)
Definition __set_built (zarr_obj : zarr_obj) (builder : nat) : M unit :=
  modify (with_built (fun b =>
    match b !! built_key zarr_obj with
    | Some _ => b
    | None => <[ built_key zarr_obj := builder ]> b
    end)).

(** Construction of a builder object: it gets the next identity. *)
Definition construct (b : built_builder) : M nat :=
  let* io := get in
  modify (with_objects (fun l => (l ++ [b])%list)) ;;;
  ret (List.length (objects io)).

(** In-place update of a builder object. *)
Definition update (id : nat) (f : built_builder -> built_builder) : M unit :=
  modify (with_objects (alter f id)).

Definition set_location (location : string) (b : built_builder) : built_builder :=
  match b with
  | BGroup n s a _ g d l => BGroup n s a location g d l
  | BDataset n s a _ t m c d => BDataset n s a location t m c d
  | BLink n s _ b' => BLink n s location b'
  end.

Definition set_group (sub : nat) (b : built_builder) : built_builder :=
  match b with
  | BGroup n s a loc g d l => BGroup n s a loc (g ++ [sub])%list d l
  | _ => b
  end.

Definition set_dataset (sub : nat) (b : built_builder) : built_builder :=
  match b with
  | BGroup n s a loc g d l => BGroup n s a loc g (d ++ [sub])%list l
  | _ => b
  end.

Definition set_link (sub : nat) (b : built_builder) : built_builder :=
  match b with
  | BGroup n s a loc g d l => BGroup n s a loc g d (l ++ [sub])%list
  | _ => b
  end.

(** [zarr_obj.groups()] and [zarr_obj.arrays()]: the children of a
    group by kind, in the key order of the store. *)
Definition members (io : ZarrIO) (zarr_obj : zarr_obj) (groups : bool)
  : list (string * Zarr.zarr_obj) :=
  match stores io !! z_location zarr_obj with
  | None => []
  | Some f =>
      omap (fun kn : list string * znode =>
              if (is_child_of (z_path zarr_obj) kn.1
                  && bool_decide (is_group kn.2 = groups))%bool
              then Some (last_name kn.1, child zarr_obj (last_name kn.1))
              else None)
           (map_to_list (zf_nodes f))
  end.

Definition __reserve_attribute : list string := ["zarr_dtype"; "zarr_link"].

(** *** ReadEngine: [__read_group], [__read_dataset], [__read_links],
    [__read_attrs] *)

Definition is_ref_tag (v : json) : bool :=
  match v with
  | JStr s => (String.eqb s "object" || String.eqb s "region")%bool
  | _ => false
  end.

Definition name_or_basename (name : option string) (zarr_obj : zarr_obj) : string :=
  default (Path.basename (name_str zarr_obj)) name.

(** [v == s] for a stored JSON value and a string. *)
Definition tag_is (v : json) (s : string) : bool :=
  match v with
  | JStr x => String.eqb x s
  | _ => false
  end.

(** The data a DatasetBuilder is given for a type tag or raw dtype;
    for the tag 'scalar' it is [zarr_obj[()]], the content of the
    array as an array of its shape. *)
Definition read_data_for (zarr_obj : zarr_obj) (arr : zarray) (dtype : read_dtype)
  : M read_data :=
  match dtype with
  | RT_tag (JList l) =>
      let* retrieved_dtypes :=
        map_m (fun dts =>
                 match dts with
                 | JDict kv =>
                     match dict_get kv "dtype" with
                     | Some t => ret t
                     | None => raise (KeyError "dtype")
                     end
                 | _ => raise (TypeError "indices must be integers")
                 end) l in
      if existsb is_ref_tag retrieved_dtypes
      then ret (RD_table zarr_obj retrieved_dtypes)
      else ret (RD_array zarr_obj)
  | RT_tag v =>
      if tag_is v "scalar" then ret (RD_scalar (a_data arr))
      else if tag_is v "object" then ret (RD_references zarr_obj)
      else ret (RD_array zarr_obj)
  | RT_raw _ => ret (RD_array zarr_obj)
  end.

Fixpoint __read_group (depth : nat) (zarr_obj : zarr_obj) (name : option string)
  {struct depth} : M nat :=
  match depth with
  | 0 => too_deep
  | S depth' =>
      let* cached := __get_built zarr_obj in
      match cached with
      | Some r => ret r
      | None =>
          let name := name_or_basename name zarr_obj in
          (* Create the GroupBuilder *)
          let* attributes := __read_attrs depth' zarr_obj in
          let* io := get in
          let* r := construct (BGroup name (source io) attributes "" [] [] []) in
          update r (set_location (get_zarr_parent_path zarr_obj)) ;;;
          (* read sub groups *)
          for_each (members io zarr_obj true) (fun sub =>
            let* sub_builder := __read_group depth' sub.2 (Some sub.1) in
            update r (set_group sub_builder)) ;;;
          (* read sub datasets *)
          for_each (members io zarr_obj false) (fun sub =>
            let* sub_builder := __read_dataset depth' sub.2 (Some sub.1) in
            update r (set_dataset sub_builder)) ;;;
          (* read the links *)
          __read_links depth' zarr_obj r ;;;
          set_written (inr r) ;;;
          __set_built zarr_obj r ;;;
          ret r
      end
  end

with __read_links (depth : nat) (zarr_obj : zarr_obj) (parent : nat)
  {struct depth} : M unit :=
  match depth with
  | 0 => too_deep
  | S depth' =>
      let* io := get in
      match dict_get (default [] (node_attrs <$> node_at io zarr_obj)) "zarr_link" with
      | None => ret tt
      | Some links =>
          match json_iter links with
          | None => raise (TypeError "object is not iterable")
          | Some links =>
              for_each links (fun link =>
                match link with
                | JDict d =>
                    let* link_name :=
                      match dict_get d "name" with
                      | Some n => ret n
                      | None => raise (KeyError "name")
                      end in
                    let* target := resolve_ref d in
                    let '(target_name, target_zarr_obj) := target in
                    let* io := get in
                    let* builder :=
                      match node_at io target_zarr_obj with
                      | Some (ZGroup _) =>
                          __read_group depth' target_zarr_obj (Some target_name)
                      | _ => __read_dataset depth' target_zarr_obj (Some target_name)
                      end in
                    let* io := get in
                    (* LinkBuilder(builder=, name=, source=): the name must be a str *)
                    let* link_name :=
                      match link_name with
                      | JStr n => ret n
                      | _ => raise (TypeError "LinkBuilder.__init__: incorrect type for 'name'")
                      end in
                    let location :=
                      match objects io !! parent with
                      | Some (BGroup n _ _ loc _ _ _) => Path.join loc n
                      | _ => ""
                      end in
                    let* link_builder :=
                      construct (BLink link_name (source io) "" builder) in
                    update link_builder (set_location location) ;;;
                    set_written (inr link_builder) ;;;
                    update parent (set_link link_builder)
                | _ => raise (TypeError "indices must be integers")
                end)
          end
      end
  end

with __read_dataset (depth : nat) (zarr_obj : zarr_obj) (name : option string)
  {struct depth} : M nat :=
  match depth with
  | 0 => too_deep
  | S depth' =>
      let* cached := __get_built zarr_obj in
      match cached with
      | Some r => ret r
      | None =>
          let missing :=
            ValueError ("Dataset missing zarr_dtype: " ++ default "None" name
                        ++ "   " ++ name_str zarr_obj) in
          let* io := get in
          match node_at io zarr_obj with
          | Some (ZArray attrs arr) =>
              let* zarr_dtype :=
                match dict_get attrs "zarr_dtype" with
                | Some v => ret (RT_tag v)
                | None =>
                    match a_dtype arr with
                    | Some t =>
                        (* Fallback for invalid files that are missing zarr_type *)
                        warn ("Inferred dtype from zarr type. Dataset missing zarr_dtype: "
                              ++ default "None" name ++ "   " ++ name_str zarr_obj) ;;;
                        ret (RT_raw t)
                    | None => raise missing
                    end
                end in
              let* attributes := __read_attrs depth' zarr_obj in
              let maxshape := a_shape arr in
              let chunks :=
                negb (bool_decide (Some (a_shape arr) = a_chunks arr
                                   \/ a_chunks arr = None)) in
              (* By default, use the zarr.core.Array as data for lazy data load *)
              let* data := read_data_for zarr_obj arr zarr_dtype in
              let name := name_or_basename name zarr_obj in
              let* io := get in
              let* r := construct (BDataset name (source io) attributes ""
                                     zarr_dtype maxshape chunks data) in
              update r (set_location (get_zarr_parent_path zarr_obj)) ;;;
              set_written (inr r) ;;;
              __set_built zarr_obj r ;;;
              ret r
          | Some (ZGroup attrs) =>
              if dict_has attrs "zarr_dtype"
              then raise (AttributeError "'Group' object has no attribute 'shape'")
              else raise missing
          | None => raise (KeyError (name_str zarr_obj))
          end
      end
  end

with __read_attrs (depth : nat) (zarr_obj : zarr_obj)
  {struct depth} : M (list (string * read_attr)) :=
  match depth with
  | 0 => too_deep
  | S depth' =>
      let* io := get in
      fold_m (fun ret_ (kv : string * json) =>
        let '(k, v) := kv in
        if bool_decide (k ∈ __reserve_attribute) then ret ret_
        else
          match v with
          | JDict d =>
              match dict_get d "zarr_dtype" with
              | Some tag =>
                  if tag_is tag "object" then
                    let* target :=
                      match dict_get d "value" with
                      | Some (JDict r) => resolve_ref r
                      | Some _ => raise (AttributeError "object has no attribute 'get'")
                      | None => raise (KeyError "value")
                      end in
                    let '(target_name, target_zarr_obj) := target in
                    let* io := get in
                    let* b :=
                      match node_at io target_zarr_obj with
                      | Some (ZGroup _) =>
                          __read_group depth' target_zarr_obj (Some target_name)
                      | _ => __read_dataset depth' target_zarr_obj (Some target_name)
                      end in
                    ret (dict_set ret_ k (RA_builder b))
                  else if tag_is tag "region" then
                    raise (NotImplementedError
                      "Read of region references from attributes not implemented in ZarrIO")
                  else
                    raise (NotImplementedError "Unsupported zarr_dtype for attribute")
              | None => ret (dict_set ret_ k (RA_json v))
              end
          | _ => ret (dict_set ret_ k (RA_json v))
          end)
        (default [] (node_attrs <$> node_at io zarr_obj)) []
  end.

(** [read_builder]; [depth] bounds the depth of nested calls. *)
Definition read_builder (depth : nat) : M nat :=
  let* io := get in __read_group depth (file io) (Some ROOT_NAME).

(** *** [get_builder] *)

(** [get_builder(zarr_obj)]: the builder the cache holds for the
    object, a ValueError when none has been built. *)
Definition get_builder (zarr_obj : zarr_obj) : M nat :=
  let* builder := __get_built zarr_obj in
  match builder with
  | None => raise (ValueError (name_str zarr_obj ++ " has not been built"))
  | Some b => ret b
  end.

End Backend.

(** ** Concrete platforms and stores, for examples *)

Module Examples.
Import TypeResolver Zarr IO Monad Builders.

(** [p] without a final "/." component. *)
Fixpoint drop_dot (p : string) : string :=
  match p with
  | String "/" (String "." EmptyString) => EmptyString
  | String c p' => String c (drop_dot p')
  | EmptyString => EmptyString
  end.

(** A platform where paths are absolute and normal up to a final ".". *)
Definition plain_os : OsPath :=
  {| normpath := drop_dot;
     abspath := drop_dot;
     relpath := fun p start => if String.eqb p start then "." else p;
     isdir := fun _ => true;
     exists_ := fun _ => false |}.

Definition root_info : BuilderInfo :=
  {| b_id := 0; b_name := ROOT_NAME; b_parent := None; b_location := None;
     b_source := Some "/data/a.zarr"; b_object_id := Some "id-root" |}.

Definition info (id : nat) (name : string) (src : string) : BuilderInfo :=
  {| b_id := id; b_name := name; b_parent := Some root_info; b_location := None;
     b_source := Some src; b_object_id := Some ("id-" ++ name) |}.

Definition plain_manager : BuildManager :=
  {| build := fun c => default root_info (c_builder c) |}.

(** A numpy that understands the names of its own scalar types. *)
Definition plain_numpy : NumPy :=
  {| np_dtype := fun name =>
       st_type <$> dict_get [("float32", ty_np np_float32); ("float64", ty_np np_float64);
                             ("int64", ty_np np_int64); ("uint64", ty_np np_uint64);
                             ("int32", ty_np np_int32); ("int16", ty_np np_int16);
                             ("int8", ty_np np_int8); ("uint32", ty_np np_uint32);
                             ("uint16", ty_np np_uint16); ("uint8", ty_np np_uint8)]
                            name |}.

Definition root_of (location : string) : zarr_obj :=
  {| z_kind := DirectoryStore; z_location := location;
     z_store_path := location; z_path := [] |}.

Definition file_of (nodes : list (list string * znode)) (location : string) : zfile :=
  {| zf_nodes := list_to_map nodes; zf_consolidated := false;
     zf_remote := false; zf_path := location |}.

(** An IO object on /data/a.zarr, nothing written or read yet. *)
Definition io_on (files : list (string * zfile)) : ZarrIO :=
  {| source := "/data/a.zarr"; path := "/data/a.zarr";
     file := root_of "/data/a.zarr";
     stores := list_to_map files;
     _written_builders := ∅; __dci_queue := None; __built := ∅;
     objects := []; warned := []; calls := [] |}.

Definition empty_store : ZarrIO :=
  io_on [("/data/a.zarr", file_of [([], ZGroup [])] "/data/a.zarr")].

(** The same IO object once [write] has set up the chunk queue. *)
Definition writing : ZarrIO := with_dci_queue (fun _ => Some []) empty_store.

Definition location : string := "/data/a.zarr".
Definition root : zarr_obj := root_of location.

(** A group G with one attribute, a link to it, and two builders that
    hold both: the root builder and a group S. *)
Definition G_info : BuilderInfo := info 2 "G" location.

Definition G : GroupBuilder :=
  mkGroup G_info [("a", AV_scalar (AI_json (JNum 1)))] [] [] [].

Definition lnk : LinkBuilder :=
  {| l_info := info 3 "lnk" location; l_builder := G_info |}.

Definition rooted : GroupBuilder :=
  mkGroup root_info [] [("G", G)] [] [("lnk", lnk)].

Definition nested : GroupBuilder :=
  mkGroup (info 4 "S" location) [] [("G", G)] [] [("lnk", lnk)].

(** A dataset of one int32 with an attribute. *)
Definition ds : DatasetBuilder :=
  {| d_info := info 7 "d" location;
     d_attributes := [("unit", AV_scalar (AI_json (JStr "mV")))];
     d_data := Plain (Data_values (PySeq [PyScalar (ty_native "int")]) false);
     d_dtype := D_str "int32" |}.

(** Attributes with a reference to G. *)
Definition ref_attributes : list (string * attr_value) :=
  [("unit", AV_scalar (AI_json (JStr "mV")));
   ("ref", AV_reference (RO_Builder G_info))].

Definition G_ref : ZarrReference :=
  {| ref_source := "."; ref_path := "/G"; ref_object_id := Some "id-G";
     ref_source_object_id := Some "id-root" |}.

(** A store with a group G. *)
Definition G_file : zfile :=
  file_of [([], ZGroup []); (["G"], ZGroup [("a", JNum 1)])] location.

Definition with_G : ZarrIO := io_on [(location, G_file)].

Definition to_G : list (string * json) :=
  [("source", JStr "."); ("path", JStr "/G"); ("name", JStr "lnk")].

Definition to_nowhere : list (string * json) :=
  [("source", JStr "."); ("path", JStr "/H"); ("name", JStr "lnk")].

(** A store whose group G holds a link to G itself. *)
Definition cyclic : ZarrIO :=
  io_on [(location,
          file_of [([], ZGroup []);
                   (["G"], ZGroup [("zarr_link", JList [link_json "." "/G" "me"])])]
                  location)].

(** A store whose group A holds a link to its sibling B. *)
Definition shared : ZarrIO :=
  io_on [(location,
          file_of [([], ZGroup []);
                   (["A"], ZGroup [("zarr_link", JList [link_json "." "/B" "toB"])]);
                   (["B"], ZGroup [("x", JNum 1)])]
                  location)].

(** A rank for the cache keys of that store: the root above A, and A,
    which links to B, above B. *)
Definition shared_rank (k : string) : nat :=
  if String.eqb k (built_key root) then 2
  else if String.eqb k (built_key (child root "A")) then 1
  else 0.

(** A store with an array that has no 'zarr_dtype' attribute. *)
Definition int32_pair : zarray :=
  {| a_shape := [2]; a_chunks := None;
     a_dtype := Some (st_type (ty_np np_int32));
     a_object_codec := false; a_data := AD_unset |}.

Definition untagged : ZarrIO :=
  io_on [(location,
          file_of [([], ZGroup []); (["d"], ZArray [("unit", JStr "mV")] int32_pair)]
                  location)].

(** An array without a type tag whose attribute r is the stored form
    of a region reference. *)
Definition untagged_region : ZarrIO :=
  io_on [(location,
          file_of [([], ZGroup []);
                   (["d"], ZArray [("r", JDict [("zarr_dtype", JStr "region");
                                                ("value", JDict [])])]
                             int32_pair)]
                  location)].

(** A root builder whose group G holds a link to G itself. *)
Definition me : LinkBuilder :=
  {| l_info := info 6 "me" location; l_builder := G_info |}.

Definition looped : GroupBuilder :=
  mkGroup root_info [] [("G", mkGroup G_info [] [] [] [("me", me)])] [] [].

(** The group S without members. *)
Definition S_alone : GroupBuilder := mkGroup (info 4 "S" location) [] [] [] [].

(** A dataset of G, one level further down. *)
Definition x_info : BuilderInfo :=
  {| b_id := 5; b_name := "x"; b_parent := Some G_info; b_location := None;
     b_source := Some location; b_object_id := Some "id-x" |}.

(** A store with an array tagged 'int32', and a dataset builder whose
    data is that array. *)
Definition tagged : ZarrIO :=
  io_on [(location,
          file_of [([], ZGroup []);
                   (["d"], ZArray [("zarr_dtype", JStr "int32")] int32_pair)]
                  location)].

Definition alias : DatasetBuilder :=
  {| d_info := info 8 "alias" location;
     d_attributes := [("unit", AV_scalar (AI_json (JStr "mV")))];
     d_data := Plain (Data_Array (child root "d"));
     d_dtype := D_None |}.

(** A chunk iterator over two int32 values. *)
Definition ramp : chunk_iterator :=
  {| dci_recommended_chunk_shape := Some [1];
     dci_recommended_data_shape := [2];
     dci_dtype := D_str "int32";
     dci_values := PySeq [PyScalar (ty_np np_int32); PyScalar (ty_np np_int32)] |}.

(** A root builder with one dataset, fed by that chunk iterator. *)
Definition chunked : GroupBuilder :=
  mkGroup root_info []
    [] [("r", {| d_info := info 9 "r" location; d_attributes := [];
                 d_data := Plain (Data_chunk_iterator ramp);
                 d_dtype := D_str "int32" |})] [].

End Examples.

(** ** Notions used in the statements *)

Section Notions.
Import TypeResolver Zarr IO Monad Builders.

(** The node a path leads to in a store: the segments of the path when
    the store has a node there. *)
Definition lookup_path (f : zfile) (p : string) : option (list string) :=
  segs ← normalize_storage_path p;
  _ ← zf_nodes f !! segs;
  Some segs.

(** The handle [zarr.open] gives for a node of an opened store. *)
Definition opened (f : zfile) (location : string) (segs : list string) : zarr_obj :=
  {| z_kind := if zf_consolidated f then ConsolidatedMetadataStore
               else if zf_remote f then FSStore else DirectoryStore;
     z_location := location; z_store_path := zf_path f; z_path := segs |}.

(** The state [write_dataset] leaves when it returns early: only the
    chunk queue may have been created. *)
Definition queue_ready (exhaust_dci : bool) (io : ZarrIO) : ZarrIO :=
  if exhaust_dci
  then with_dci_queue (fun q => match q with None => Some [] | Some _ => q end) io
  else io.

(** A group without children. *)
Definition leaf (builder : GroupBuilder) : Prop :=
  g_groups builder = [] /\ g_datasets builder = [] /\ g_links builder = [].

(** [obj.attrs[key]], when the node exists and has the key. *)
Definition attr_at (io : ZarrIO) (obj : zarr_obj) (key : string) : option json :=
  n ← node_at io obj; dict_get (node_attrs n) key.

(** How a reference-valued attribute is stored. *)
Definition stored_reference (tag : string) (r : ZarrReference) : json :=
  JDict [("zarr_dtype", JStr tag); ("value", ref_json r)].

(** A computation that leaves the IO object as it found it. *)
Definition pure_ {A} (m : M A) : Prop := forall io, (m io).2 = io.

(** An invariant [I] of the IO object kept by a computation whose
    results satisfy [Q]. *)
Definition keeps (I : ZarrIO -> Prop) {A} (Q : A -> Prop) (m : M A) : Prop :=
  forall io, I io -> I (m io).2 /\ forall a, (m io).1 = Ok a -> Q a.

(** The user-visible attributes hold none of the reserved keys. *)
Definition reserved_free (attributes : list (string * read_attr)) : Prop :=
  forall k, k ∈ __reserve_attribute -> dict_get attributes k = None.

(** Every builder object constructed so far has attributes free of the
    reserved keys. *)
Definition heap_ok (io : ZarrIO) : Prop :=
  Forall (fun b => reserved_free (built_attributes b)) (objects io).

(** The warning issued for a dataset without a type tag. *)
Definition missing_tag_warning (name : option string) (zarr_obj : zarr_obj) : string :=
  "Inferred dtype from zarr type. Dataset missing zarr_dtype: "
  ++ default "None" name ++ "   " ++ name_str zarr_obj.

(** Two states of one session: the same source, path, file and stores.
    Reading changes the builders, the cache and the warnings only. *)
Definition same_world (io io' : ZarrIO) : Prop :=
  source io = source io' /\ path io = path io' /\ file io = file io'
  /\ stores io = stores io'.

(** A pair of computations that, run in two states of one session,
    give the same outcome and stay in that session. *)
Definition agree {A} (m m' : M A) : Prop :=
  forall io io', same_world io io' ->
    (m io).1 = (m' io').1 /\ same_world (m io).2 (m' io').2.

Context {os : OsPath}.

(** [zarr_obj.attrs], empty where the store has no such node. *)
Definition attrs_of (io : ZarrIO) (z : zarr_obj) : list (string * json) :=
  default [] (node_attrs <$> node_at io z).

(** The nodes a read of [z] goes on to read: its sub groups and arrays,
    the targets of its links and the targets of its reference
    attributes. *)
Definition reads_next (io : ZarrIO) (z z' : zarr_obj) : Prop :=
  (exists name groups, (name, z') ∈ members io z groups)
  \/ (exists links d name,
        dict_get (attrs_of io z) "zarr_link" = Some (JList links)
        /\ JDict d ∈ links /\ (resolve_ref d io).1 = Ok (name, z'))
  \/ (exists k d r name,
        (k, JDict d) ∈ attrs_of io z /\ dict_get d "value" = Some (JDict r)
        /\ (resolve_ref r io).1 = Ok (name, z')).

(** No read that starts at [z0] comes back to a cache key it is still
    working on: every step goes to a key of lower rank. *)
Definition acyclic_from (rank : string -> nat) (io : ZarrIO) (z0 : zarr_obj) : Prop :=
  forall z z', rtc (reads_next io) z0 z -> reads_next io z z' ->
               rank (built_key z') < rank (built_key z).

(** The state is one of the session of [io0], and the cache holds, next
    to the keys of [c0], keys of rank below [R] only. *)
Definition cache_below (rank : string -> nat) (io0 : ZarrIO)
    (c0 : gmap string nat) (R : nat) (io : ZarrIO) : Prop :=
  same_world io0 io
  /\ forall k, is_Some (__built io !! k) -> is_Some (c0 !! k) \/ rank k < R.

Context {manager : BuildManager} {numpy : NumPy}.

(** The builder a reference is made to: the object itself, the target
    of a link or of a reference builder, or what the manager builds
    from a container; none for a region reference. *)
Definition referenced_builder (ref_object : ref_object)
  : option BuilderInfo :=
  match ref_object with
  | RO_Builder b => Some b
  | RO_LinkBuilder _ target => Some target
  | RO_ReferenceBuilder target => Some target
  | RO_Container c => Some (build c)
  | RO_RegionBuilder _ => None
  end.

(** The link records a group holds in its 'zarr_link' attribute. *)
Definition links_of (io : ZarrIO) (parent : zarr_obj) : list json :=
  match attr_at io parent "zarr_link" with
  | Some (JList l) => l
  | _ => []
  end.

(** The 'zarr_link' attribute, where there is one, is a list. *)
Definition links_well_formed (io : ZarrIO) (parent : zarr_obj) : Prop :=
  forall v, attr_at io parent "zarr_link" = Some v -> exists l, v = JList l.

(** The warning of [__get_ref] for a builder with no root above it. *)
Definition no_root_warning (builder : BuilderInfo) : string :=
  "Could not determine source_object_id for builder with path: "
  ++ __get_path builder.

(** Attribute values no conversion of [write_attributes] can make
    serialisable: a 0-d array, a scalar that is neither JSON, a numpy
    scalar nor bytes, and a sequence that holds such an element. *)
Definition unserialisable (value : attr_value) : Prop :=
  match value with
  | AV_ndarray0 _ => True
  | AV_scalar (AI_other _) => True
  | AV_sequence items | AV_ndarray items => exists repr, AI_other repr ∈ items
  | _ => False
  end.

(** A relation between the IO object before and after that every
    method of the write engine keeps, however the call ends. *)
Definition kept_by_writing (R : ZarrIO -> ZarrIO -> Prop) : Prop :=
  (forall obj attributes export_source io,
      R io (write_attributes obj attributes export_source io).2)
  /\ (forall parent builder io, R io (write_link parent builder io).2)
  /\ (forall parent builder link_data exhaust_dci export_source io,
      R io (write_dataset parent builder link_data exhaust_dci export_source io).2)
  /\ (forall parent builder link_data exhaust_dci export_source io,
      R io (write_group parent builder link_data exhaust_dci export_source io).2)
  /\ (forall f_builder link_data exhaust_dci export_source consolidate io,
      R io (write_builder f_builder link_data exhaust_dci export_source consolidate io).2).

(** The builders of a group: the group itself, the builders of its sub
    groups, its datasets and its links. *)
Fixpoint builders_of (builder : GroupBuilder) : list ident :=
  ident_of (g_info builder)
  :: ((fix subgroups (l : list (string * GroupBuilder)) : list ident :=
         match l with
         | [] => []
         | (_, sub_builder) :: l' => builders_of sub_builder ++ subgroups l'
         end) (g_groups builder)
      ++ map (fun sub : string * DatasetBuilder => ident_of (d_info sub.2))
             (g_datasets builder)
      ++ map (fun sub : string * LinkBuilder => ident_of (l_info sub.2))
             (g_links builder))%list.

(** A relation between the IO object before and after that every
    method of the read engine keeps, however the call ends. *)
Definition kept_by_reading (R : ZarrIO -> ZarrIO -> Prop) : Prop :=
  (forall depth z name io, R io (__read_group depth z name io).2)
  /\ (forall depth z parent io, R io (__read_links depth z parent io).2)
  /\ (forall depth z name io, R io (__read_dataset depth z name io).2)
  /\ (forall depth z io, R io (__read_attrs depth z io).2)
  /\ (forall depth io, R io (read_builder depth io).2).

(** A builder object and a later state of it: the same kind of
    builder with the same name, source and attributes (and, for a
    dataset, type, shape, chunking and data; for a link, target), its
    groups, datasets and links being the earlier ones, possibly
    followed by more.  The location is left open. *)
Definition extends (b b' : built_builder) : Prop :=
  match b, b' with
  | BGroup n s a _ g d l, BGroup n' s' a' _ g' d' l' =>
      n = n' /\ s = s' /\ a = a' /\ g `prefix_of` g' /\ d `prefix_of` d'
      /\ l `prefix_of` l'
  | BDataset n s a _ t m c x, BDataset n' s' a' _ t' m' c' x' =>
      n = n' /\ s = s' /\ a = a' /\ t = t' /\ m = m' /\ c = c' /\ x = x'
  | BLink n s _ t, BLink n' s' _ t' => n = n' /\ s = s' /\ t = t'
  | _, _ => False
  end.

(** The builder with its location taken away. *)
Definition without_location (b : BuilderInfo) : BuilderInfo :=
  {| b_id := b_id b; b_name := b_name b; b_parent := b_parent b;
     b_location := None; b_source := b_source b; b_object_id := b_object_id b |}.

(** What [write_builder] does before it turns to the queue: the sub
    groups and the datasets of the root builder, then its attributes. *)
Definition write_members (f_builder : GroupBuilder) (link_data exhaust_dci : bool)
  (export_source : option string) : M unit :=
  let* io := get in
  for_each (g_groups f_builder) (fun sub =>
    write_group (file io) sub.2 link_data exhaust_dci export_source ;;; ret tt) ;;;
  for_each (g_datasets f_builder) (fun sub =>
    write_dataset (file io) sub.2 link_data exhaust_dci export_source ;;; ret tt) ;;;
  write_attributes (file io) (g_attributes f_builder) None.

(** The key of a node: the location of its store and its path. *)
Definition node_key (z : zarr_obj) : string * list string := (z_location z, z_path z).

(** A JSON value that holds no dict, at any depth. *)
Fixpoint dict_free (v : json) : bool :=
  match v with
  | JDict _ => false
  | JList items => forallb dict_free items
  | _ => true
  end.

(** An attribute value that is not the stored form of a reference: no
    dict with a 'zarr_dtype' key. *)
Definition plain_value (v : json) : Prop :=
  match v with
  | JDict d => dict_get d "zarr_dtype" = None
  | _ => True
  end.

(** The attributes of a node as a builder gets them when none is a
    reference: the stored values under their keys, in order, without
    the reserved keys. *)
Definition read_plain (attrs : list (string * json)) : list (string * read_attr) :=
  map (fun kv : string * json => (kv.1, RA_json kv.2))
      (filter (fun kv : string * json => kv.1 ∉ __reserve_attribute) attrs).

End Notions.

(** * Properties of the backend *)

(** ** TypeResolver *)

Section TypeResolverFacts.
Import TypeResolver.

Lemma get_type_str s : get_type (PyStr s) = Ok (st_type ty_str).
Proof. reflexivity. Qed.

Lemma get_type_bytes b : get_type (PyBytes b) = Ok (st_type ty_bytes).
Proof. reflexivity. Qed.

Lemma resolve_unset data : __resolve_dtype__ D_None data = get_type data.
Proof. reflexivity. Qed.

(** C7. With the dtype unset, [__resolve_dtype__] infers the type from
    the data with [get_type]: a string gives the text type, bytes give
    the bytes type, a scalar gives its own type, a non-empty sequence
    gives the type of its first element, and an empty sequence raises
    the error that no type can be determined. *)
Theorem C7_infer_type_from_data :
  (forall s, __resolve_dtype__ D_None (PyStr s) = Ok (st_type ty_str)) /\
  (forall b, __resolve_dtype__ D_None (PyBytes b) = Ok (st_type ty_bytes)) /\
  (forall t, __resolve_dtype__ D_None (PyScalar t) = Ok (st_type t)) /\
  (forall first rest,
      __resolve_dtype__ D_None (PySeq (first :: rest))
      = __resolve_dtype__ D_None first) /\
  __resolve_dtype__ D_None (PySeq [])
  = Raise (ValueError "cannot determine type for empty data").
Proof.
  repeat split; intros; rewrite ?resolve_unset; reflexivity.
Qed.

End TypeResolverFacts.

(** ** The monad: how outcomes come about *)

Section MonadFacts.
Import IO Monad.

Lemma bind_ok {A B} (m : M A) (k : A -> M B) io a io1 :
  m io = (Ok a, io1) -> bind m k io = k a io1.
Proof. unfold bind. intros ->. reflexivity. Qed.

Lemma bind_ok_inv {A B} (m : M A) (k : A -> M B) io b io' :
  bind m k io = (Ok b, io') ->
  exists a io1, m io = (Ok a, io1) /\ k a io1 = (Ok b, io').
Proof.
  unfold bind. destruct (m io) as [[a | e |] io1]; intros H; try discriminate.
  exists a, io1. split; [reflexivity | exact H].
Qed.

Lemma for_each_cons {A} (x : A) l (body : A -> M unit) io :
  for_each (x :: l) body io = bind (body x) (fun _ => for_each l body) io.
Proof. reflexivity. Qed.

Lemma get_written_eq b io :
  get_written b io = (Ok (bool_decide (b ∈ _written_builders io)), io).
Proof. reflexivity. Qed.

Lemma get_written_true b io :
  b ∈ _written_builders io -> get_written b io = (Ok true, io).
Proof. intros H. rewrite get_written_eq, bool_decide_true by exact H. reflexivity. Qed.

End MonadFacts.

(** ** Dicts with insertion order *)

Section DictFacts.

Lemma dict_get_set_eq {V} (d : list (string * V)) k v :
  dict_get (dict_set d k v) k = Some v.
Proof.
  induction d as [| [k0 x] d IH]; simpl.
  - rewrite String.eqb_refl. reflexivity.
  - destruct (String.eqb k0 k) eqn:E; simpl; rewrite E; [reflexivity | exact IH].
Qed.

Lemma dict_get_set_ne {V} (d : list (string * V)) k k' v :
  k <> k' -> dict_get (dict_set d k v) k' = dict_get d k'.
Proof.
  intros Hne. induction d as [| [k0 x] d IH]; simpl.
  - destruct (String.eqb k k') eqn:E; [| reflexivity].
    apply String.eqb_eq in E. contradiction.
  - destruct (String.eqb k0 k) eqn:E; simpl.
    + apply String.eqb_eq in E. subst k0.
      destruct (String.eqb k k') eqn:E'; [| reflexivity].
      apply String.eqb_eq in E'. contradiction.
    + destruct (String.eqb k0 k'); [reflexivity | exact IH].
Qed.

(** Only a list can hold a dict among the items [for] goes through. *)
Lemma json_iter_dict (v : json) (items : list json) (d : list (string * json)) :
  json_iter v = Some items -> JDict d ∈ items -> v = JList items.
Proof.
  destruct v; cbn; try discriminate; intros [= <-] Hin; [| reflexivity |];
    apply list_elem_of_fmap in Hin as (x & Hx & _); discriminate.
Qed.

End DictFacts.

(** ** ReferenceResolver: reference records *)

Section ReferenceFacts.
Import TypeResolver Zarr IO Monad Builders.
Context {os : OsPath} {manager : BuildManager} {numpy : NumPy}.

(** [__get_ref] changes nothing but the list of warnings. *)
Lemma get_ref_state r es io :
  exists w, (__get_ref r es io).2 = with_warned (fun l => (l ++ w)%list) io.
Proof.
  destruct io as [src pth fl st wr q bl ob wn cl].
  unfold __get_ref, bind, ret, raise, get, warn, modify, with_warned.
  destruct r; simpl;
    try (match goal with
         | |- context [walk_to_root ?b] => destruct (walk_to_root b)
         end; simpl);
    solve [ exists []; rewrite app_nil_r; reflexivity
          | eexists; reflexivity ].
Qed.

(** What [__get_ref] returns depends on the IO object through
    [self.source] only. *)
Lemma get_ref_outcome r es io1 io2 :
  source io1 = source io2 -> (__get_ref r es io1).1 = (__get_ref r es io2).1.
Proof.
  intros Hs.
  unfold __get_ref, bind, ret, raise, get, warn, modify.
  destruct r; simpl; try reflexivity;
    match goal with
    | |- context [walk_to_root ?b] => destruct (walk_to_root b)
    end; simpl; rewrite ?Hs; reflexivity.
Qed.

(** C5. A reference record made while [export_source] is given has
    source ".", whatever file the target builder came from; the only
    call that makes no record is the one on a region reference, which
    is refused. *)
Theorem C5_export_source_makes_source_local
  (ref_object : ref_object) (export_source : string) (io : ZarrIO) :
  (exists r, (__get_ref ref_object (Some export_source) io).1 = Ok r
             /\ ref_source r = ".")
  \/ (exists target, ref_object = RO_RegionBuilder target
        /\ (__get_ref ref_object (Some export_source) io).1
           = Raise (NotImplementedError
                      "Region references are currently not supported by ZarrIO")).
Proof.
  unfold __get_ref, bind, ret, raise, get, warn, modify.
  destruct ref_object as [b | l b | b | b | c]; simpl;
    try (right; eexists; split; reflexivity);
    left;
    match goal with
    | |- context [walk_to_root ?b] => destruct (walk_to_root b)
    end; simpl; eexists; split; reflexivity.
Qed.

End ReferenceFacts.

Section ResolveFacts.
Import TypeResolver Zarr IO Monad Builders.
Context {os : OsPath} {manager : BuildManager} {numpy : NumPy}.



Lemma open_file_ok io location f attrs :
  stores io !! location = Some f ->
  zf_nodes f !! [] = Some (ZGroup attrs) ->
  __open_file_consolidated location io = (Ok (opened f location []), io).
Proof.
  intros Hf Hr. unfold __open_file_consolidated, bind, get, ret.
  rewrite Hf, Hr. reflexivity.
Qed.

Lemma node_at_opened io location f segs :
  stores io !! location = Some f ->
  node_at io (opened f location segs) = zf_nodes f !! segs.
Proof.
  intros Hf. unfold node_at, opened. cbn [z_location z_path].
  rewrite Hf. reflexivity.
Qed.

Lemma zarr_getitem_root io location f attrs p :
  stores io !! location = Some f ->
  zf_nodes f !! [] = Some (ZGroup attrs) ->
  zarr_getitem (opened f location []) p io =
    match normalize_storage_path p with
    | None => (Raise (ValueError "path containing '.' or '..' segment not allowed"), io)
    | Some segs =>
        match zf_nodes f !! segs with
        | Some _ => (Ok (opened f location segs), io)
        | None => (Raise (KeyError p), io)
        end
    end.
Proof.
  intros Hf Hr. unfold zarr_getitem, bind, get, ret, raise.
  rewrite (node_at_opened _ _ _ _ Hf), Hr.
  destruct (normalize_storage_path p) as [segs |]; [| reflexivity].
  change (z_path (opened f location [])) with (@nil string).
  rewrite app_nil_l.
  assert (Hn : forall b : bool,
             node_at io {| z_kind := z_kind (opened f location []);
                           z_location := z_location (opened f location []);
                           z_store_path := z_store_path (opened f location []);
                           z_path := if b then segs else segs |}
             = zf_nodes f !! segs).
  { intros b. destruct b; apply (node_at_opened _ _ _ _ Hf). }
  rewrite Hn. destruct (zf_nodes f !! segs); destruct (Path.startswith_sep p);
    reflexivity.
Qed.

(** C6. For a reference whose source resolves to a store that opens:
    with a non-empty path [resolve_ref] descends to it and returns the
    basename of the path with the node found there, or fails with the
    bad-link error when the store has no node at that path; with an
    empty or missing path it returns the root of the store under the
    name ROOT_NAME. *)
Theorem C6_resolve_ref_descends_or_fails
  (zarr_ref : list (string * json)) (io : ZarrIO) (src : string)
  (f : zfile) (attrs : list (string * json))
  (Hsrc : ref_get zarr_ref "source" = Some (JStr src))
  (Hopen : stores io !! resolve_location io src = Some f)
  (Hroot : zf_nodes f !! [] = Some (ZGroup attrs)) :
  (forall p, ref_get zarr_ref "path" = Some (JStr p) -> p <> "" ->
     resolve_ref zarr_ref io =
       match lookup_path f p with
       | Some segs =>
           (Ok (Path.basename p, opened f (resolve_location io src) segs), io)
       | None =>
           (Raise (ValueError ("Found bad link to object " ++ p ++ " in file "
                               ++ resolve_location io src)), io)
       end)
  /\ (ref_get zarr_ref "path" = None \/ ref_get zarr_ref "path" = Some (JStr "") ->
      resolve_ref zarr_ref io
      = (Ok (ROOT_NAME, opened f (resolve_location io src) []), io)).
Proof.
  split.
  - intros p Hp Hne.
    unfold resolve_ref. rewrite Hsrc, Hp.
    unfold bind at 1. unfold ret at 1. simpl py_str.
    unfold bind at 1. unfold get at 1.
    destruct (String.eqb p "") eqn:E; [apply String.eqb_eq in E; contradiction |].
    unfold bind at 1. unfold ret at 1.
    rewrite (bind_ok _ _ _ _ _ (open_file_ok _ _ _ _ Hopen Hroot)).
    unfold bind, reraise, ret.
    rewrite (zarr_getitem_root _ _ _ _ p Hopen Hroot).
    unfold lookup_path.
    destruct (normalize_storage_path p) as [segs |]; simpl; [| reflexivity].
    destruct (zf_nodes f !! segs); reflexivity.
  - intros Hp.
    unfold resolve_ref. rewrite Hsrc.
    unfold bind at 1. unfold ret at 1. simpl py_str.
    unfold bind at 1. unfold get at 1.
    destruct Hp as [Hp | Hp]; rewrite Hp; simpl.
    + unfold bind at 1. unfold ret at 1.
      rewrite (bind_ok _ _ _ _ _ (open_file_ok _ _ _ _ Hopen Hroot)).
      reflexivity.
    + unfold bind at 1. unfold ret at 1.
      rewrite (bind_ok _ _ _ _ _ (open_file_ok _ _ _ _ Hopen Hroot)).
      unfold bind, reraise, ret.
      rewrite (zarr_getitem_root _ _ _ _ "" Hopen Hroot).
      change (normalize_storage_path "") with (Some (@nil string)).
      cbn iota. rewrite Hroot. reflexivity.
Qed.

End ResolveFacts.

(** ** WriteEngine: builders that are already written *)

Section WrittenFacts.
Import TypeResolver Zarr IO Monad Builders.
Context {os : OsPath} {manager : BuildManager} {numpy : NumPy}.


Lemma write_link_written parent (builder : LinkBuilder) io :
  ident_of (l_info builder) ∈ _written_builders io ->
  write_link parent builder io = (Ok tt, io).
Proof.
  intros H. unfold write_link.
  rewrite (bind_ok _ _ _ _ _ (get_written_true _ _ H)). reflexivity.
Qed.

Lemma write_dataset_data_written parent (builder : DatasetBuilder)
  export_source data settings link_data exhaust_dci io :
  ident_of (d_info builder) ∈ _written_builders io ->
  write_dataset_data parent builder export_source data settings
    link_data exhaust_dci io
  = (Ok None, queue_ready exhaust_dci io).
Proof.
  intros H.
  assert (Hq : ident_of (d_info builder)
               ∈ _written_builders (queue_ready exhaust_dci io)).
  { destruct exhaust_dci; exact H. }
  assert (Hinit : (if exhaust_dci then init_dci_queue else ret tt) io
                  = (Ok tt, queue_ready exhaust_dci io)).
  { destruct exhaust_dci; reflexivity. }
  destruct data; cbn [write_dataset_data];
    rewrite (bind_ok _ _ _ _ _ Hinit);
    rewrite (bind_ok _ _ _ _ _ (get_written_true _ _ Hq)); reflexivity.
Qed.

Lemma write_dataset_written parent (builder : DatasetBuilder)
  link_data exhaust_dci export_source io :
  ident_of (d_info builder) ∈ _written_builders io ->
  write_dataset parent builder link_data exhaust_dci export_source io
  = (Ok None, queue_ready exhaust_dci io).
Proof.
  intros H. unfold write_dataset.
  destruct (d_data builder); apply write_dataset_data_written; exact H.
Qed.

Lemma queue_ready_frame exhaust_dci io :
  stores (queue_ready exhaust_dci io) = stores io
  /\ calls (queue_ready exhaust_dci io) = calls io
  /\ _written_builders (queue_ready exhaust_dci io) = _written_builders io.
Proof. destruct exhaust_dci; repeat split. Qed.

(** C10. [write_dataset] on a DatasetBuilder that is already marked
    written returns None and leaves every store, hence every node, as
    it was; it makes no call to the store. *)
Theorem C10_written_dataset_returns_none
  (parent : zarr_obj) (builder : DatasetBuilder)
  (link_data exhaust_dci : bool) (export_source : option string) (io : ZarrIO)
  (Hwritten : ident_of (d_info builder) ∈ _written_builders io) :
  let r := write_dataset parent builder link_data exhaust_dci export_source io in
  r.1 = Ok None /\ stores r.2 = stores io /\ calls r.2 = calls io.
Proof.
  cbn zeta. rewrite (write_dataset_written _ _ _ _ _ _ Hwritten).
  destruct (queue_ready_frame exhaust_dci io) as (Hs & Hc & _).
  repeat split; assumption.
Qed.


Lemma bind_ext {A B} (m : M A) (k k' : A -> M B) io :
  (forall a io1, k a io1 = k' a io1) -> bind m k io = bind m k' io.
Proof. intros H. unfold bind. destruct (m io) as [[a | e |] io1]; [apply H | |]; reflexivity. Qed.

Lemma bind_first {A B} (m m' : M A) (k : A -> M B) io :
  m io = m' io -> bind m k io = bind m' k io.
Proof. intros H. unfold bind. rewrite H. reflexivity. Qed.

(** The loop of [write_group] over the sub groups, as a loop of the
    monad. *)
Lemma write_group_subgroups (group : zarr_obj) (link_data exhaust_dci : bool)
  (groups : list (string * GroupBuilder)) (io : ZarrIO) :
  (fix subgroups (l : list (string * GroupBuilder)) : M unit :=
     match l with
     | [] => ret tt
     | (_, sub_builder) :: l' =>
         write_group group sub_builder link_data exhaust_dci None ;;;
         subgroups l'
     end) groups io
  = for_each groups (fun sub =>
      write_group group sub.2 link_data exhaust_dci None ;;; ret tt) io.
Proof.
  revert io. induction groups as [| [n sub] groups IH]; intros io; [reflexivity |].
  cbn [for_each snd]. unfold bind at 1 3 4.
  destruct (write_group group sub link_data exhaust_dci None io) as [[g | e |] io1];
    [apply IH | reflexivity | reflexivity].
Qed.

(** C1, as the code has it.  Writing a link or a dataset that is
    already marked written is a no-op: [write_link] changes nothing
    (no entry is appended to 'zarr_link'), [write_dataset] returns
    None, makes no call to the store and changes no node.  Writing a
    group that is already written only skips its creation: the node is
    looked up instead of required, and the rest of [write_group] runs
    as for a new group: its sub groups, datasets and links are
    visited again and its attributes are assigned again. *)
Theorem C1_written_links_and_datasets_are_skipped :
  (forall parent (builder : LinkBuilder) io,
      ident_of (l_info builder) ∈ _written_builders io ->
      write_link parent builder io = (Ok tt, io))
  /\ (forall parent (builder : DatasetBuilder) link_data exhaust_dci export_source io,
      ident_of (d_info builder) ∈ _written_builders io ->
      let r := write_dataset parent builder link_data exhaust_dci export_source io in
      r.1 = Ok None /\ stores r.2 = stores io /\ calls r.2 = calls io
      /\ _written_builders r.2 = _written_builders io)
  /\ (forall parent (builder : GroupBuilder) link_data exhaust_dci export_source io,
      ident_of (g_info builder) ∈ _written_builders io ->
      write_group parent builder link_data exhaust_dci export_source io
      = (let* group := zarr_item parent (b_name (g_info builder)) in
         for_each (g_groups builder) (fun sub =>
           write_group group sub.2 link_data exhaust_dci None ;;; ret tt) ;;;
         for_each (g_datasets builder) (fun sub =>
           write_dataset group sub.2 link_data exhaust_dci export_source ;;; ret tt) ;;;
         for_each (g_links builder) (fun sub => write_link group sub.2) ;;;
         write_attributes group (g_attributes builder) None ;;;
         set_written (ident_of (g_info builder)) ;;;
         ret group) io).
Proof.
  split; [| split].
  - intros. apply write_link_written. assumption.
  - intros parent builder link_data exhaust_dci export_source io H. cbn zeta.
    rewrite (write_dataset_written _ _ _ _ _ _ H).
    destruct (queue_ready_frame exhaust_dci io) as (Hs & Hc & Hw).
    repeat split; assumption.
  - intros parent [inf attrs groups datasets links] link_data exhaust_dci
      export_source io H.
    cbn [write_group g_info g_attributes g_groups g_datasets g_links].
    rewrite (bind_ok _ _ _ _ _ (get_written_true _ _ H)).
    apply bind_ext. intros group io1.
    apply bind_first, write_group_subgroups.
Qed.

(** [write_builder] never looks at the links of the root builder:
    writing a root builder gives the same result, and the same store,
    as writing it with its links removed. *)
Lemma write_builder_ignores_links
  (info : BuilderInfo) (attributes : list (string * attr_value))
  (groups : list (string * GroupBuilder))
  (datasets : list (string * DatasetBuilder))
  (links : list (string * LinkBuilder))
  (link_data exhaust_dci : bool) (export_source : option string)
  (consolidate : bool) (io : ZarrIO) :
  write_builder (mkGroup info attributes groups datasets links)
    link_data exhaust_dci export_source consolidate io
  = write_builder (mkGroup info attributes groups datasets [])
      link_data exhaust_dci export_source consolidate io.
Proof. reflexivity. Qed.

End WrittenFacts.

(** ** WriteEngine: attributes *)

Section AttributeFacts.
Import TypeResolver Zarr IO Monad Builders.
Context {os : OsPath} {manager : BuildManager} {numpy : NumPy}.



Lemma node_attrs_set n a : node_attrs (set_node_attrs n a) = a.
Proof. destruct n; reflexivity. Qed.

Lemma zarr_attrs_set_ok obj k v io io' :
  zarr_attrs_set obj k v io = (Ok tt, io') ->
  source io' = source io
  /\ attr_at io' obj k = Some v
  /\ (forall k', k <> k' -> attr_at io' obj k' = attr_at io obj k').
Proof.
  unfold zarr_attrs_set, bind, get, called, modify, put_node, raise, ret.
  destruct (node_at io obj) as [n |] eqn:Hn; [| discriminate].
  intros H. injection H as <-.
  unfold attr_at. rewrite Hn.
  unfold node_at in *. cbn [stores with_stores with_calls].
  destruct (stores io !! z_location obj) as [f |] eqn:Hf; [| discriminate].
  cbn in Hn. rewrite !lookup_insert_eq. cbn.
  rewrite lookup_insert_eq. cbn. rewrite node_attrs_set.
  split; [reflexivity | split].
  - apply dict_get_set_eq.
  - intros k' Hne. apply dict_get_set_ne. exact Hne.
Qed.

Lemma attribute_ref_state r es io :
  source (attribute_ref r es io).2 = source io
  /\ forall obj, node_at (attribute_ref r es io).2 obj = node_at io obj.
Proof.
  assert (G : forall ro, source (__get_ref ro es io).2 = source io
              /\ forall obj, node_at (__get_ref ro es io).2 obj = node_at io obj).
  { intros ro. destruct (get_ref_state ro es io) as [w ->]. split; reflexivity. }
  unfold attribute_ref. destruct r; try apply G.
  destruct (c_builder c); [apply G | split; reflexivity].
Qed.

Lemma attribute_ref_outcome r es io1 io2 :
  source io1 = source io2 ->
  (attribute_ref r es io1).1 = (attribute_ref r es io2).1.
Proof.
  intros Hs. unfold attribute_ref.
  destruct r; try (apply get_ref_outcome; exact Hs).
  destruct (c_builder c); [apply get_ref_outcome; exact Hs | reflexivity].
Qed.

Lemma write_attribute_ok obj es k v io io' :
  write_attribute obj es k v io = (Ok tt, io') ->
  source io' = source io
  /\ (forall k', k <> k' -> attr_at io' obj k' = attr_at io obj k')
  /\ (forall r, v = AV_reference r ->
        exists ref, (attribute_ref r es io).1 = Ok ref
                    /\ attr_at io' obj k = Some (stored_reference "object" ref)).
Proof.
  intros H.
  assert (Plain : forall j, zarr_attrs_set obj k j io = (Ok tt, io') ->
            source io' = source io
            /\ (forall k', k <> k' -> attr_at io' obj k' = attr_at io obj k')).
  { intros j Hj. destruct (zarr_attrs_set_ok _ _ _ _ _ Hj) as (Hs & _ & Ho).
    split; assumption. }
  destruct v as [items | items | r | repr | i]; cbn [write_attribute] in H.
  - destruct (items_json items);
      [| destruct (items_json (map convert_item items)); [| discriminate]];
      destruct (Plain _ H); repeat split; try assumption; intros; discriminate.
  - destruct (items_json (tolist items));
      [| destruct (items_json (map convert_item items)); [| discriminate]];
      destruct (Plain _ H); repeat split; try assumption; intros; discriminate.
  - apply bind_ok_inv in H as (ref & io1 & Hr & Hset).
    destruct (attribute_ref_state r es io) as (Hs1 & Hn1). rewrite Hr in Hs1, Hn1.
    cbn in Hs1, Hn1.
    destruct (zarr_attrs_set_ok _ _ _ _ _ Hset) as (Hs & Hk & Ho).
    split; [congruence | split].
    + intros k' Hne. rewrite (Ho k' Hne). unfold attr_at. rewrite Hn1. reflexivity.
    + intros r' [= <-]. exists ref. rewrite Hr. split; [reflexivity | exact Hk].
  - discriminate.
  - destruct i; cbn in H; try discriminate;
      destruct (Plain _ H); repeat split; try assumption; intros; discriminate.
Qed.

Lemma write_attributes_frame obj es attributes : forall io io',
  write_attributes obj attributes es io = (Ok tt, io') ->
  source io' = source io
  /\ (forall k, k ∉ map fst attributes -> attr_at io' obj k = attr_at io obj k).
Proof.
  unfold write_attributes.
  induction attributes as [| [k v] rest IH]; intros io io' H.
  - injection H as <-. split; reflexivity.
  - rewrite for_each_cons in H. apply bind_ok_inv in H as ([] & io1 & Hw & Hrest).
    cbn in Hw.
    destruct (write_attribute_ok _ _ _ _ _ _ Hw) as (Hs & Ho & _).
    destruct (IH _ _ Hrest) as (Hs' & Ho').
    split; [congruence |].
    intros k' Hk'. cbn in Hk'. apply not_elem_of_cons in Hk' as [Hne Hk'].
    rewrite (Ho' _ Hk'). apply Ho. congruence.
Qed.

(** C4, as the code has it.  After [write_attributes] has run, every
    attribute whose value is a reference is stored on the node as the
    dict [{'zarr_dtype': 'object', 'value': ref}], [ref] being the
    reference record [__get_ref] makes for the value. *)
Theorem C4_reference_attributes_are_tagged_object
  (obj : zarr_obj) (attributes : list (string * attr_value))
  (export_source : option string) (key : string) (r : ref_object)
  (io io' : ZarrIO)
  (Hkeys : NoDup (map fst attributes))
  (Hin : (key, AV_reference r) ∈ attributes)
  (Hrun : write_attributes obj attributes export_source io = (Ok tt, io')) :
  exists ref, (attribute_ref r export_source io).1 = Ok ref
              /\ attr_at io' obj key = Some (stored_reference "object" ref).
Proof.
  revert io Hrun. unfold write_attributes.
  induction attributes as [| [k v] rest IH]; intros io Hrun.
  - apply elem_of_nil in Hin. contradiction.
  - rewrite for_each_cons in Hrun.
    apply bind_ok_inv in Hrun as ([] & io1 & Hw & Hrest). cbn in Hw.
    cbn in Hkeys. apply NoDup_cons in Hkeys as [Hfresh Hkeys].
    destruct (write_attribute_ok _ _ _ _ _ _ Hw) as (Hs & Ho & Href).
    apply elem_of_cons in Hin as [[= <- <-] | Hin].
    + destruct (Href r eq_refl) as (ref & Hr & Hk).
      exists ref. split; [exact Hr |].
      destruct (write_attributes_frame _ _ _ _ _ Hrest) as (_ & Hframe).
      rewrite (Hframe _ Hfresh). exact Hk.
    + destruct (IH Hkeys Hin io1 Hrest) as (ref & Hr & Hk).
      exists ref. split; [| exact Hk].
      rewrite <- Hr. apply attribute_ref_outcome. congruence.
Qed.

End AttributeFacts.

(** ** Invariants of the IO object across calls *)

Section Invariants.
Import TypeResolver Zarr IO Monad Builders.


Lemma pure_ret {A} (a : A) : pure_ (ret a).
Proof. intros io. reflexivity. Qed.

Lemma pure_raise {A} e : pure_ (@raise A e).
Proof. intros io. reflexivity. Qed.

Lemma pure_get : pure_ get.
Proof. intros io. reflexivity. Qed.

Lemma pure_bind {A B} (m : M A) (k : A -> M B) :
  pure_ m -> (forall a, pure_ (k a)) -> pure_ (bind m k).
Proof.
  intros Hm Hk io. unfold bind. specialize (Hm io).
  destruct (m io) as [[a | e |] io1]; cbn in *; subst io1; try reflexivity.
  apply Hk.
Qed.

Lemma pure_reraise {A} (m : M A) e : pure_ m -> pure_ (reraise m e).
Proof.
  intros Hm io. unfold reraise. specialize (Hm io).
  destruct (m io) as [[a | e' |] io1]; exact Hm.
Qed.


Variable I : ZarrIO -> Prop.

Lemma keeps_ret {A} (Q : A -> Prop) a : Q a -> keeps I Q (ret a).
Proof. intros HQ io HI. split; [exact HI | intros a' [= <-]; exact HQ]. Qed.

Lemma keeps_raise {A} (Q : A -> Prop) e : keeps I Q (raise e).
Proof. intros io HI. split; [exact HI | discriminate]. Qed.

Lemma keeps_too_deep {A} (Q : A -> Prop) : keeps I Q too_deep.
Proof. intros io HI. split; [exact HI | discriminate]. Qed.

Lemma keeps_pure {A} (Q : A -> Prop) (m : M A) :
  pure_ m -> (forall io a, (m io).1 = Ok a -> Q a) -> keeps I Q m.
Proof.
  intros Hp HQ io HI. rewrite Hp. split; [exact HI | apply HQ].
Qed.

Lemma keeps_get : keeps I (fun _ => True) get.
Proof. apply keeps_pure; [apply pure_get | trivial]. Qed.

Lemma keeps_modify f :
  (forall io, I io -> I (f io)) -> keeps I (fun _ => True) (modify f).
Proof. intros Hf io HI. split; [apply Hf, HI | trivial]. Qed.

Lemma keeps_bind {A B} (Q1 : A -> Prop) (Q2 : B -> Prop) (m : M A) (k : A -> M B) :
  keeps I Q1 m -> (forall a, Q1 a -> keeps I Q2 (k a)) -> keeps I Q2 (bind m k).
Proof.
  intros Hm Hk io HI. unfold bind. destruct (Hm io HI) as [HI1 HQ1].
  destruct (m io) as [[a | e |] io1]; cbn in *;
    try (split; [exact HI1 | discriminate]).
  apply Hk; [apply HQ1; reflexivity | exact HI1].
Qed.

Lemma keeps_weaken {A} (Q Q' : A -> Prop) (m : M A) :
  keeps I Q m -> (forall a, Q a -> Q' a) -> keeps I Q' m.
Proof.
  intros Hm HQ io HI. destruct (Hm io HI) as [HI1 HQ1].
  split; [exact HI1 | intros a Ha; apply HQ, HQ1, Ha].
Qed.

Lemma keeps_for_each {A} (l : list A) (body : A -> M unit) :
  (forall x, keeps I (fun _ => True) (body x)) ->
  keeps I (fun _ => True) (for_each l body).
Proof.
  intros Hb. induction l as [| x l IH]; cbn [for_each].
  - apply keeps_ret. trivial.
  - eapply keeps_bind; [apply Hb | intros _ _; exact IH].
Qed.

Lemma keeps_fold_m {A S} (Q : S -> Prop) (body : S -> A -> M S) (l : list A) :
  (forall acc x, Q acc -> keeps I Q (body acc x)) ->
  forall acc, Q acc -> keeps I Q (fold_m body l acc).
Proof.
  intros Hb. induction l as [| x l IH]; intros acc Hacc; cbn [fold_m].
  - apply keeps_ret. exact Hacc.
  - eapply keeps_bind; [apply Hb, Hacc | intros acc' Hacc'; apply IH, Hacc'].
Qed.

End Invariants.

(** ** ReadEngine: what reading keeps *)

Section ReadInvariants.
Import TypeResolver Zarr IO Monad Builders.
Context {os : OsPath} {manager : BuildManager} {numpy : NumPy}.

Ltac pure_tac :=
  repeat first
    [ apply pure_ret | apply pure_raise | apply pure_get
    | apply pure_reraise
    | apply pure_bind; [| intros ?]
    | match goal with
      | |- pure_ (match ?x with _ => _ end) => destruct x
      end ].

Lemma open_file_pure store : pure_ (__open_file_consolidated store).
Proof. unfold __open_file_consolidated. pure_tac. Qed.

Lemma zarr_getitem_pure z item : pure_ (zarr_getitem z item).
Proof. unfold zarr_getitem. pure_tac. Qed.

Lemma resolve_ref_pure zarr_ref : pure_ (resolve_ref zarr_ref).
Proof.
  unfold resolve_ref.
  repeat first
    [ apply open_file_pure | apply zarr_getitem_pure
    | apply pure_ret | apply pure_raise | apply pure_get
    | apply pure_reraise
    | apply pure_bind; [| intros ?]
    | match goal with
      | |- pure_ (match ?x with _ => _ end) => destruct x
      end ].
Qed.


Lemma reserved_free_nil : reserved_free [].
Proof. intros k _. reflexivity. Qed.

Lemma reserved_free_set attributes k v :
  reserved_free attributes -> k ∉ __reserve_attribute ->
  reserved_free (dict_set attributes k v).
Proof.
  intros H Hk k' Hk'. unfold dict_get, dict_set.
  rewrite dict_get_set_ne; [apply H, Hk' |].
  intros ->. contradiction.
Qed.

Variable I : ZarrIO -> Prop.
Hypothesis I_warned : forall msg io,
  I io -> I (with_warned (fun w => (w ++ [msg])%list) io).
Hypothesis I_written : forall f io, I io -> I (with_written f io).
Hypothesis I_built : forall k b io, I io ->
  I (with_built (fun m => match m !! k with
                          | Some _ => m
                          | None => <[ k := b ]> m
                          end) io).
Hypothesis I_construct : forall b io,
  reserved_free (built_attributes b) -> I io ->
  I (with_objects (fun l => (l ++ [b])%list) io).
Hypothesis I_update : forall id f io,
  (forall b, built_attributes (f b) = built_attributes b) -> I io ->
  I (with_objects (alter f id) io).

Local Abbreviation any := (fun _ => True).

Lemma keeps_ret_any {A} (a : A) : keeps I any (ret a).
Proof. apply keeps_ret. trivial. Qed.

Lemma keeps_warn msg : keeps I any (warn msg).
Proof. apply keeps_modify. intros. apply I_warned. assumption. Qed.

Lemma keeps_set_written b : keeps I any (set_written b).
Proof. apply keeps_modify. intros. apply I_written. assumption. Qed.

Lemma keeps_set_built z b : keeps I any (__set_built z b).
Proof. apply keeps_modify. intros. apply I_built. assumption. Qed.

Lemma keeps_get_built z : keeps I any (__get_built z).
Proof.
  apply keeps_pure; [| trivial]. unfold __get_built.
  apply pure_bind; [apply pure_get | intros; apply pure_ret].
Qed.

Lemma keeps_resolve_ref r : keeps I any (resolve_ref r).
Proof. apply keeps_pure; [apply resolve_ref_pure | trivial]. Qed.

Lemma keeps_construct b :
  reserved_free (built_attributes b) -> keeps I any (construct b).
Proof.
  intros Hb. unfold construct.
  eapply keeps_bind; [apply keeps_get | intros io _].
  eapply keeps_bind; [| intros _ _; apply keeps_ret_any].
  apply keeps_modify. intros. apply I_construct; assumption.
Qed.

Lemma keeps_update id f :
  (forall b, built_attributes (f b) = built_attributes b) ->
  keeps I any (update id f).
Proof. intros Hf. apply keeps_modify. intros. apply I_update; assumption. Qed.

Lemma set_location_attributes loc b :
  built_attributes (set_location loc b) = built_attributes b.
Proof. destruct b; reflexivity. Qed.

Lemma set_group_attributes sub b :
  built_attributes (set_group sub b) = built_attributes b.
Proof. destruct b; reflexivity. Qed.

Lemma set_dataset_attributes sub b :
  built_attributes (set_dataset sub b) = built_attributes b.
Proof. destruct b; reflexivity. Qed.

Lemma set_link_attributes sub b :
  built_attributes (set_link sub b) = built_attributes b.
Proof. destruct b; reflexivity. Qed.

Lemma keeps_read_data_for z arr dtype : keeps I any (read_data_for z arr dtype).
Proof.
  apply keeps_pure; [| trivial]. unfold read_data_for.
  assert (Hm : forall (f : json -> M json) l, (forall x, pure_ (f x)) -> pure_ (map_m f l)).
  { intros f l Hf. induction l as [| x l IH]; cbn [map_m]; [apply pure_ret |].
    apply pure_bind; [apply Hf | intros y].
    apply pure_bind; [apply IH | intros ys; apply pure_ret]. }
  repeat first
    [ apply pure_ret | apply pure_raise
    | apply pure_bind; [apply Hm; intros ? | intros ?]
    | match goal with
      | |- pure_ (match ?x with _ => _ end) => destruct x
      | |- pure_ (if ?x then _ else _) => destruct x
      end ].
Qed.

Ltac keeps_step :=
  lazymatch goal with
  | |- keeps _ _ (match ?x with _ => _ end) => destruct x
  | |- keeps _ _ (bind _ _) => eapply keeps_bind; [| intros ? ?]
  | |- keeps _ _ (ret _) => apply keeps_ret_any
  | |- keeps _ _ (raise _) => apply keeps_raise
  | |- keeps _ _ too_deep => apply keeps_too_deep
  | |- keeps _ _ get => apply keeps_get
  | |- keeps _ _ (warn _) => apply keeps_warn
  | |- keeps _ _ (set_written _) => apply keeps_set_written
  | |- keeps _ _ (__set_built _ _) => apply keeps_set_built
  | |- keeps _ _ (__get_built _) => apply keeps_get_built
  | |- keeps _ _ (resolve_ref _) => apply keeps_resolve_ref
  | |- keeps _ _ (read_data_for _ _ _) => apply keeps_read_data_for
  | |- keeps _ _ (update _ _) =>
      apply keeps_update;
      first [ apply set_location_attributes | apply set_group_attributes
            | apply set_dataset_attributes | apply set_link_attributes ]
  | |- keeps _ _ (construct _) =>
      apply keeps_construct; first [ assumption | apply reserved_free_nil ]
  | |- keeps _ _ (for_each _ _) => apply keeps_for_each; intros ?; cbv beta
  end.

(** One step on a call of the read engine, by the induction hypothesis
    found among the assumptions, or on anything else. *)
Ltac read_step :=
  lazymatch goal with
  | |- keeps _ _ (__read_group _ _ _) =>
      match goal with H : forall z name, keeps _ _ (__read_group _ z name) |- _ =>
        apply H end
  | |- keeps _ _ (__read_links _ _ _) =>
      match goal with H : forall z p, keeps _ _ (__read_links _ z p) |- _ =>
        apply H end
  | |- keeps _ _ (__read_dataset _ _ _) =>
      match goal with H : forall z name, keeps _ _ (__read_dataset _ z name) |- _ =>
        apply H end
  | |- keeps _ _ (__read_attrs _ _) =>
      match goal with H : forall z, keeps _ _ (__read_attrs _ z) |- _ =>
        apply H end
  | |- _ => keeps_step
  end.

(** Every method of the read engine keeps the invariant, and the
    attributes [__read_attrs] returns hold no reserved key. *)
Theorem read_keeps : forall depth,
  (forall z name, keeps I any (__read_group depth z name))
  /\ (forall z parent, keeps I any (__read_links depth z parent))
  /\ (forall z name, keeps I any (__read_dataset depth z name))
  /\ (forall z, keeps I reserved_free (__read_attrs depth z)).
Proof.
  induction depth as [| depth (IHg & IHl & IHd & IHa)].
  - split; [| split; [| split]]; intros; apply keeps_too_deep.
  - split; [| split; [| split]].
    + intros z name. cbn [__read_group]. repeat read_step.
    + intros z parent. cbn [__read_links]. repeat read_step.
    + intros z name. cbn [__read_dataset]. repeat read_step.
    + intros z. cbn [__read_attrs].
      eapply keeps_bind; [apply keeps_get | intros io _].
      apply keeps_fold_m; [| apply reserved_free_nil].
      intros acc [k v] Hacc.
      destruct (bool_decide (k ∈ __reserve_attribute)) eqn:Hk;
        [apply keeps_ret; exact Hacc |].
      apply bool_decide_eq_false in Hk.
      assert (Hset : forall x, keeps I reserved_free (ret (dict_set acc k x))).
      { intros x. apply keeps_ret. apply reserved_free_set; assumption. }
      repeat first [ apply Hset | read_step ].
Qed.

End ReadInvariants.

(** ** ReadEngine: the cache and the builders it hands out *)

Section ReadFacts.
Import TypeResolver Zarr IO Monad Builders.
Context {os : OsPath} {manager : BuildManager} {numpy : NumPy}.


Lemma heap_ok_read depth :
  (forall z name, keeps heap_ok (fun _ => True) (__read_group depth z name))
  /\ (forall z parent, keeps heap_ok (fun _ => True) (__read_links depth z parent))
  /\ (forall z name, keeps heap_ok (fun _ => True) (__read_dataset depth z name))
  /\ (forall z, keeps heap_ok reserved_free (__read_attrs depth z)).
Proof.
  apply read_keeps; unfold heap_ok; try (intros; assumption).
  - intros b io Hb H. cbn. apply Forall_app. split; [exact H |].
    apply Forall_singleton. exact Hb.
  - intros id f io Hf H. cbn. apply Forall_alter; [exact H |].
    intros b _ Hb. rewrite Hf. exact Hb.
Qed.

(** C9. Reading never puts a reserved key among the attributes of a
    builder: [__read_attrs] returns a dict without 'zarr_dtype' and
    'zarr_link', and after [__read_group] or [__read_dataset] every
    builder object constructed so far carries such a dict. *)
Theorem C9_read_attributes_exclude_reserved_keys
  (depth : nat) (zarr_obj : zarr_obj) (name : option string) (io : ZarrIO)
  (Hheap : heap_ok io) :
  (forall attributes, (__read_attrs depth zarr_obj io).1 = Ok attributes ->
     dict_get attributes "zarr_dtype" = None
     /\ dict_get attributes "zarr_link" = None)
  /\ (forall b, b ∈ objects (__read_group depth zarr_obj name io).2 ->
        dict_get (built_attributes b) "zarr_dtype" = None
        /\ dict_get (built_attributes b) "zarr_link" = None)
  /\ (forall b, b ∈ objects (__read_dataset depth zarr_obj name io).2 ->
        dict_get (built_attributes b) "zarr_dtype" = None
        /\ dict_get (built_attributes b) "zarr_link" = None).
Proof.
  assert (R : forall a, reserved_free a ->
              dict_get a "zarr_dtype" = None /\ dict_get a "zarr_link" = None).
  { intros a Ha. split; apply Ha; unfold __reserve_attribute; set_solver. }
  destruct (heap_ok_read depth) as (Hg & _ & Hd & Ha).
  split; [| split].
  - intros attributes Hr. apply R. exact (proj2 (Ha zarr_obj io Hheap) _ Hr).
  - intros b Hb. apply R.
    pose proof (proj1 (Hg zarr_obj name io Hheap)) as H.
    unfold heap_ok in H. rewrite Forall_forall in H. apply H, Hb.
  - intros b Hb. apply R.
    pose proof (proj1 (Hd zarr_obj name io Hheap)) as H.
    unfold heap_ok in H. rewrite Forall_forall in H. apply H, Hb.
Qed.

(** The cache of built builders only grows. *)
Lemma built_grows depth (c0 : gmap string nat) :
  let I := fun io => c0 ⊆ __built io in
  (forall z name, keeps I (fun _ => True) (__read_group depth z name))
  /\ (forall z parent, keeps I (fun _ => True) (__read_links depth z parent))
  /\ (forall z name, keeps I (fun _ => True) (__read_dataset depth z name))
  /\ (forall z, keeps I reserved_free (__read_attrs depth z)).
Proof.
  apply read_keeps; try (intros; assumption).
  intros k b io H. cbn.
  destruct (__built io !! k) eqn:E; [exact H |].
  etrans; [exact H |]. apply insert_subseteq. exact E.
Qed.

Lemma read_group_built_grows depth z name io :
  __built io ⊆ __built (__read_group depth z name io).2.
Proof.
  destruct (built_grows depth (__built io)) as (Hg & _).
  apply (Hg z name io). reflexivity.
Qed.

Lemma read_dataset_built_grows depth z name io :
  __built io ⊆ __built (__read_dataset depth z name io).2.
Proof.
  destruct (built_grows depth (__built io)) as (_ & _ & Hd & _).
  apply (Hd z name io). reflexivity.
Qed.

(** A hit in the cache: the cached builder is returned and nothing
    else happens. *)
Lemma get_built_eq z io :
  __get_built z io = (Ok (__built io !! built_key z), io).
Proof. reflexivity. Qed.

Lemma read_group_hit depth z name io c :
  __built io !! built_key z = Some c ->
  __read_group (S depth) z name io = (Ok c, io).
Proof.
  intros H. cbn [__read_group].
  rewrite (bind_ok _ _ _ _ _ (get_built_eq z io)), H. reflexivity.
Qed.

Lemma read_dataset_hit depth z name io c :
  __built io !! built_key z = Some c ->
  __read_dataset (S depth) z name io = (Ok c, io).
Proof.
  intros H. cbn [__read_dataset].
  rewrite (bind_ok _ _ _ _ _ (get_built_eq z io)), H. reflexivity.
Qed.

Lemma set_built_registers z r io :
  is_Some (__built (__set_built z r io).2 !! built_key z).
Proof.
  unfold __set_built, modify. cbn.
  destruct (__built io !! built_key z) eqn:E.
  - rewrite E. eauto.
  - rewrite lookup_insert_eq. eauto.
Qed.

Ltac inv_bind H :=
  repeat (apply bind_ok_inv in H;
          let a := fresh "a" in
          let io := fresh "io" in
          let Hm := fresh "Hm" in
          destruct H as (a & io & Hm & H); cbv beta in H).

(** A call that returns has registered a builder for the node. *)
Lemma read_group_registers depth z name io r io' :
  __read_group depth z name io = (Ok r, io') ->
  is_Some (__built io' !! built_key z).
Proof.
  destruct depth as [| depth]; [discriminate |].
  cbn [__read_group]. rewrite (bind_ok _ _ _ _ _ (get_built_eq z io)).
  destruct (__built io !! built_key z) as [c |] eqn:E.
  - intros [= <- <-]. rewrite E. eauto.
  - intros H. inv_bind H. injection H as <- <-.
    match goal with
    | Hs : __set_built z _ ?i = (Ok _, _) |- _ =>
        pose proof (set_built_registers z a1 i) as R; rewrite Hs in R; exact R
    end.
Qed.

Lemma read_dataset_registers depth z name io r io' :
  __read_dataset depth z name io = (Ok r, io') ->
  is_Some (__built io' !! built_key z).
Proof.
  destruct depth as [| depth]; [discriminate |].
  cbn [__read_dataset]. rewrite (bind_ok _ _ _ _ _ (get_built_eq z io)).
  destruct (__built io !! built_key z) as [c |] eqn:E.
  - intros [= <- <-]. rewrite E. eauto.
  - rewrite (bind_ok _ _ _ _ _ (eq_refl : get io = (Ok io, io))).
    destruct (node_at io z) as [[attrs | attrs arr] |];
      [destruct (dict_has attrs "zarr_dtype"); discriminate | | discriminate].
    intros H. inv_bind H. injection H as <- <-.
    match goal with
    | Hs : __set_built z ?b ?i = (Ok _, _) |- _ =>
        pose proof (set_built_registers z b i) as R; rewrite Hs in R; exact R
    end.
Qed.

(** *** Reads that do not come back to a node in progress *)

(** [resolve_ref] gives the same answer in every state of a session. *)
Lemma agree_ret {A} (a : A) : agree (ret a) (ret a).
Proof. intros io io' H. split; [reflexivity | exact H]. Qed.

Lemma agree_raise {A} e : agree (@raise A e) (raise e).
Proof. intros io io' H. split; [reflexivity | exact H]. Qed.

Lemma agree_bind {A B} (m m' : M A) (k k' : A -> M B) :
  agree m m' -> (forall a, agree (k a) (k' a)) -> agree (bind m k) (bind m' k').
Proof.
  intros Hm Hk io io' H. unfold bind. destruct (Hm io io' H) as [Ho Hw].
  destruct (m io) as [[a | e |] io1], (m' io') as [[a' | e' |] io1'];
    cbn in *; try discriminate.
  - injection Ho as <-. apply Hk, Hw.
  - injection Ho as <-. split; [reflexivity | exact Hw].
  - split; [reflexivity | exact Hw].
Qed.

Lemma agree_get_bind {B} (k k' : ZarrIO -> M B) :
  (forall a a', same_world a a' -> agree (k a) (k' a')) ->
  agree (bind get k) (bind get k').
Proof. intros Hk io io' H. unfold bind, get. apply Hk; exact H. Qed.

Lemma agree_reraise {A} (m m' : M A) e :
  agree m m' -> agree (reraise m e) (reraise m' e).
Proof.
  intros Hm io io' H. unfold reraise. destruct (Hm io io' H) as [Ho Hw].
  destruct (m io) as [[a | e1 |] io1], (m' io') as [[a' | e1' |] io1'];
    cbn in *; try discriminate; split; try assumption; reflexivity.
Qed.

Lemma same_world_node_at io io' z : same_world io io' -> node_at io z = node_at io' z.
Proof. intros (_ & _ & _ & Hs). unfold node_at. rewrite Hs. reflexivity. Qed.

Lemma same_world_location io io' src :
  same_world io io' -> resolve_location io src = resolve_location io' src.
Proof.
  intros (Hs & Hp & Hf & _). unfold resolve_location, is_remote.
  rewrite Hs, Hp, Hf. reflexivity.
Qed.

Ltac agree_tac :=
  repeat lazymatch goal with
    | |- agree (ret _) (ret _) => apply agree_ret
    | |- agree (raise _) (raise _) => apply agree_raise
    | |- agree (reraise _ _) (reraise _ _) => apply agree_reraise
    | |- agree (bind get _) (bind get _) => apply agree_get_bind; intros ? ? ?
    | |- agree (bind _ _) (bind _ _) => apply agree_bind; [| intros ?]
    | |- agree (match ?x with _ => _ end) (match ?x with _ => _ end) => destruct x
    end.

Lemma open_file_agree store :
  agree (__open_file_consolidated store) (__open_file_consolidated store).
Proof.
  unfold __open_file_consolidated. apply agree_get_bind. intros a a' H.
  destruct H as (_ & _ & _ & Hs). rewrite Hs. agree_tac.
Qed.

Lemma zarr_getitem_agree z item : agree (zarr_getitem z item) (zarr_getitem z item).
Proof.
  unfold zarr_getitem. apply agree_get_bind. intros a a' H.
  rewrite (same_world_node_at _ _ z H).
  destruct (node_at a' z) as [[] |]; agree_tac.
  match goal with |- context [node_at a ?t] => rewrite (same_world_node_at _ _ t H) end.
  agree_tac.
Qed.

Lemma resolve_ref_agree d : agree (resolve_ref d) (resolve_ref d).
Proof.
  unfold resolve_ref.
  apply agree_bind; [agree_tac | intros src].
  apply agree_get_bind. intros a a' H.
  rewrite (same_world_location _ _ src H).
  apply agree_bind; [agree_tac | intros nm].
  apply agree_bind; [apply open_file_agree | intros t].
  apply agree_bind; [| intros t'; apply agree_ret].
  destruct (ref_get d "path") as [p |]; [| apply agree_ret].
  apply agree_reraise. destruct p; try apply agree_raise. apply zarr_getitem_agree.
Qed.

Lemma resolve_ref_world d io io' :
  same_world io io' -> (resolve_ref d io).1 = (resolve_ref d io').1.
Proof. intros H. apply (resolve_ref_agree d io io' H). Qed.

(** Rules for invariants that use the element at hand. *)
Lemma keeps_get_I (I : ZarrIO -> Prop) : keeps I I get.
Proof. intros io HI. split; [exact HI | intros a [= <-]; exact HI]. Qed.

Lemma keeps_pure_I (I : ZarrIO -> Prop) {A} (m : M A) :
  pure_ m -> keeps I (fun a => exists io, I io /\ (m io).1 = Ok a) m.
Proof.
  intros Hp io HI. rewrite Hp. split; [exact HI |].
  intros a Ha. exists io. split; assumption.
Qed.

Lemma keeps_for_each_in (I : ZarrIO -> Prop) {A} (l : list A) (body : A -> M unit) :
  (forall x, x ∈ l -> keeps I (fun _ => True) (body x)) ->
  keeps I (fun _ => True) (for_each l body).
Proof.
  induction l as [| x l IH]; intros Hb; cbn [for_each].
  - apply keeps_ret. trivial.
  - eapply keeps_bind; [apply Hb; left | intros _ _; apply IH].
    intros y Hy. apply Hb. right. exact Hy.
Qed.

Lemma keeps_fold_m_in (I : ZarrIO -> Prop) {A S} (body : S -> A -> M S) (l : list A) :
  (forall acc x, x ∈ l -> keeps I (fun _ => True) (body acc x)) ->
  forall acc, keeps I (fun _ => True) (fold_m body l acc).
Proof.
  induction l as [| x l IH]; intros Hb acc; cbn [fold_m].
  - apply keeps_ret. trivial.
  - eapply keeps_bind; [apply Hb; left | intros acc' _; apply IH].
    intros a y Hy. apply Hb. right. exact Hy.
Qed.

(** The reads below a node add keys of lower rank only. *)
Section Below.
Variable rank : string -> nat.
Variable io0 : ZarrIO.
Variable z0 : zarr_obj.
Hypothesis Hacy : acyclic_from rank io0 z0.

Local Abbreviation Inv := (cache_below rank io0).
Local Abbreviation any := (fun _ => True).
Local Abbreviation reach := (rtc (reads_next io0) z0).

Lemma same_world_members io z g : same_world io0 io -> members io z g = members io0 z g.
Proof. intros (_ & _ & _ & Hs). unfold members. rewrite Hs. reflexivity. Qed.

Lemma same_world_attrs io z : same_world io0 io -> attrs_of io z = attrs_of io0 z.
Proof.
  intros H. unfold attrs_of. rewrite (same_world_node_at _ _ z H). reflexivity.
Qed.

Lemma step_child z name z' g io :
  reach z -> same_world io0 io -> (name, z') ∈ members io z g ->
  reach z' /\ rank (built_key z') < rank (built_key z).
Proof.
  intros Hr Hw Hin. rewrite (same_world_members _ _ _ Hw) in Hin.
  assert (Hn : reads_next io0 z z') by (left; eauto).
  split; [eapply rtc_r; eassumption | apply Hacy; assumption].
Qed.

Lemma step_link z links d name z' io io' :
  reach z -> same_world io0 io -> same_world io0 io' ->
  dict_get (attrs_of io z) "zarr_link" = Some (JList links) ->
  JDict d ∈ links -> (resolve_ref d io').1 = Ok (name, z') ->
  reach z' /\ rank (built_key z') < rank (built_key z).
Proof.
  intros Hr Hw Hw' Hl Hin Hres. rewrite (same_world_attrs _ _ Hw) in Hl.
  rewrite <- (resolve_ref_world d io0 io' Hw') in Hres.
  assert (Hn : reads_next io0 z z') by (right; left; eauto 10).
  split; [eapply rtc_r; eassumption | apply Hacy; assumption].
Qed.

Lemma step_attr z k d r name z' io io' :
  reach z -> same_world io0 io -> same_world io0 io' ->
  (k, JDict d) ∈ attrs_of io z -> dict_get d "value" = Some (JDict r) ->
  (resolve_ref r io').1 = Ok (name, z') ->
  reach z' /\ rank (built_key z') < rank (built_key z).
Proof.
  intros Hr Hw Hw' Hin Hv Hres. rewrite (same_world_attrs _ _ Hw) in Hin.
  rewrite <- (resolve_ref_world r io0 io' Hw') in Hres.
  assert (Hn : reads_next io0 z z') by (right; right; eauto 10).
  split; [eapply rtc_r; eassumption | apply Hacy; assumption].
Qed.

Lemma cache_below_modify c0 R (f : ZarrIO -> ZarrIO) :
  (forall io, source (f io) = source io /\ path (f io) = path io
              /\ file (f io) = file io /\ stores (f io) = stores io
              /\ __built (f io) = __built io) ->
  keeps (Inv c0 R) any (modify f).
Proof.
  intros Hf. apply keeps_modify. intros io [(Hs & Hp & Hfl & Hst) Hk].
  destruct (Hf io) as (E1 & E2 & E3 & E4 & E5).
  split; [repeat split; congruence |]. rewrite E5. exact Hk.
Qed.

Lemma cache_below_warn c0 R msg : keeps (Inv c0 R) any (warn msg).
Proof. apply cache_below_modify. intros io. repeat split. Qed.

Lemma cache_below_set_written c0 R b : keeps (Inv c0 R) any (set_written b).
Proof. apply cache_below_modify. intros io. repeat split. Qed.

Lemma cache_below_update c0 R id f : keeps (Inv c0 R) any (update id f).
Proof. apply cache_below_modify. intros io. repeat split. Qed.

Lemma cache_below_construct c0 R b : keeps (Inv c0 R) any (construct b).
Proof.
  unfold construct. eapply keeps_bind; [apply keeps_get | intros io _].
  eapply keeps_bind; [| intros _ _; apply keeps_ret; trivial].
  apply cache_below_modify. intros io'. repeat split.
Qed.

Lemma cache_below_get_built c0 R z : keeps (Inv c0 R) any (__get_built z).
Proof.
  apply keeps_pure; [| trivial]. unfold __get_built.
  apply pure_bind; [apply pure_get | intros; apply pure_ret].
Qed.

Lemma cache_below_set_built c0 R z b :
  rank (built_key z) < R -> keeps (Inv c0 R) any (__set_built z b).
Proof.
  intros Hr. apply keeps_modify. intros io [Hw Hk]. split; [exact Hw |].
  intros k. cbn. destruct (__built io !! built_key z) eqn:E; [apply Hk |].
  destruct (decide (k = built_key z)) as [-> | Hne].
  - intros _. right. exact Hr.
  - rewrite lookup_insert_ne by congruence. apply Hk.
Qed.

Lemma cache_below_weaken c0 R R' io : R <= R' -> Inv c0 R io -> Inv c0 R' io.
Proof.
  intros Hle [Hw Hk]. split; [exact Hw |].
  intros k Hs. destruct (Hk k Hs); [left; assumption | right; lia].
Qed.


Lemma read_data_for_pure z arr dtype : pure_ (read_data_for z arr dtype).
Proof.
  unfold read_data_for.
  assert (Hm : forall (f : json -> M json) l, (forall x, pure_ (f x)) -> pure_ (map_m f l)).
  { intros f l Hf. induction l as [| x l IH]; cbn [map_m]; [apply pure_ret |].
    apply pure_bind; [apply Hf | intros y].
    apply pure_bind; [apply IH | intros ys; apply pure_ret]. }
  repeat first
    [ apply pure_ret | apply pure_raise
    | apply pure_bind; [apply Hm; intros ? | intros ?]
    | match goal with
      | |- pure_ (match ?x with _ => _ end) => destruct x
      | |- pure_ (if ?x then _ else _) => destruct x
      end ].
Qed.

Ltac kb := eapply keeps_bind with (Q1 := fun _ => True).
Ltac kret := apply keeps_ret; trivial.

Lemma reads_stay_below d :
  (forall z n c0 R, reach z -> rank (built_key z) < R ->
     keeps (Inv c0 R) any (__read_group d z n))
  /\ (forall z p c0 R, reach z -> rank (built_key z) <= R ->
     keeps (Inv c0 R) any (__read_links d z p))
  /\ (forall z n c0 R, reach z -> rank (built_key z) < R ->
     keeps (Inv c0 R) any (__read_dataset d z n))
  /\ (forall z c0 R, reach z -> rank (built_key z) <= R ->
     keeps (Inv c0 R) any (__read_attrs d z)).
Proof.
  induction d as [| d (IHg & IHl & IHd & IHa)].
  - split; [| split; [| split]]; intros; apply keeps_too_deep.
  - split; [| split; [| split]].
    + intros z n c0 R Hr Hlt. cbn [__read_group].
      kb; [apply cache_below_get_built | intros cached _].
      destruct cached; [kret |].
      kb; [apply IHa; [exact Hr | lia] | intros attrs _].
      eapply keeps_bind; [apply keeps_get_I | intros io1 [Hw1 _]].
      kb; [apply cache_below_construct | intros r _].
      kb; [apply cache_below_update | intros _ _].
      kb; [| intros _ _].
      { apply keeps_for_each_in. intros [nm z'] Hin. cbn [fst snd].
        destruct (step_child _ _ _ _ _ Hr Hw1 Hin) as [Hr' Hlt'].
        kb; [apply IHg; [exact Hr' | lia] | intros; apply cache_below_update]. }
      kb; [| intros _ _].
      { apply keeps_for_each_in. intros [nm z'] Hin. cbn [fst snd].
        destruct (step_child _ _ _ _ _ Hr Hw1 Hin) as [Hr' Hlt'].
        kb; [apply IHd; [exact Hr' | lia] | intros; apply cache_below_update]. }
      kb; [apply IHl; [exact Hr | lia] | intros _ _].
      kb; [apply cache_below_set_written | intros _ _].
      kb; [apply cache_below_set_built; exact Hlt | intros _ _].
      kret.
    + intros z p c0 R Hr Hle. cbn [__read_links].
      eapply keeps_bind; [apply keeps_get_I | intros io1 [Hw1 _]].
      change (default [] (node_attrs <$> node_at io1 z)) with (attrs_of io1 z).
      destruct (dict_get (attrs_of io1 z) "zarr_link") as [lk |] eqn:El; [| kret].
      destruct (json_iter lk) as [links |] eqn:Ei; [| apply keeps_raise].
      apply keeps_for_each_in. intros link Hin.
      destruct link as [| | | | | dd]; try apply keeps_raise.
      pose proof (json_iter_dict _ _ _ Ei Hin) as ->.
      kb; [destruct (dict_get dd "name"); first [kret | apply keeps_raise]
          | intros link_name _].
      eapply keeps_bind;
        [apply keeps_pure_I, resolve_ref_pure | intros [tn tz] (io2 & [Hw2 _] & Hres)].
      cbn iota.
      destruct (step_link _ _ _ _ _ _ _ Hr Hw1 Hw2 El Hin Hres) as [Hr' Hlt'].
      kb; [apply keeps_get | intros io3 _].
      kb; [destruct (node_at io3 tz) as [[] |];
           first [apply IHg | apply IHd]; first [exact Hr' | lia]
          | intros b _].
      kb; [apply keeps_get | intros io4 _].
      kb; [destruct link_name; first [kret | apply keeps_raise] | intros link_name' _].
      kb; [apply cache_below_construct | intros lb _].
      kb; [apply cache_below_update | intros _ _].
      kb; [apply cache_below_set_written | intros _ _].
      apply cache_below_update.
    + intros z n c0 R Hr Hlt. cbn [__read_dataset].
      kb; [apply cache_below_get_built | intros cached _].
      destruct cached; [kret |].
      kb; [apply keeps_get | intros io1 _].
      destruct (node_at io1 z) as [[attrs | attrs arr] |];
        [destruct (dict_has attrs "zarr_dtype"); apply keeps_raise | | apply keeps_raise].
      kb; [| intros zarr_dtype _].
      { destruct (dict_get attrs "zarr_dtype"); [kret |].
        destruct (a_dtype arr); [| apply keeps_raise].
        kb; [apply cache_below_warn | intros; kret]. }
      kb; [apply IHa; [exact Hr | lia] | intros attributes _].
      kb; [apply keeps_pure; [apply read_data_for_pure | trivial] | intros data _].
      kb; [apply keeps_get | intros io2 _].
      kb; [apply cache_below_construct | intros r _].
      kb; [apply cache_below_update | intros _ _].
      kb; [apply cache_below_set_written | intros _ _].
      kb; [apply cache_below_set_built; exact Hlt | intros _ _].
      kret.
    + intros z c0 R Hr Hle. cbn [__read_attrs].
      eapply keeps_bind; [apply keeps_get_I | intros io1 [Hw1 _]].
      change (default [] (node_attrs <$> node_at io1 z)) with (attrs_of io1 z).
      apply keeps_fold_m_in. intros acc [k v] Hin.
      destruct (bool_decide (k ∈ __reserve_attribute)); [kret |].
      destruct v as [| | | | | dd]; try kret.
      destruct (dict_get dd "zarr_dtype") as [tag |]; [| kret].
      destruct (tag_is tag "object");
        [| destruct (tag_is tag "region"); apply keeps_raise].
      destruct (dict_get dd "value") as [val |] eqn:Ev;
        [| eapply keeps_bind with (Q1 := fun _ => False);
           [apply keeps_raise | intros ? []]].
      destruct val as [| | | | | rr];
        try (eapply keeps_bind with (Q1 := fun _ => False);
             [apply keeps_raise | intros ? []]).
      eapply keeps_bind;
        [apply keeps_pure_I, resolve_ref_pure | intros [tn tz] (io2 & [Hw2 _] & Hres)].
      cbn iota.
      destruct (step_attr _ _ _ _ _ _ _ _ Hr Hw1 Hw2 Hin Ev Hres) as [Hr' Hlt'].
      kb; [apply keeps_get | intros io3 _].
      kb; [destruct (node_at io3 tz) as [[] |];
           first [apply IHg | apply IHd]; first [exact Hr' | lia]
          | intros b _].
      kret.
Qed.


Lemma keeps_run {A} (I : ZarrIO -> Prop) Q (m : M A) io o io1 :
  keeps I Q m -> I io -> m io = (o, io1) -> I io1.
Proof.
  intros Hk HI E. pose proof (proj1 (Hk io HI)) as H. rewrite E in H. exact H.
Qed.

Lemma set_built_fresh c0 z r io :
  c0 !! built_key z = None -> Inv c0 (rank (built_key z)) io ->
  __built (__set_built z r io).2 !! built_key z = Some r.
Proof.
  intros Hc [_ Hk]. unfold __set_built, modify. cbn.
  destruct (__built io !! built_key z) as [b |] eqn:E.
  - destruct (Hk (built_key z)) as [[x Hx] | Hlt]; [eauto | congruence | lia].
  - apply lookup_insert_eq.
Qed.

Lemma group_miss_caches_result d z n c0 io r io' :
  reach z -> c0 !! built_key z = None ->
  Inv c0 (rank (built_key z)) io -> __built io !! built_key z = None ->
  __read_group d z n io = (Ok r, io') ->
  __built io' !! built_key z = Some r.
Proof.
  intros Hr Hc HI Hnone H.
  destruct d as [| d]; [discriminate |].
  destruct (reads_stay_below d) as (IHg & IHl & IHd & IHa).
  cbn [__read_group] in H.
  rewrite (bind_ok _ _ _ _ _ (get_built_eq z io)), Hnone in H.
  inv_bind H. injection H as <- <-.
  assert (H1 : Inv c0 (rank (built_key z)) io1)
    by (eapply keeps_run; [apply IHa; [exact Hr | lia] | exact HI | exact Hm]).
  injection Hm0 as <- <-.
  assert (H3 : Inv c0 (rank (built_key z)) io3)
    by (eapply keeps_run; [apply cache_below_construct | exact H1 | exact Hm1]).
  assert (H4 : Inv c0 (rank (built_key z)) io4)
    by (eapply keeps_run; [apply cache_below_update | exact H3 | exact Hm2]).
  assert (H5 : Inv c0 (rank (built_key z)) io5).
  { eapply keeps_run; [| exact H4 | exact Hm3].
    apply keeps_for_each_in. intros [nm z'] Hin. cbn [fst snd].
    destruct (step_child _ _ _ _ _ Hr (proj1 H1) Hin) as [Hr' Hlt'].
    kb; [apply IHg; [exact Hr' | lia] | intros; apply cache_below_update]. }
  assert (H6 : Inv c0 (rank (built_key z)) io6).
  { eapply keeps_run; [| exact H5 | exact Hm4].
    apply keeps_for_each_in. intros [nm z'] Hin. cbn [fst snd].
    destruct (step_child _ _ _ _ _ Hr (proj1 H1) Hin) as [Hr' Hlt'].
    kb; [apply IHd; [exact Hr' | lia] | intros; apply cache_below_update]. }
  assert (H7 : Inv c0 (rank (built_key z)) io7)
    by (eapply keeps_run; [apply IHl; [exact Hr | lia] | exact H6 | exact Hm5]).
  assert (H8 : Inv c0 (rank (built_key z)) io8)
    by (eapply keeps_run; [apply cache_below_set_written | exact H7 | exact Hm6]).
  pose proof (set_built_fresh c0 z a1 io8 Hc H8) as F.
  rewrite Hm7 in F. exact F.
Qed.

Lemma dataset_miss_caches_result d z n c0 io r io' :
  reach z -> c0 !! built_key z = None ->
  Inv c0 (rank (built_key z)) io -> __built io !! built_key z = None ->
  __read_dataset d z n io = (Ok r, io') ->
  __built io' !! built_key z = Some r.
Proof.
  intros Hr Hc HI Hnone H.
  destruct d as [| d]; [discriminate |].
  destruct (reads_stay_below d) as (IHg & IHl & IHd & IHa).
  cbn [__read_dataset] in H.
  rewrite (bind_ok _ _ _ _ _ (get_built_eq z io)), Hnone in H.
  rewrite (bind_ok _ _ _ _ _ (eq_refl : get io = (Ok io, io))) in H.
  destruct (node_at io z) as [[attrs | attrs arr] |];
    [destruct (dict_has attrs "zarr_dtype"); discriminate | | discriminate].
  inv_bind H. injection H as <- <-.
  assert (H1 : Inv c0 (rank (built_key z)) io1).
  { eapply keeps_run with (Q := fun _ => True); [| exact HI | exact Hm].
    destruct (dict_get attrs "zarr_dtype"); [kret |].
    destruct (a_dtype arr); [| apply keeps_raise].
    kb; [apply cache_below_warn | intros; kret]. }
  assert (H2 : Inv c0 (rank (built_key z)) io2)
    by (eapply keeps_run; [apply IHa; [exact Hr | lia] | exact H1 | exact Hm0]).
  assert (H3 : Inv c0 (rank (built_key z)) io3)
    by (eapply keeps_run with (Q := fun _ => True);
        [apply keeps_pure; [apply read_data_for_pure | trivial] | exact H2 | exact Hm1]).
  injection Hm2 as <- <-.
  assert (H5 : Inv c0 (rank (built_key z)) io5)
    by (eapply keeps_run; [apply cache_below_construct | exact H3 | exact Hm3]).
  assert (H6 : Inv c0 (rank (built_key z)) io6)
    by (eapply keeps_run; [apply cache_below_update | exact H5 | exact Hm4]).
  assert (H7 : Inv c0 (rank (built_key z)) io7)
    by (eapply keeps_run; [apply cache_below_set_written | exact H6 | exact Hm5]).
  pose proof (set_built_fresh c0 z a3 io7 Hc H7) as F.
  rewrite Hm6 in F. exact F.
Qed.

End Below.

(** Where the reads that start at a node never come back to a key
    already met, the builder a call returns is the builder the cache
    holds for the node from then on. *)
Lemma returned_group_is_cached rank d z n io r io' :
  acyclic_from rank io z ->
  __read_group d z n io = (Ok r, io') ->
  __built io' !! built_key z = Some r.
Proof.
  intros Hacy H.
  destruct (__built io !! built_key z) as [c |] eqn:E.
  - destruct d as [| d]; [discriminate |].
    rewrite (read_group_hit d z n io c E) in H. injection H as <- <-. exact E.
  - eapply (group_miss_caches_result rank io z Hacy d z n (__built io) io r io');
      [apply rtc_refl | exact E | | exact E | exact H].
    split; [repeat split |]. intros k Hk. left. exact Hk.
Qed.

Lemma returned_dataset_is_cached rank d z n io r io' :
  acyclic_from rank io z ->
  __read_dataset d z n io = (Ok r, io') ->
  __built io' !! built_key z = Some r.
Proof.
  intros Hacy H.
  destruct (__built io !! built_key z) as [c |] eqn:E.
  - destruct d as [| d]; [discriminate |].
    rewrite (read_dataset_hit d z n io c E) in H. injection H as <- <-. exact E.
  - eapply (dataset_miss_caches_result rank io z Hacy d z n (__built io) io r io');
      [apply rtc_refl | exact E | | exact E | exact H].
    split; [repeat split |]. intros k Hk. left. exact Hk.
Qed.

(** Once a call of [__read_group] or
    [__read_dataset] on a node has returned, the cache holds a builder
    under the key of the node, and every later call on that node, by
    either method, with any name and from any later state of the
    session, returns that same builder and leaves the IO object
    untouched: no builder is constructed.  Where the reads that start
    at the node never lead back to a key they are still working on,
    the cached builder is the one the first call returned. *)
Theorem returned_reads_are_served_from_the_cache
  (depth : nat) (zarr_obj : zarr_obj) (name : option string)
  (io io' : ZarrIO) (r : nat)
  (Hfirst : __read_group depth zarr_obj name io = (Ok r, io')
            \/ __read_dataset depth zarr_obj name io = (Ok r, io')) :
  exists cached,
    __built io' !! built_key zarr_obj = Some cached
    /\ (forall rank, acyclic_from rank io zarr_obj -> cached = r)
    /\ forall (later : ZarrIO) (depth' : nat) (name' : option string),
         __built io' ⊆ __built later ->
         __read_group (S depth') zarr_obj name' later = (Ok cached, later)
         /\ __read_dataset (S depth') zarr_obj name' later = (Ok cached, later).
Proof.
  assert (Hreg : is_Some (__built io' !! built_key zarr_obj)).
  { destruct Hfirst as [H | H];
      [eapply read_group_registers | eapply read_dataset_registers]; exact H. }
  destruct Hreg as [cached Hc]. exists cached. split; [exact Hc | split].
  - intros rank Hacy.
    assert (Hr : __built io' !! built_key zarr_obj = Some r).
    { destruct Hfirst as [H | H];
        [eapply returned_group_is_cached | eapply returned_dataset_is_cached];
        eassumption. }
    congruence.
  - intros later depth' name' Hsub.
    assert (Hl : __built later !! built_key zarr_obj = Some cached).
    { eapply lookup_weaken; [exact Hc | exact Hsub]. }
    split; [apply read_group_hit | apply read_dataset_hit]; exact Hl.
Qed.

(** Warnings are never withdrawn. *)
Lemma warned_stays depth (msg : string) :
  let I := fun io => msg ∈ warned io in
  (forall z name, keeps I (fun _ => True) (__read_group depth z name))
  /\ (forall z parent, keeps I (fun _ => True) (__read_links depth z parent))
  /\ (forall z name, keeps I (fun _ => True) (__read_dataset depth z name))
  /\ (forall z, keeps I reserved_free (__read_attrs depth z)).
Proof.
  apply read_keeps; try (intros; assumption).
  intros msg' io H. cbn. apply elem_of_app. left. exact H.
Qed.


(** Reading an array that has no 'zarr_dtype' attribute but has a
    dtype of its own, where reading its attributes succeeds. *)
Lemma untagged_array_is_read
  (depth : nat) (zarr_obj : zarr_obj) (name : option string) (io io2 : ZarrIO)
  (attrs : list (string * json)) (arr : zarray) (t : TypeResolver.storage_type)
  (attributes : list (string * read_attr))
  (Hnode : node_at io zarr_obj = Some (ZArray attrs arr))
  (Htag : dict_get attrs "zarr_dtype" = None)
  (Hraw : a_dtype arr = Some t)
  (Hmiss : __built io !! built_key zarr_obj = None)
  (Hattrs : __read_attrs depth zarr_obj
              (with_warned (fun w => (w ++ [missing_tag_warning name zarr_obj])%list) io)
            = (Ok attributes, io2)) :
  exists r io' location maxshape chunks,
    __read_dataset (S depth) zarr_obj name io = (Ok r, io')
    /\ objects io' !! r
       = Some (BDataset (name_or_basename name zarr_obj) (source io2) attributes
                 location (RT_raw t) maxshape chunks (RD_array zarr_obj))
    /\ missing_tag_warning name zarr_obj ∈ warned io'.
Proof.
  assert (Hw : missing_tag_warning name zarr_obj ∈ warned io2).
  { destruct (warned_stays depth (missing_tag_warning name zarr_obj))
      as (_ & _ & _ & Ha).
    assert (H0 : missing_tag_warning name zarr_obj
                 ∈ warned (with_warned
                             (fun w => (w ++ [missing_tag_warning name zarr_obj])%list)
                             io)).
    { cbn. apply elem_of_app. right. apply list_elem_of_singleton. reflexivity. }
    pose proof (proj1 (Ha zarr_obj _ H0)) as H.
    rewrite Hattrs in H. exact H. }
  cbn [__read_dataset].
  rewrite (bind_ok _ _ _ _ _ (get_built_eq zarr_obj io)), Hmiss.
  rewrite (bind_ok _ _ _ _ _ (eq_refl : get io = (Ok io, io))).
  rewrite Hnode, Htag, Hraw.
  unfold missing_tag_warning in *.
  rewrite (bind_ok (warn _ ;;; ret (RT_raw t)) _ io (RT_raw t) _ eq_refl).
  rewrite (bind_ok _ _ _ _ _ Hattrs).
  rewrite (bind_ok _ _ _ _ _ (eq_refl : read_data_for zarr_obj arr (RT_raw t) io2
                                        = (Ok (RD_array zarr_obj), io2))).
  do 5 eexists. split; [reflexivity | split].
  - cbn. rewrite list_lookup_alter. rewrite lookup_app_r by reflexivity.
    rewrite Nat.sub_diag. rewrite decide_True by reflexivity. reflexivity.
  - exact Hw.
Qed.

End ReadFacts.

(** ** TypeResolver: names, tags and compound types *)

Section TypeNames.
Import TypeResolver.

Lemma dict_get_elem {V} (d : list (string * V)) k v :
  TypeResolver.dict_get d k = Some v -> (k, v) ∈ d.
Proof.
  induction d as [| [k0 x] d IH]; cbn; [discriminate |].
  destruct (String.eqb k0 k) eqn:E.
  - intros [= ->]. apply String.eqb_eq in E as ->. left.
  - intros H. right. apply IH, H.
Qed.

(** The tag [__serial_dtype__] writes for a type that [__dtypes] names
    is again a name of [__dtypes], and it resolves to the same type:
    aliases such as "float", "long" or "utf8" are written under the
    name of the type they stand for.  The reference type is the one
    exception. *)
Theorem type_tags_resolve_to_the_same_type
  (name : string) (t : storage_type)
  (Hnamed : __resolve_dtype_helper__ (D_str name) = Ok (Some t))
  (Hplain : t <> st_type ty_ZarrReference) :
  exists tag, __serial_dtype__ t = JStr tag
              /\ __resolve_dtype_helper__ (D_str tag) = Ok (Some t).
Proof.
  cbn [__resolve_dtype_helper__] in Hnamed.
  destruct (TypeResolver.dict_get __dtypes name) as [ty |] eqn:E; [| discriminate].
  injection Hnamed as <-.
  apply dict_get_elem in E. unfold __dtypes in E.
  repeat (apply elem_of_cons in E as [[= -> ->] | E]);
    try (eexists; split; reflexivity);
    try (exfalso; apply Hplain; reflexivity).
  apply elem_of_nil in E. destruct E.
Qed.

(** A dtype that [__is_ref] takes for a reference by its name resolves
    to the ZarrReference class, and the tag [__serial_dtype__] gives
    for that class is its class name, which [__dtypes] does not list:
    the branch of [__serial_dtype__] that would answer 'object' is
    never reached. *)
Theorem reference_names_are_tagged_by_class_name
  (name : string) (Href : __is_ref (D_str name) = true) :
  __resolve_dtype_helper__ (D_str name) = Ok (Some (st_type ty_ZarrReference))
  /\ __serial_dtype__ (st_type ty_ZarrReference) = JStr "ZarrReference"
  /\ __resolve_dtype_helper__ (D_str "ZarrReference") = Ok None.
Proof.
  cbn [__is_ref] in Href. apply orb_true_iff in Href as [H | H];
    apply String.eqb_eq in H; subst name; repeat split.
Qed.

(** The fields of a compound type, resolved one by one. *)
Lemma resolve_fields (fields : list (string * dtype_desc)) r :
  __resolve_dtype_helper__ (D_list fields) = Ok r ->
  exists fs, r = Some (st_compound fs)
    /\ Forall2 (fun (f : string * dtype_desc) (x : string * option storage_type) =>
                  x.1 = f.1 /\ __resolve_dtype_helper__ f.2 = Ok x.2) fields fs.
Proof.
  cbn [__resolve_dtype_helper__].
  match goal with
  | |- obind (?go fields) _ = _ -> _ => set (go_ := go)
  end.
  assert (G : forall l fs, go_ l = Ok fs ->
            Forall2 (fun (f : string * dtype_desc) (x : string * option storage_type) =>
                       x.1 = f.1 /\ __resolve_dtype_helper__ f.2 = Ok x.2) l fs).
  { induction l as [| [n x] l IH]; intros fs; cbn.
    - intros [= <-]. constructor.
    - destruct (__resolve_dtype_helper__ x) as [t | e |] eqn:Ex; try discriminate.
      cbn. destruct (go_ l) as [r' | e |] eqn:El; try discriminate.
      cbn. intros [= <-]. constructor; [split; [reflexivity | exact Ex] |].
      apply IH. reflexivity. }
  destruct (go_ fields) as [fs | e |] eqn:E; try discriminate.
  cbn. intros [= <-]. exists fs. split; [reflexivity | apply G, E].
Qed.

Lemma serial_compound_names (fs : list (string * option storage_type)) :
  exists tags, __serial_dtype__ (st_compound fs) = JList tags
    /\ map (fun tag => match tag with
                       | JDict d => TypeResolver.dict_get d "name"
                       | _ => None
                       end) tags
       = map (fun x : string * option storage_type => Some (JStr x.1)) fs.
Proof.
  cbn [__serial_dtype__ serial_field]. eexists. split; [reflexivity |].
  induction fs as [| [n x] fs IH]; [reflexivity |].
  cbn [map]. rewrite IH. reflexivity.
Qed.

(** A compound type is resolved field by field, and the tag written
    for it lists the fields by name in the order they were declared;
    a field whose type has no name in [__dtypes] is kept, without a
    type. *)
Theorem compound_tags_list_the_fields_in_order
  (fields : list (string * dtype_desc)) (r : option storage_type)
  (Hresolved : __resolve_dtype_helper__ (D_list fields) = Ok r) :
  exists fs tags,
    r = Some (st_compound fs)
    /\ Forall2 (fun (f : string * dtype_desc) (x : string * option storage_type) =>
                  x.1 = f.1 /\ __resolve_dtype_helper__ f.2 = Ok x.2) fields fs
    /\ __serial_dtype__ (st_compound fs) = JList tags
    /\ map (fun tag => match tag with
                       | JDict d => TypeResolver.dict_get d "name"
                       | _ => None
                       end) tags
       = map (fun f : string * dtype_desc => Some (JStr f.1)) fields.
Proof.
  destruct (resolve_fields fields r Hresolved) as (fs & -> & Hfs).
  destruct (serial_compound_names fs) as (tags & Htags & Hnames).
  exists fs, tags. repeat split; try assumption.
  rewrite Hnames. clear -Hfs.
  induction Hfs as [| f x fields fs [Hn _] _ IH]; [reflexivity |].
  cbn [map]. rewrite Hn, IH. reflexivity.
Qed.

End TypeNames.
(** ** PathRegistry and references *)

Section PathFacts.
Import TypeResolver Zarr IO Monad Builders.
Context {os : OsPath} {manager : BuildManager} {numpy : NumPy}.

Lemma string_app_assoc (a b c : string) : (a ++ b) ++ c = a ++ (b ++ c).
Proof.
  induction a as [| x a IH]; [reflexivity |].
  change (String x ((a ++ b) ++ c) = String x (a ++ (b ++ c))).
  f_equal. exact IH.
Qed.

Lemma concat_snoc (l : list string) (n : string) :
  l <> [] -> String.concat "/" (l ++ [n]) = String.concat "/" l ++ "/" ++ n.
Proof.
  induction l as [| x l IH]; [congruence |]. intros _.
  destruct l as [| y l].
  - reflexivity.
  - change (String.concat "/" ((x :: y :: l) ++ [n]))
      with (x ++ "/" ++ String.concat "/" ((y :: l) ++ [n])).
    rewrite IH by discriminate.
    change (String.concat "/" (x :: y :: l))
      with (x ++ "/" ++ String.concat "/" (y :: l)).
    rewrite !string_app_assoc. reflexivity.
Qed.

Lemma names_to_root_nil (p : BuilderInfo) :
  names_to_root p = [] <-> b_name p = ROOT_NAME.
Proof.
  destruct p as [id n par loc src oid]. cbn.
  destruct (String.eqb n ROOT_NAME) eqn:E.
  - apply String.eqb_eq in E. tauto.
  - apply String.eqb_neq in E. split; [discriminate | contradiction].
Qed.

Lemma names_to_root_without_location (p : BuilderInfo) :
  names_to_root (without_location p) = names_to_root p.
Proof. destruct p as [id n par loc src oid]. reflexivity. Qed.

(** Paths follow the names up the parent chain, and the locations of
    the ancestors play no part: a builder without a location that is
    not named ROOT_NAME has, right below a builder named ROOT_NAME, the
    path "/" and its name, and below any other builder the path that
    builder would have without a location of its own, "/" and its
    name; that is the path of the parent when the parent has no
    location. *)
Theorem paths_extend_the_path_of_the_parent
  (builder parent : BuilderInfo)
  (Hparent : b_parent builder = Some parent)
  (Hloc : b_location builder = None)
  (Hname : b_name builder <> ROOT_NAME) :
  (b_name parent = ROOT_NAME -> __get_path builder = "/" ++ b_name builder)
  /\ (b_name parent <> ROOT_NAME ->
     __get_path builder
     = __get_path (without_location parent) ++ "/" ++ b_name builder)
  /\ (b_location parent = None ->
     __get_path (without_location parent) = __get_path parent).
Proof.
  unfold __get_path. rewrite Hloc. cbn [b_location without_location].
  rewrite names_to_root_without_location.
  assert (E : names_to_root builder = b_name builder :: names_to_root parent).
  { destruct builder as [id n par loc src oid]. cbn in *. subst par.
    apply String.eqb_neq in Hname. rewrite Hname. reflexivity. }
  rewrite E. cbn [rev]. unfold Path.join_names.
  split; [| split].
  - intros Hp. apply names_to_root_nil in Hp. rewrite Hp. reflexivity.
  - intros Hp. rewrite concat_snoc.
    + reflexivity.
    + intros Hnil. apply Hp, names_to_root_nil.
      destruct (names_to_root parent); [reflexivity |].
      cbn in Hnil. apply app_eq_nil in Hnil as [_ Hnil]. discriminate.
  - intros Hp. rewrite Hp. reflexivity.
Qed.

Lemma get_ref_run
  (ref_object : ref_object) (export_source : option string) (io : ZarrIO)
  (builder : BuilderInfo) :
  referenced_builder ref_object = Some builder ->
  exists r,
    (__get_ref ref_object export_source io).1 = Ok r
    /\ ref_path r = __get_path builder
    /\ ref_object_id r = b_object_id builder
    /\ ref_source_object_id r = walk_to_root builder ≫= b_object_id
    /\ (__get_ref ref_object export_source io).2
       = match walk_to_root builder with
         | Some _ => io
         | None => with_warned (fun w => (w ++ [no_root_warning builder])%list) io
         end.
Proof.
  intros Htarget.
  destruct io as [src pth fl st wr q bl ob wn cl].
  unfold __get_ref, bind, ret, raise, get, warn, modify, with_warned.
  destruct ref_object as [b | l b | b | b | c]; cbn in Htarget;
    try discriminate; injection Htarget as <-; cbn;
    match goal with
    | |- context [walk_to_root ?b] => destruct (walk_to_root b)
    end; cbn; eexists; repeat split.
Qed.

(** The record [__get_ref] makes points at the referenced builder: at
    the target of a link or of a reference builder, at the builder of
    a container.  It carries the path and the object id of that
    builder and the object id of the root above it; where no ancestor
    is named ROOT_NAME the source object id is missing and one warning
    is issued.  Nothing else of the IO object changes. *)
Theorem references_point_at_the_referenced_builder
  (ref_object : ref_object) (export_source : option string) (io : ZarrIO)
  (builder : BuilderInfo)
  (Htarget : referenced_builder ref_object = Some builder) :
  exists r,
    (__get_ref ref_object export_source io).1 = Ok r
    /\ ref_path r = __get_path builder
    /\ ref_object_id r = b_object_id builder
    /\ ref_source_object_id r = walk_to_root builder ≫= b_object_id
    /\ (__get_ref ref_object export_source io).2
       = match walk_to_root builder with
         | Some _ => io
         | None => with_warned (fun w => (w ++ [no_root_warning builder])%list) io
         end.
Proof. exact (get_ref_run ref_object export_source io builder Htarget). Qed.

End PathFacts.
(** ** WriteEngine: what writing keeps *)

Section WriteInvariants.
Import TypeResolver Zarr IO Monad Builders.
Context {os : OsPath} {manager : BuildManager} {numpy : NumPy}.

Lemma keeps_reraise (I : ZarrIO -> Prop) {A} (Q : A -> Prop) (m : M A) e :
  keeps I Q m -> keeps I Q (reraise m e).
Proof.
  intros Hm io HI. unfold reraise. destruct (Hm io HI) as [H1 H2].
  destruct (m io) as [[a | e' |] io1]; cbn in *; split; try assumption; discriminate.
Qed.

Lemma keeps_except (I : ZarrIO -> Prop) {A} (Q : A -> Prop) (m handler : M A) :
  keeps I Q m -> keeps I Q handler -> keeps I Q (except_ValueError m handler).
Proof.
  intros Hm Hh io HI. unfold except_ValueError. destruct (Hm io HI) as [H1 H2].
  destruct (m io) as [[a | [] |] io1]; cbn in *;
    first [ apply Hh; exact H1 | split; [exact H1 | first [exact H2 | discriminate]] ].
Qed.

Lemma keeps_map_m (I : ZarrIO -> Prop) {A B} (f : A -> M B) (l : list A) :
  (forall x, keeps I (fun _ => True) (f x)) ->
  keeps I (fun _ => True) (map_m f l).
Proof.
  intros Hf. induction l as [| x l IH]; cbn [map_m].
  - apply keeps_ret. trivial.
  - eapply keeps_bind; [apply Hf | intros y _].
    eapply keeps_bind; [apply IH | intros ys _]. apply keeps_ret. trivial.
Qed.

Lemma node_at_with_calls f io z : node_at (with_calls f io) z = node_at io z.
Proof. reflexivity. Qed.

Lemma keeps_get_bind (I : ZarrIO -> Prop) {B} (Q : B -> Prop) (k : ZarrIO -> M B) :
  (forall io, I io -> I (k io io).2 /\ forall b, (k io io).1 = Ok b -> Q b) ->
  keeps I Q (bind get k).
Proof. intros H io HI. exact (H io HI). Qed.

Variable I : ZarrIO -> Prop.
Hypothesis I_calls : forall f io, I io -> I (with_calls f io).
Hypothesis I_warned : forall f io, I io -> I (with_warned f io).
Hypothesis I_written : forall b io, I io -> I (with_written (fun w => {[ b ]} ∪ w) io).
Hypothesis I_queue : forall f io, I io -> I (with_dci_queue f io).
Hypothesis I_put : forall z n io,
  (forall n0, node_at io z = Some n0 -> is_group n0 = is_group n) ->
  I io -> I (put_node z n io).2.

Local Abbreviation any := (fun _ => True).

Ltac kb := eapply keeps_bind with (Q1 := fun _ => True); [| intros ? _].
Ltac kret := apply keeps_ret; trivial.

Lemma wk_called c : keeps I any (called c).
Proof. apply keeps_modify. intros. apply I_calls. assumption. Qed.

Lemma wk_warn msg : keeps I any (warn msg).
Proof. apply keeps_modify. intros. apply I_warned. assumption. Qed.

Lemma wk_set_written b : keeps I any (set_written b).
Proof. apply keeps_modify. intros. apply I_written. assumption. Qed.

Lemma wk_get_written b : keeps I any (get_written b).
Proof. apply keeps_pure; [intros io; reflexivity | trivial]. Qed.

Lemma wk_init_dci_queue : keeps I any init_dci_queue.
Proof. apply keeps_modify. intros. apply I_queue. assumption. Qed.

Lemma wk_lift {A} (o : outcome A) : keeps I any (lift o).
Proof. apply keeps_pure; [intros io; reflexivity | trivial]. Qed.

Lemma wk_get_ref r es : keeps I any (__get_ref r es).
Proof.
  intros io HI. destruct (get_ref_state r es io) as [w ->].
  split; [apply I_warned, HI | trivial].
Qed.

Lemma wk_attribute_ref r es : keeps I any (attribute_ref r es).
Proof.
  unfold attribute_ref. destruct r; try apply wk_get_ref.
  destruct (c_builder c); [apply wk_get_ref | apply keeps_raise].
Qed.

Lemma wk_put_same z n0 n io :
  node_at io z = Some n0 -> is_group n0 = is_group n ->
  I io -> I (put_node z n io).2.
Proof. intros Hn Hk HI. apply I_put; [| exact HI]. intros n1. rewrite Hn. congruence. Qed.

Lemma wk_put_new z n io : node_at io z = None -> I io -> I (put_node z n io).2.
Proof. intros Hn HI. apply I_put; [| exact HI]. intros n1. rewrite Hn. discriminate. Qed.

Lemma wk_zarr_attrs_set obj k v : keeps I any (zarr_attrs_set obj k v).
Proof.
  unfold zarr_attrs_set. apply keeps_get_bind. intros io HI.
  destruct (node_at io obj) as [n |] eqn:Hn; [| split; [exact HI | trivial]].
  split; [| trivial].
  change (I (put_node obj (set_node_attrs n (dict_set (node_attrs n) k v))
               (with_calls (fun l => (l ++ [c_attrs_set (z_path obj) k v])%list) io)).2).
  apply (wk_put_same obj n); [exact Hn | destruct n; reflexivity |].
  apply I_calls, HI.
Qed.

Lemma wk_zarr_attrs obj : keeps I any (zarr_attrs obj).
Proof.
  apply keeps_pure; [| trivial]. intros io. unfold zarr_attrs, bind, get.
  destruct (node_at io obj); reflexivity.
Qed.

Lemma wk_zarr_getitem z item : keeps I any (zarr_getitem z item).
Proof.
  apply keeps_pure; [| trivial]. intros io. unfold zarr_getitem, bind, get.
  destruct (node_at io z) as [[] |]; try reflexivity.
  destruct (normalize_storage_path item); [| reflexivity].
  match goal with |- context [node_at io ?t] => destruct (node_at io t) end;
    reflexivity.
Qed.

Lemma wk_zarr_item parent name : keeps I any (zarr_item parent name).
Proof. unfold zarr_item. kb; [apply wk_called | apply wk_zarr_getitem]. Qed.

Ltac put_new Hn :=
  split; [| trivial];
  match goal with
  | HI : I ?io |- I (bind (put_node ?z ?n) _ ?io).2 =>
      change (I (put_node z n io).2); apply wk_put_new; [exact Hn | exact HI]
  | HI : I ?io |- I (put_node ?z ?n ?io).2 =>
      apply wk_put_new; [exact Hn | exact HI]
  end.
Ltac untouched := split; [assumption | trivial].

Lemma wk_zarr_require_group parent name : keeps I any (zarr_require_group parent name).
Proof.
  unfold zarr_require_group. kb; [apply wk_called |].
  apply keeps_get_bind. intros io HI.
  destruct (node_at io parent) as [[pa | pa parr] |];
    destruct (node_at io (child parent name)) as [[] |] eqn:Hn;
    first [untouched | put_new Hn].
Qed.

Lemma wk_zarr_require_dataset parent name shape dtype oc settings :
  keeps I any (zarr_require_dataset parent name shape dtype oc settings).
Proof.
  unfold zarr_require_dataset. kb; [apply wk_called |].
  apply keeps_get_bind. intros io HI.
  destruct (node_at io parent) as [[pa | pa parr] |];
    destruct (node_at io (child parent name)) as [[? | ? arr] |] eqn:Hn;
    try destruct (bool_decide (a_shape arr = shape));
    first [untouched | put_new Hn].
Qed.

Lemma wk_zarr_create_dataset parent name shape dtype settings :
  keeps I any (zarr_create_dataset parent name shape dtype settings).
Proof.
  unfold zarr_create_dataset. kb; [apply wk_called |].
  apply keeps_get_bind. intros io HI.
  destruct (node_at io parent) as [[pa | pa parr] |];
    destruct (node_at io (child parent name)) as [[? | ? ?] |] eqn:Hn;
    first [untouched | put_new Hn].
Qed.

Lemma wk_fill dset data : keeps I any (fill dset data).
Proof.
  unfold fill. apply keeps_get_bind. intros io HI.
  destruct (node_at io dset) as [[attrs | attrs arr] |] eqn:Hn;
    try (split; [exact HI | trivial]).
  split; [| trivial].
  apply (wk_put_same dset (ZArray attrs arr)); [exact Hn | reflexivity | exact HI].
Qed.

Lemma wk_zarr_setitem dset data : keeps I any (zarr_setitem dset data).
Proof.
  unfold zarr_setitem. kb; [apply wk_called |].
  eapply keeps_bind; [apply keeps_get | intros io _].
  destruct (node_at io dset) as [[attrs | attrs arr] |]; try apply keeps_raise.
  destruct (assigned (a_shape arr) data); [apply wk_fill | apply keeps_raise].
Qed.

Lemma wk_zarr_setitem_at dset c v : keeps I any (zarr_setitem_at dset c v).
Proof.
  unfold zarr_setitem_at. kb; [apply wk_called |].
  eapply keeps_bind; [apply keeps_get | intros io _].
  destruct (node_at io dset) as [[attrs | attrs arr] |]; try apply keeps_raise.
  destruct (negb _); [apply keeps_raise |].
  destruct (negb _); [apply keeps_raise |].
  destruct (drop _ _); [apply wk_fill |].
  destruct (as_content _ _); [apply wk_fill | apply keeps_raise].
Qed.

Lemma wk_zarr_copy data parent name : keeps I any (zarr_copy data parent name).
Proof.
  unfold zarr_copy. kb; [apply wk_called |].
  apply keeps_get_bind. intros io HI.
  destruct (node_at io data) as [n |];
    destruct (node_at io parent) as [[pa | pa parr] |];
    destruct (node_at io (child parent name)) as [n' |] eqn:Hn;
    first [untouched | put_new Hn].
Qed.

Lemma wk_queue_append dset data : keeps I any (queue_append dset data).
Proof.
  unfold queue_append. eapply keeps_bind; [apply keeps_get | intros io _].
  destruct (__dci_queue io); [| apply keeps_raise].
  kb; [apply wk_called |]. apply keeps_modify. intros. apply I_queue. assumption.
Qed.

Lemma wk_exhaust_queue : keeps I any exhaust_queue.
Proof.
  unfold exhaust_queue. eapply keeps_bind; [apply keeps_get | intros io _].
  destruct (__dci_queue io); [| apply keeps_raise].
  kb; [apply wk_called |].
  kb; [apply keeps_for_each; intros e; apply wk_fill |].
  apply keeps_modify. intros. apply I_queue. assumption.
Qed.

Lemma wk_write_attribute obj es k v : keeps I any (write_attribute obj es k v).
Proof.
  unfold write_attribute.
  destruct v as [items | items | r | repr | i].
  - destruct (items_json items); [apply wk_zarr_attrs_set |].
    destruct (items_json (map convert_item items));
      [apply wk_zarr_attrs_set | apply keeps_raise].
  - destruct (items_json (tolist items)); [apply wk_zarr_attrs_set |].
    destruct (items_json (map convert_item items));
      [apply wk_zarr_attrs_set | apply keeps_raise].
  - kb; [apply wk_attribute_ref | apply wk_zarr_attrs_set].
  - apply keeps_raise.
  - destruct i; cbn; first [apply wk_zarr_attrs_set | apply keeps_raise].
Qed.

Lemma wk_write_attributes obj attributes es :
  keeps I any (write_attributes obj attributes es).
Proof.
  unfold write_attributes. apply keeps_for_each. intros [k v].
  apply wk_write_attribute.
Qed.

Lemma wk_add_link parent src pth name : keeps I any (__add_link__ parent src pth name).
Proof.
  unfold __add_link__.
  kb; [apply wk_zarr_attrs |].
  kb; [match goal with |- keeps _ _ (if ?b then _ else _) => destruct b end;
       [kret | apply wk_zarr_attrs_set] |].
  kb; [apply wk_zarr_attrs |].
  kb; [| apply wk_zarr_attrs_set].
  match goal with |- keeps _ _ (match ?x with _ => _ end) => destruct x as [v |] end;
    [| apply keeps_raise].
  destruct (json_iter v); [kret | apply keeps_raise].
Qed.

Lemma wk_write_link parent builder : keeps I any (write_link parent builder).
Proof.
  unfold write_link. kb; [apply wk_get_written |].
  match goal with |- keeps _ _ (if ?b then _ else _) => destruct b end; [kret |].
  kb; [apply wk_get_ref |].
  kb; [apply wk_add_link | apply wk_set_written].
Qed.

Lemma wk_scalar_fill parent name data dtype settings :
  keeps I any (__scalar_fill__ parent name data dtype settings).
Proof.
  unfold __scalar_fill__.
  kb; [apply keeps_reraise, wk_lift |].
  kb; [apply wk_zarr_require_dataset |].
  kb; [apply wk_zarr_setitem |].
  kb; [apply wk_zarr_attrs_set | kret].
Qed.

Lemma list_fill_layout_pure data nd dtype settings :
  pure_ (list_fill_layout data nd dtype settings).
Proof.
  intros io. unfold list_fill_layout.
  repeat match goal with
         | |- context [match ?x with _ => _ end] => destruct x
         end; reflexivity.
Qed.

Lemma wk_list_fill parent name data nd dtype settings :
  keeps I any (__list_fill__ parent name data nd dtype settings).
Proof.
  unfold __list_fill__.
  kb; [apply keeps_reraise, wk_lift |].
  kb; [apply keeps_pure; [apply list_fill_layout_pure | trivial] |].
  match goal with
  | |- keeps _ _ (match ?x with _ => _ end) => destruct x as [[? ?] ?]
  end.
  kb; [apply wk_zarr_require_dataset |].
  kb; [apply wk_zarr_attrs_set |].
  kb; [| kret].
  match goal with |- keeps _ _ (if ?b then _ else _) => destruct b end.
  - apply keeps_for_each. intros c. kb; [apply wk_lift | apply wk_zarr_setitem_at].
  - apply keeps_except; [apply wk_zarr_setitem |].
    destruct (py_len data); [| apply keeps_raise].
    apply keeps_for_each. intros i. kb; [apply wk_lift | apply wk_zarr_setitem_at].
Qed.

Lemma wk_setup_chunked_dataset parent name data dtype settings :
  keeps I any (__setup_chunked_dataset__ parent name data dtype settings).
Proof.
  unfold __setup_chunked_dataset__. apply keeps_reraise.
  kb; [destruct (ios_dtype settings); [apply wk_lift |];
       destruct dtype; first [kret | apply wk_lift] |].
  kb; [apply wk_zarr_create_dataset |].
  kb; [apply wk_zarr_attrs_set | kret].
Qed.

Lemma wk_cell_ref c es : keeps I any (cell_ref c es).
Proof. destruct c; [apply keeps_raise | apply wk_get_ref]. Qed.

Lemma wk_compound_type_str fields : forall i row0 es,
  keeps I any (compound_type_str fields i row0 es).
Proof.
  induction fields as [| [n dts] rest IH]; intros i row0 es; cbn [compound_type_str].
  - kret.
  - kb; [| kb; [apply IH | kret]].
    destruct (__is_ref dts).
    + destruct row0 as [row |]; [| apply keeps_raise].
      destruct (row !! i); [| apply keeps_raise].
      kb; [apply wk_cell_ref | kret].
    + kb; [apply wk_lift |].
      match goal with |- keeps _ _ (match ?x with _ => _ end) => destruct x as [[] |] end;
        try apply keeps_raise.
      match goal with |- keeps _ _ (match ?x with _ => _ end) => destruct x end;
        first [kret | apply keeps_raise].
Qed.

Lemma wk_new_item refs item : forall i es, keeps I any (new_item refs i item es).
Proof.
  induction item as [| c item IH]; intros i es; cbn [new_item].
  - kret.
  - kb; [| kb; [apply IH | kret]].
    destruct (bool_decide (i ∈ refs)).
    + kb; [apply wk_cell_ref | kret].
    + destruct c; [kret | apply keeps_raise].
Qed.

Ltac wk_match :=
  match goal with
  | |- keeps _ _ (match ?x with _ => _ end) => destruct x
  end.

Lemma wk_write_typed parent builder es data settings :
  keeps I any (write_typed parent builder es data settings).
Proof.
  unfold write_typed.
  destruct (d_dtype builder) as [| t | n | rt | fields | | d | repr].
  5: {
    kb; [apply wk_compound_type_str |].
    wk_match. wk_match.
    - destruct data; try apply keeps_raise.
      kb; [apply wk_set_written |].
      kb; [apply keeps_map_m; intros item; wk_match;
           [apply wk_new_item | apply keeps_raise] |].
      kb; [apply wk_lift |].
      kb; [apply wk_zarr_require_dataset |].
      kb; [apply wk_zarr_attrs_set |].
      kb; [apply wk_zarr_setitem | kret].
    - wk_match; [| apply keeps_raise]. wk_match.
      kb; [apply wk_list_fill | kret]. }
  all: wk_match.
  all: try (kb; [ destruct data; try apply keeps_raise;
                  [ kb; [apply wk_get_ref | kret]
                  | kb; [apply keeps_map_m; intros; apply wk_get_ref | kret] ]
                | wk_match;
                  kb; [apply wk_zarr_require_dataset |];
                  kb; [apply wk_set_written |];
                  kb; [apply wk_zarr_attrs_set |];
                  kb; [apply wk_zarr_setitem | kret] ]).
  all: destruct data;
    try (kb; [apply wk_setup_chunked_dataset |]; kb; [apply wk_queue_append | kret]).
  all: repeat first
         [ apply keeps_raise
         | kb; [first [apply wk_list_fill | apply wk_scalar_fill] | kret]
         | wk_match ].
Qed.

Lemma wk_write_dataset_data parent builder es data : forall settings ld ed,
  keeps I any (write_dataset_data parent builder es data settings ld ed).
Proof.
  assert (Tail : forall (r : bool * option zarr_obj) (ed : bool),
    keeps I any
      (let '(linked, dset) := r in
       (if linked then ret tt
        else match dset with
             | Some d => write_attributes d (d_attributes builder) None
             | None => raise (TypeError "incorrect type for 'obj' (got 'NoneType')")
             end) ;;;
       set_written (ident_of (d_info builder)) ;;;
       (if ed then exhaust_queue else ret tt) ;;; ret dset)).
  { intros [linked dset] ed.
    kb; [destruct linked; [kret |];
         destruct dset; [apply wk_write_attributes | apply keeps_raise] |].
    kb; [apply wk_set_written |].
    kb; [destruct ed; [apply wk_exhaust_queue | kret] | kret]. }
  induction data as [a | first rest | loaded IH | target | items | rows | it | v nd];
    intros settings ld ed; cbn [write_dataset_data];
    (kb; [destruct ed; [apply wk_init_dci_queue | kret] |]);
    (kb; [apply wk_get_written |]);
    (match goal with |- keeps _ _ (if ?b then _ else _) => destruct b end; [kret |]);
    (eapply keeps_bind with (Q1 := fun _ => True); [| intros r _; apply Tail]);
    try apply wk_write_typed.
  - destruct ld.
    + kb; [apply wk_add_link | kret].
    + kb; [apply wk_zarr_copy |]. kb; [apply wk_zarr_item | kret].
  - kb; [apply keeps_map_m; intros; apply wk_get_ref |].
    kb; [apply wk_zarr_require_dataset |].
    kb; [apply wk_zarr_attrs_set |].
    kb; [apply wk_zarr_setitem |].
    kb; [apply wk_set_written | kret].
  - kb; [apply IH |]. kb; [apply wk_set_written | kret].
Qed.

Lemma wk_write_dataset parent builder ld ed es :
  keeps I any (write_dataset parent builder ld ed es).
Proof.
  unfold write_dataset. destruct (d_data builder); apply wk_write_dataset_data.
Qed.

Lemma wk_write_group : forall builder parent ld ed es,
  keeps I any (write_group parent builder ld ed es).
Proof.
  fix IH 1. intros [inf attrs groups datasets links] parent ld ed es.
  cbn [write_group g_info g_attributes g_groups g_datasets g_links].
  kb; [apply wk_get_written |].
  kb; [match goal with |- keeps _ _ (if ?b then _ else _) => destruct b end;
       [apply wk_zarr_item | apply wk_zarr_require_group] |].
  kb.
  { induction groups as [| [nm sub] groups IHl]; [kret |].
    kb; [apply IH | exact IHl]. }
  kb; [apply keeps_for_each; intros sub; kb; [apply wk_write_dataset | kret] |].
  kb; [apply keeps_for_each; intros sub; apply wk_write_link |].
  kb; [apply wk_write_attributes |].
  kb; [apply wk_set_written | kret].
Qed.

Hypothesis I_consolidated : forall store f io,
  stores io !! store = Some f -> I io ->
  I (with_stores (fun st =>
       <[ store := {| zf_nodes := zf_nodes f; zf_consolidated := true;
                      zf_remote := zf_remote f; zf_path := zf_path f |} ]> st) io).

Lemma wk_consolidate_metadata store : keeps I any (consolidate_metadata store).
Proof.
  unfold consolidate_metadata. kb; [apply wk_called |].
  apply keeps_get_bind. intros io HI.
  destruct (stores io !! store) as [f |] eqn:Hf; [| split; [exact HI | trivial]].
  split; [| trivial]. apply (I_consolidated store f io Hf HI).
Qed.

Lemma wk_write_builder f_builder ld ed es consolidate :
  keeps I any (write_builder f_builder ld ed es consolidate).
Proof.
  unfold write_builder. eapply keeps_bind; [apply keeps_get | intros io _].
  kb; [apply keeps_for_each; intros sub; kb; [apply wk_write_group | kret] |].
  kb; [apply keeps_for_each; intros sub; kb; [apply wk_write_dataset | kret] |].
  kb; [apply wk_write_attributes |].
  kb; [apply wk_exhaust_queue |].
  kb; [apply wk_set_written |].
  destruct consolidate; [| kret].
  eapply keeps_bind; [apply keeps_get | intros io' _]. apply wk_consolidate_metadata.
Qed.

End WriteInvariants.
(** ** WriteEngine: nodes, attributes and links in the store *)

Section StoreFacts.
Import Zarr IO Monad Builders.
Context {os : OsPath} {manager : BuildManager} {numpy : NumPy}.

(** Two handles on one node: the same store location and path. *)
Local Abbreviation same_node z z' :=
  (z_location z = z_location z' /\ z_path z = z_path z').

Lemma node_at_put_same z n io :
  is_Some (node_at io z) -> node_at (put_node z n io).2 z = Some n.
Proof.
  unfold node_at, put_node, modify. cbn.
  destruct (stores io !! z_location z) as [f |] eqn:Hf; cbn; [| intros [? [=]]].
  intros _. rewrite lookup_insert_eq. cbn. apply lookup_insert_eq.
Qed.

Lemma node_at_put_other z z' n io :
  ~ same_node z' z -> node_at (put_node z n io).2 z' = node_at io z'.
Proof.
  intros Hne. unfold node_at, put_node, modify. cbn.
  destruct (stores io !! z_location z) as [f |] eqn:Hf; [| reflexivity].
  destruct (decide (z_location z' = z_location z)) as [El | Nl].
  - rewrite El, lookup_insert_eq, Hf. cbn.
    apply lookup_insert_ne. intros Ep. apply Hne. split; [exact El | symmetry; exact Ep].
  - rewrite lookup_insert_ne by congruence. reflexivity.
Qed.

Lemma tr_get_set_eq {V} (d : list (string * V)) k v :
  TypeResolver.dict_get (dict_set d k v) k = Some v.
Proof. exact (dict_get_set_eq d k v). Qed.

Lemma tr_get_set_ne {V} (d : list (string * V)) k k' v :
  k <> k' -> TypeResolver.dict_get (dict_set d k v) k' = TypeResolver.dict_get d k'.
Proof. exact (dict_get_set_ne d k k' v). Qed.

Lemma attr_at_node io obj n k :
  node_at io obj = Some n ->
  attr_at io obj k = TypeResolver.dict_get (node_attrs n) k.
Proof. intros H. unfold attr_at. rewrite H. reflexivity. Qed.

Lemma zarr_attrs_set_total obj k v io n :
  node_at io obj = Some n ->
  exists io',
    zarr_attrs_set obj k v io = (Ok tt, io')
    /\ node_at io' obj = Some (set_node_attrs n (dict_set (node_attrs n) k v))
    /\ (forall z, ~ same_node z obj -> node_at io' z = node_at io z)
    /\ _written_builders io' = _written_builders io
    /\ __dci_queue io' = __dci_queue io.
Proof.
  intros Hn.
  exists (put_node obj (set_node_attrs n (dict_set (node_attrs n) k v))
            (with_calls (fun l => (l ++ [c_attrs_set (z_path obj) k v])%list) io)).2.
  split; [| split; [| split; [| split]]].
  - unfold zarr_attrs_set, bind, get. rewrite Hn. reflexivity.
  - apply node_at_put_same. rewrite node_at_with_calls, Hn. eauto.
  - intros z Hz. rewrite (node_at_put_other _ _ _ _ Hz). reflexivity.
  - reflexivity.
  - reflexivity.
Qed.

Lemma zarr_attrs_some obj io n :
  node_at io obj = Some n -> zarr_attrs obj io = (Ok (node_attrs n), io).
Proof. intros Hn. unfold zarr_attrs, bind, get, ret. rewrite Hn. reflexivity. Qed.

Lemma links_of_node io parent n :
  node_at io parent = Some n ->
  links_of io parent = match TypeResolver.dict_get (node_attrs n) "zarr_link" with
                       | Some (JList l) => l
                       | _ => []
                       end.
Proof. intros Hn. unfold links_of. rewrite (attr_at_node _ _ _ _ Hn). reflexivity. Qed.

Lemma add_link_run
  (parent : zarr_obj) (target_source target_path link_name : string) (io : ZarrIO)
  (n : znode) :
  node_at io parent = Some n ->
  links_well_formed io parent ->
  exists io',
    __add_link__ parent target_source target_path link_name io = (Ok tt, io')
    /\ links_of io' parent
       = (links_of io parent
          ++ [link_json target_source target_path link_name])%list
    /\ (forall k, k <> "zarr_link" -> attr_at io' parent k = attr_at io parent k)
    /\ (forall z, ~ same_node z parent -> node_at io' z = node_at io z)
    /\ _written_builders io' = _written_builders io
    /\ __dci_queue io' = __dci_queue io.
Proof.
  intros Hn Hlist. unfold __add_link__.
  rewrite (bind_ok _ _ _ _ _ (zarr_attrs_some _ _ _ Hn)).
  set (new := link_json target_source target_path link_name).
  unfold dict_has, dict_get.
  destruct (TypeResolver.dict_get (node_attrs n) "zarr_link") as [v |] eqn:Hv.
  - destruct (Hlist v) as [l ->].
    { rewrite (attr_at_node _ _ _ _ Hn). exact Hv. }
    cbv iota. rewrite (bind_ok (ret tt) _ io tt io eq_refl).
    rewrite (bind_ok _ _ _ _ _ (zarr_attrs_some _ _ _ Hn)). rewrite Hv.
    cbn [json_iter]. rewrite (bind_ok (ret l) _ io l io eq_refl).
    destruct (zarr_attrs_set_total parent "zarr_link" (JList (l ++ [new])%list) io n Hn)
      as (io' & Hrun & Hnode & Hother & Hw & Hq).
    exists io'. split; [exact Hrun |].
    rewrite (links_of_node _ _ _ Hnode), (links_of_node _ _ _ Hn), Hv.
    rewrite node_attrs_set, tr_get_set_eq.
    repeat split; try assumption.
    intros k Hk. rewrite (attr_at_node _ _ _ _ Hnode), (attr_at_node _ _ _ _ Hn).
    rewrite node_attrs_set. apply tr_get_set_ne. congruence.
  - destruct (zarr_attrs_set_total parent "zarr_link" (JList []) io n Hn)
      as (io1 & Hrun1 & Hnode1 & Hother1 & Hw1 & Hq1).
    cbv iota. rewrite (bind_ok _ _ _ _ _ Hrun1).
    rewrite (bind_ok _ _ _ _ _ (zarr_attrs_some _ _ _ Hnode1)).
    rewrite node_attrs_set, tr_get_set_eq.
    cbn [json_iter]. rewrite (bind_ok (ret []) _ io1 [] io1 eq_refl).
    destruct (zarr_attrs_set_total parent "zarr_link" (JList ([] ++ [new])%list)
                io1 _ Hnode1)
      as (io' & Hrun & Hnode & Hother & Hw & Hq).
    exists io'. split; [exact Hrun |].
    rewrite (links_of_node _ _ _ Hnode), (links_of_node _ _ _ Hn), Hv.
    rewrite !node_attrs_set, tr_get_set_eq.
    repeat split; try congruence.
    + intros k Hk. rewrite (attr_at_node _ _ _ _ Hnode), (attr_at_node _ _ _ _ Hn).
      rewrite !node_attrs_set.
      rewrite tr_get_set_ne by congruence. apply tr_get_set_ne. congruence.
    + intros z Hz. rewrite (Hother z Hz). apply Hother1, Hz.
Qed.

(** [__add_link__] appends: on a parent that exists, whose
    'zarr_link' attribute, if it has one, is a list, the record of the
    new link is put after the records the attribute held, the
    attribute being created when there was none; no other attribute
    and no other node changes, and nothing is marked written or
    queued. *)
Theorem links_are_appended
  (parent : zarr_obj) (target_source target_path link_name : string) (io : ZarrIO)
  (Hparent : is_Some (node_at io parent))
  (Hlist : links_well_formed io parent) :
  exists io',
    __add_link__ parent target_source target_path link_name io = (Ok tt, io')
    /\ links_of io' parent
       = (links_of io parent
          ++ [link_json target_source target_path link_name])%list
    /\ (forall k, k <> "zarr_link" -> attr_at io' parent k = attr_at io parent k)
    /\ (forall z, ~ same_node z parent -> node_at io' z = node_at io z)
    /\ _written_builders io' = _written_builders io
    /\ __dci_queue io' = __dci_queue io.
Proof.
  destruct Hparent as [n Hn].
  exact (add_link_run parent target_source target_path link_name io n Hn Hlist).
Qed.

Lemma get_written_false b io :
  b ∉ _written_builders io -> get_written b io = (Ok false, io).
Proof. intros H. rewrite get_written_eq, bool_decide_false by exact H. reflexivity. Qed.

(** [write_link] on a link that is not yet written, below a group
    that exists: one record is appended to the 'zarr_link' attribute
    of the group, under the name of the link, with the path of the
    target builder and with source "." when the link and its target
    name the same source file; the link is marked written, so that
    writing it again adds nothing. *)
Theorem written_links_are_recorded
  (parent : zarr_obj) (builder : LinkBuilder) (io : ZarrIO)
  (Hnew : ident_of (l_info builder) ∉ _written_builders io)
  (Hparent : is_Some (node_at io parent))
  (Hlist : links_well_formed io parent) :
  exists io' src,
    write_link parent builder io = (Ok tt, io')
    /\ links_of io' parent
       = (links_of io parent
          ++ [link_json src (__get_path (l_builder builder))
                (b_name (l_info builder))])%list
    /\ (b_source (l_info builder) = b_source (l_builder builder) -> src = ".")
    /\ ident_of (l_info builder) ∈ _written_builders io'
    /\ write_link parent builder io' = (Ok tt, io').
Proof.
  destruct Hparent as [n Hn].
  destruct (get_ref_run (RO_Builder (l_builder builder)) None io _ eq_refl)
    as (r & Hr & Hpath & _ & _ & Hstate).
  destruct (__get_ref (RO_Builder (l_builder builder)) None io) as [o io1] eqn:Eref.
  cbn in Hr, Hstate. subst o.
  assert (Hn1 : node_at io1 parent = Some n).
  { rewrite Hstate. destruct (walk_to_root (l_builder builder)); exact Hn. }
  assert (Hl1 : links_of io1 parent = links_of io parent).
  { rewrite Hstate. destruct (walk_to_root (l_builder builder)); reflexivity. }
  assert (Hw1 : _written_builders io1 = _written_builders io).
  { rewrite Hstate. destruct (walk_to_root (l_builder builder)); reflexivity. }
  set (src := if bool_decide (b_source (l_info builder) = b_source (l_builder builder))
              then "." else ref_source r).
  assert (Hlist1 : links_well_formed io1 parent).
  { rewrite Hstate. destruct (walk_to_root (l_builder builder)); exact Hlist. }
  destruct (add_link_run parent src (ref_path r) (b_name (l_info builder)) io1 n
              Hn1 Hlist1) as (io2 & Hrun & Hlinks & _ & _ & Hw2 & _).
  exists (with_written (fun w => {[ ident_of (l_info builder) ]} ∪ w) io2), src.
  assert (Hin : ident_of (l_info builder)
                ∈ _written_builders
                    (with_written (fun w => {[ ident_of (l_info builder) ]} ∪ w) io2)).
  { cbn. apply elem_of_union_l, elem_of_singleton. reflexivity. }
  split; [| split; [| split; [| split]]].
  - unfold write_link.
    rewrite (bind_ok _ _ _ _ _ (get_written_false _ _ Hnew)).
    rewrite (bind_ok _ _ _ _ _ Eref).
    fold src. rewrite (bind_ok _ _ _ _ _ Hrun). reflexivity.
  - transitivity (links_of io2 parent); [reflexivity |].
    rewrite Hlinks, Hl1, Hpath. reflexivity.
  - intros Hs. unfold src. rewrite bool_decide_true by exact Hs. reflexivity.
  - exact Hin.
  - apply write_link_written. exact Hin.
Qed.

End StoreFacts.
(** ** WriteEngine: the values of attributes *)

Section AttributeValues.
Import Zarr IO Monad Builders.
Context {os : OsPath} {manager : BuildManager} {numpy : NumPy}.

Lemma for_each_app {A} (l1 l2 : list A) (body : A -> M unit) io :
  for_each (l1 ++ l2) body io
  = bind (for_each l1 body) (fun _ => for_each l2 body) io.
Proof.
  revert io. induction l1 as [| x l1 IH]; intros io; [reflexivity |].
  cbn [app for_each]. unfold bind.
  destruct (body x io) as [[[] | e |] io1]; try reflexivity.
  rewrite IH. reflexivity.
Qed.

Lemma items_json_converted items l :
  items_json items = Some l -> items_json (map convert_item items) = Some l.
Proof.
  revert l. induction items as [| i items IH]; intros l; [trivial |].
  destruct i; cbn; try discriminate.
  destruct (items_json items) as [l' |]; [| discriminate].
  rewrite (IH l' eq_refl). trivial.
Qed.

Lemma items_json_tolist items l :
  items_json (tolist items) = Some l -> items_json (map convert_item items) = Some l.
Proof.
  revert l. induction items as [| i items IH]; intros l; [trivial |].
  unfold tolist in *. destruct i; cbn; try discriminate;
    (destruct (items_json (map _ items)) as [l' |]; [| discriminate]);
    rewrite (IH l' eq_refl); trivial.
Qed.

Lemma items_json_other items repr :
  AI_other repr ∈ items ->
  items_json items = None /\ items_json (tolist items) = None
  /\ items_json (map convert_item items) = None.
Proof.
  induction items as [| i items IH]; intros Hin; [apply elem_of_nil in Hin; tauto |].
  apply elem_of_cons in Hin as [<- | Hin]; [repeat split |].
  destruct (IH Hin) as (H1 & H2 & H3). unfold tolist in *.
  destruct i; cbn; rewrite ?H1, ?H2, ?H3; repeat split.
Qed.

Lemma write_attribute_unserialisable obj es k v io :
  unserialisable v ->
  exists msg, write_attribute obj es k v io = (Raise (TypeError msg), io).
Proof.
  destruct v as [items | items | r | repr | i]; cbn [unserialisable write_attribute].
  - intros [repr Hin]. destruct (items_json_other _ _ Hin) as (-> & _ & ->).
    eexists. reflexivity.
  - intros [repr Hin]. destruct (items_json_other _ _ Hin) as (_ & -> & ->).
    eexists. reflexivity.
  - intros [].
  - intros _. eexists. reflexivity.
  - destruct i; intros H; try destruct H. eexists. reflexivity.
Qed.

(** [write_attributes] is not all-or-nothing: when a value cannot be
    made serialisable the call ends in a TypeError there, the
    attributes that come before it stay written, and those after it
    are never looked at. *)
Theorem failing_attribute_keeps_the_earlier_ones
  (obj : zarr_obj) (export_source : option string)
  (earlier later : list (string * attr_value)) (key : string) (value : attr_value)
  (io io1 : ZarrIO)
  (Hearlier : write_attributes obj earlier export_source io = (Ok tt, io1))
  (Hvalue : unserialisable value) :
  exists msg,
    write_attributes obj (earlier ++ (key, value) :: later) export_source io
    = (Raise (TypeError msg), io1).
Proof.
  destruct (write_attribute_unserialisable obj export_source key value io1 Hvalue)
    as [msg Hmsg].
  exists msg. unfold write_attributes in *.
  rewrite for_each_app, (bind_ok _ _ _ _ _ Hearlier).
  rewrite for_each_cons. unfold bind. cbn [fst snd]. rewrite Hmsg. reflexivity.
Qed.

Lemma write_attribute_stores obj es k v io io' :
  write_attribute obj es k v io = (Ok tt, io') ->
  match v with
  | AV_scalar i => exists j, convert_item i = AI_json j /\ attr_at io' obj k = Some j
  | AV_sequence items | AV_ndarray items =>
      exists l, items_json (map convert_item items) = Some l
                /\ attr_at io' obj k = Some (JList l)
  | AV_reference _ => True
  | AV_ndarray0 _ => False
  end.
Proof.
  intros H.
  assert (Set_ : forall j, zarr_attrs_set obj k j io = (Ok tt, io') ->
                           attr_at io' obj k = Some j).
  { intros j Hj. apply (zarr_attrs_set_ok _ _ _ _ _ Hj). }
  destruct v as [items | items | r | repr | i]; cbn [write_attribute] in H.
  - destruct (items_json items) as [l |] eqn:E.
    + exists l. split; [apply items_json_converted, E | apply Set_, H].
    + destruct (items_json (map convert_item items)) as [l |]; [| discriminate].
      exists l. split; [reflexivity | apply Set_, H].
  - destruct (items_json (tolist items)) as [l |] eqn:E.
    + exists l. split; [apply items_json_tolist, E | apply Set_, H].
    + destruct (items_json (map convert_item items)) as [l |]; [| discriminate].
      exists l. split; [reflexivity | apply Set_, H].
  - exact Logic.I.
  - discriminate.
  - destruct i; cbn in H; try discriminate; eexists; (split; [reflexivity | apply Set_, H]).
Qed.

(** What [write_attributes] stores, once it has returned: a scalar
    as it is, a numpy scalar as its Python value, bytes decoded to
    text; a set, list, tuple or array as the JSON list of its elements
    converted in the same way.  A 0-d array is never stored. *)
Theorem attributes_are_stored_converted
  (obj : zarr_obj) (attributes : list (string * attr_value))
  (export_source : option string) (key : string) (value : attr_value)
  (io io' : ZarrIO)
  (Hkeys : NoDup (map fst attributes))
  (Hin : (key, value) ∈ attributes)
  (Hrun : write_attributes obj attributes export_source io = (Ok tt, io')) :
  match value with
  | AV_scalar i => exists j, convert_item i = AI_json j /\ attr_at io' obj key = Some j
  | AV_sequence items | AV_ndarray items =>
      exists l, items_json (map convert_item items) = Some l
                /\ attr_at io' obj key = Some (JList l)
  | AV_reference _ => True
  | AV_ndarray0 _ => False
  end.
Proof.
  revert io Hrun. unfold write_attributes.
  induction attributes as [| [k v] rest IH]; intros io Hrun.
  - apply elem_of_nil in Hin. contradiction.
  - rewrite for_each_cons in Hrun.
    apply bind_ok_inv in Hrun as ([] & io1 & Hw & Hrest). cbn in Hw.
    cbn in Hkeys. apply NoDup_cons in Hkeys as [Hfresh Hkeys].
    apply elem_of_cons in Hin as [[= <- <-] | Hin].
    + destruct (write_attributes_frame _ _ _ _ _ Hrest) as (_ & Hframe).
      pose proof (write_attribute_stores _ _ _ _ _ _ Hw) as Hs.
      rewrite (Hframe _ Hfresh). exact Hs.
    + exact (IH Hkeys Hin io1 Hrest).
Qed.

End AttributeValues.
(** ** WriteEngine: what no write changes *)

Section WriteKeeps.
Import Zarr IO Monad Builders.
Context {os : OsPath} {manager : BuildManager} {numpy : NumPy}.

(** A relation that holds of an IO object and itself and that every
    elementary step of the write engine extends is kept by its
    methods. *)
Lemma writing_keeps (R : ZarrIO -> ZarrIO -> Prop) :
  (forall io, R io io) ->
  (forall io0 f io, R io0 io -> R io0 (with_calls f io)) ->
  (forall io0 f io, R io0 io -> R io0 (with_warned f io)) ->
  (forall io0 b io, R io0 io -> R io0 (with_written (fun w => {[ b ]} ∪ w) io)) ->
  (forall io0 f io, R io0 io -> R io0 (with_dci_queue f io)) ->
  (forall io0 z n io,
      (forall n0, node_at io z = Some n0 -> is_group n0 = is_group n) ->
      R io0 io -> R io0 (put_node z n io).2) ->
  (forall io0 store f io,
      stores io !! store = Some f -> R io0 io ->
      R io0 (with_stores (fun st =>
               <[ store := {| zf_nodes := zf_nodes f; zf_consolidated := true;
                              zf_remote := zf_remote f; zf_path := zf_path f |} ]> st)
               io)) ->
  kept_by_writing R.
Proof.
  intros Hrefl Hc Hw Hwr Hq Hp Hcons.
  assert (Run : forall A (m : M A) io,
            keeps (R io) (fun _ => True) m -> R io (m io).2).
  { intros A m io K. exact (proj1 (K io (Hrefl io))). }
  repeat split; intros; apply Run;
    first [ apply wk_write_attributes | apply wk_write_link | apply wk_write_dataset
          | apply wk_write_group | apply wk_write_builder ];
    intros;
    first [ apply Hc | apply Hw | apply Hwr | apply Hq | apply Hp | eapply Hcons ];
    eassumption.
Qed.

Lemma written_grows :
  kept_by_writing (fun io io' => _written_builders io ⊆ _written_builders io').
Proof.
  apply writing_keeps; try (intros; assumption).
  - intros io. reflexivity.
  - intros io0 b io H. cbn. etrans; [exact H |]. apply union_subseteq_r.
Qed.

(** Writing only adds to the set of written builders: a builder that
    is marked written stays so through every call of the write engine,
    also through one that ends in an exception. *)
Theorem writing_only_marks_builders :
  kept_by_writing (fun io io' => _written_builders io ⊆ _written_builders io').
Proof. exact written_grows. Qed.

(** Writing leaves alone what belongs to reading and to the identity
    of the file: the cache of built builders, the builders constructed
    on read, and the source, path and root handle of the IO object. *)
Theorem writing_leaves_the_read_state :
  kept_by_writing (fun io io' =>
    __built io' = __built io /\ objects io' = objects io
    /\ source io' = source io /\ path io' = path io /\ file io' = file io).
Proof.
  apply writing_keeps; try (intros; assumption).
  intros io. repeat split.
Qed.

Lemma node_at_consolidated store f io z :
  stores io !! store = Some f ->
  node_at (with_stores (fun st =>
             <[ store := {| zf_nodes := zf_nodes f; zf_consolidated := true;
                            zf_remote := zf_remote f; zf_path := zf_path f |} ]> st) io) z
  = node_at io z.
Proof.
  intros Hf. unfold node_at. cbn.
  destruct (decide (z_location z = store)) as [-> | Hne].
  - rewrite lookup_insert_eq, Hf. reflexivity.
  - rewrite lookup_insert_ne by congruence. reflexivity.
Qed.

(** Writing never removes a node and never turns a group into an
    array or an array into a group: every node of every store is still
    there, with its kind, after any call of the write engine. *)
Theorem writing_keeps_nodes_and_their_kind :
  kept_by_writing (fun io io' =>
    forall z n, node_at io z = Some n ->
      exists n', node_at io' z = Some n' /\ is_group n' = is_group n).
Proof.
  apply writing_keeps.
  - intros io z n H. exists n. split; [exact H | reflexivity].
  - intros io0 f io H. exact H.
  - intros io0 f io H. exact H.
  - intros io0 b io H. exact H.
  - intros io0 f io H. exact H.
  - intros io0 z n io Hkind H z' n0 Hn0.
    destruct (H z' n0 Hn0) as (n1 & Hn1 & Hk1).
    destruct (decide (z_location z' = z_location z /\ z_path z' = z_path z))
      as [[El Ep] | Hne].
    + assert (Hz : node_at io z = Some n1).
      { unfold node_at in *. rewrite <- El, <- Ep. exact Hn1. }
      exists n. split.
      * assert (Hput : node_at (put_node z n io).2 z = Some n).
        { apply node_at_put_same. rewrite Hz. eauto. }
        unfold node_at in *. rewrite El, Ep. exact Hput.
      * rewrite <- Hk1. symmetry. apply Hkind, Hz.
    + exists n1. split; [| exact Hk1].
      rewrite node_at_put_other by exact Hne. exact Hn1.
  - intros io0 store f io Hf H z n Hn.
    destruct (H z n Hn) as (n1 & Hn1 & Hk1). exists n1. split; [| exact Hk1].
    rewrite (node_at_consolidated _ _ _ _ Hf). exact Hn1.
Qed.

End WriteKeeps.
(** ** WriteEngine: what a write that returned has done *)

Section WrittenAfter.
Import Zarr IO Monad Builders.
Context {os : OsPath} {manager : BuildManager} {numpy : NumPy}.

Lemma exhaust_queue_written b io :
  b ∈ _written_builders io -> b ∈ _written_builders (exhaust_queue io).2.
Proof.
  intros H.
  refine (proj1 (wk_exhaust_queue (fun io => b ∈ _written_builders io) _ _ _ io H));
    intros; assumption.
Qed.

Lemma set_written_in b io : b ∈ _written_builders (set_written b io).2.
Proof. cbn. apply elem_of_union_l, elem_of_singleton. reflexivity. Qed.

Lemma write_dataset_data_marks parent builder es data settings ld ed io r io' :
  write_dataset_data parent builder es data settings ld ed io = (Ok r, io') ->
  ident_of (d_info builder) ∈ _written_builders io'.
Proof.
  intros H.
  assert (Tail : forall (x : bool * option zarr_obj) io2,
    (let '(linked, dset) := x in
     (if linked then ret tt
      else match dset with
           | Some d => write_attributes d (d_attributes builder) None
           | None => raise (TypeError "incorrect type for 'obj' (got 'NoneType')")
           end) ;;;
     set_written (ident_of (d_info builder)) ;;;
     (if ed then exhaust_queue else ret tt) ;;; ret dset) io2 = (Ok r, io') ->
    ident_of (d_info builder) ∈ _written_builders io').
  { intros [linked dset] io2 HT.
    apply bind_ok_inv in HT as ([] & io3 & _ & HT).
    apply bind_ok_inv in HT as ([] & io4 & Hset & HT).
    apply bind_ok_inv in HT as ([] & io5 & Hex & HT).
    injection HT as _ <-.
    assert (H4 : ident_of (d_info builder) ∈ _written_builders io4).
    { pose proof (set_written_in (ident_of (d_info builder)) io3) as S.
      rewrite Hset in S. exact S. }
    destruct ed.
    - pose proof (exhaust_queue_written _ _ H4) as E. rewrite Hex in E. exact E.
    - injection Hex as <-. exact H4. }
  destruct data; cbn [write_dataset_data] in H;
    apply bind_ok_inv in H as ([] & io1 & _ & H);
    apply bind_ok_inv in H as (written & io1' & Hw & H);
    rewrite get_written_eq in Hw; injection Hw as <- <-;
    (destruct (bool_decide (ident_of (d_info builder) ∈ _written_builders io1)) eqn:E;
     [ injection H as _ <-; apply bool_decide_eq_true in E; exact E |]);
    apply bind_ok_inv in H as (x & io2 & _ & H); exact (Tail x io2 H).
Qed.

Lemma write_dataset_marks parent builder ld ed es io r io' :
  write_dataset parent builder ld ed es io = (Ok r, io') ->
  ident_of (d_info builder) ∈ _written_builders io'.
Proof.
  unfold write_dataset. destruct (d_data builder); apply write_dataset_data_marks.
Qed.

(** A call of [write_dataset] that returns leaves the builder marked
    written, whatever its data were; any later call on that builder,
    with any parent and any flags, returns None and writes nothing. *)
Theorem a_written_dataset_is_not_written_again
  (parent : zarr_obj) (builder : DatasetBuilder)
  (link_data exhaust_dci : bool) (export_source : option string)
  (io io' : ZarrIO) (r : option zarr_obj)
  (Hrun : write_dataset parent builder link_data exhaust_dci export_source io
          = (Ok r, io')) :
  ident_of (d_info builder) ∈ _written_builders io'
  /\ forall parent' link_data' exhaust_dci' export_source',
       write_dataset parent' builder link_data' exhaust_dci' export_source' io'
       = (Ok None, queue_ready exhaust_dci' io').
Proof.
  pose proof (write_dataset_marks _ _ _ _ _ _ _ _ Hrun) as Hin.
  split; [exact Hin |]. intros. apply write_dataset_written. exact Hin.
Qed.

Lemma write_link_marks parent builder io io' :
  write_link parent builder io = (Ok tt, io') ->
  ident_of (l_info builder) ∈ _written_builders io'.
Proof.
  unfold write_link. intros H.
  apply bind_ok_inv in H as (written & io1 & Hw & H).
  rewrite get_written_eq in Hw. injection Hw as <- <-.
  destruct (bool_decide (ident_of (l_info builder) ∈ _written_builders io)) eqn:E.
  - injection H as <-. apply bool_decide_eq_true in E. exact E.
  - apply bind_ok_inv in H as (ref & io2 & _ & H).
    apply bind_ok_inv in H as ([] & io3 & _ & H).
    pose proof (set_written_in (ident_of (l_info builder)) io3) as S.
    rewrite H in S. exact S.
Qed.

(** What a loop has marked stays marked to its end. *)
Lemma for_each_marks {A} (l : list A) (body : A -> M unit) (mark : A -> ident) :
  (forall x io io', body x io = (Ok tt, io') -> mark x ∈ _written_builders io') ->
  (forall x io, _written_builders io ⊆ _written_builders (body x io).2) ->
  forall io io', for_each l body io = (Ok tt, io') ->
  forall x, x ∈ l -> mark x ∈ _written_builders io'.
Proof.
  intros Hmark Hmono. induction l as [| y l IH]; intros io io' H x Hx.
  - apply elem_of_nil in Hx. contradiction.
  - rewrite for_each_cons in H. apply bind_ok_inv in H as ([] & io1 & Hy & H).
    apply elem_of_cons in Hx as [-> | Hx]; [| exact (IH _ _ H x Hx)].
    assert (Hrest : _written_builders io1 ⊆ _written_builders io').
    { clear -Hmono H. revert io1 H. induction l as [| z l IHl]; intros io1 H.
      - injection H as <-. reflexivity.
      - rewrite for_each_cons in H. apply bind_ok_inv in H as ([] & io2 & Hz & H).
        etrans; [| exact (IHl _ H)].
        pose proof (Hmono z io1) as M. rewrite Hz in M. exact M. }
    apply Hrest, (Hmark _ _ _ Hy).
Qed.

Lemma for_each_written_grows {A} (l : list A) (body : A -> M unit) :
  (forall x io, _written_builders io ⊆ _written_builders (body x io).2) ->
  forall io, _written_builders io ⊆ _written_builders (for_each l body io).2.
Proof.
  intros Hmono. induction l as [| y l IH]; intros io; [reflexivity |].
  rewrite for_each_cons. unfold bind.
  pose proof (Hmono y io) as M.
  destruct (body y io) as [[[] | e |] io1]; cbn in *; try exact M.
  etrans; [exact M | apply IH].
Qed.

Lemma then_ret_state {A} (m : M A) io : ((m ;;; ret tt) io).2 = (m io).2.
Proof. unfold bind. destruct (m io) as [[a | e |] io1]; reflexivity. Qed.

Lemma then_ret_ok {A} (m : M A) io io' :
  (m ;;; ret tt) io = (Ok tt, io') -> exists a, m io = (Ok a, io').
Proof. intros H. apply bind_ok_inv in H as (a & io1 & Hm & [= <-]). eauto. Qed.

Lemma run_grows {A} (m : M A) io o io' :
  _written_builders io ⊆ _written_builders (m io).2 -> m io = (o, io') ->
  _written_builders io ⊆ _written_builders io'.
Proof. intros H E. rewrite E in H. exact H. Qed.

(** A call of [write_group] that returns has marked the group and all
    that is in it: its datasets, its links, and its sub groups with
    all that is in them. *)
Theorem a_written_group_is_marked_with_its_members :
  forall (builder : GroupBuilder) (parent : zarr_obj)
         (link_data exhaust_dci : bool) (export_source : option string)
         (io io' : ZarrIO) (group : zarr_obj),
    write_group parent builder link_data exhaust_dci export_source io = (Ok group, io') ->
    forall b, b ∈ builders_of builder -> b ∈ _written_builders io'.
Proof.
  destruct written_grows as (Gattrs & Glink & Gdataset & Ggroup & _).
  fix IH 1. intros [inf attrs groups datasets links] parent ld ed es io io' group H b Hb.
  cbn [write_group g_info g_attributes g_groups g_datasets g_links] in H.
  apply bind_ok_inv in H as (written & io1 & _ & H).
  apply bind_ok_inv in H as (grp & io2 & _ & H).
  apply bind_ok_inv in H as ([] & io3 & Hsub & H).
  apply bind_ok_inv in H as ([] & io4 & Hds & H).
  apply bind_ok_inv in H as ([] & io5 & Hln & H).
  apply bind_ok_inv in H as ([] & io6 & Hat & H).
  apply bind_ok_inv in H as ([] & io7 & Hset & H).
  injection H as _ <-.
  assert (H34 : _written_builders io3 ⊆ _written_builders io4).
  { refine (run_grows _ _ _ _ _ Hds). apply for_each_written_grows.
    intros x io0. rewrite then_ret_state. apply Gdataset. }
  assert (H45 : _written_builders io4 ⊆ _written_builders io5).
  { refine (run_grows _ _ _ _ _ Hln). apply for_each_written_grows.
    intros x io0. apply Glink. }
  assert (H56 : _written_builders io5 ⊆ _written_builders io6).
  { exact (run_grows _ _ _ _ (Gattrs _ _ _ _) Hat). }
  assert (H67 : _written_builders io6 ⊆ _written_builders io7).
  { injection Hset as <-. cbn. apply union_subseteq_r. }
  cbn [builders_of g_info g_groups g_datasets g_links] in Hb.
  apply elem_of_cons in Hb as [-> | Hb].
  { pose proof (set_written_in (ident_of inf) io6) as S. rewrite Hset in S. exact S. }
  apply elem_of_app in Hb as [Hb | Hb].
  { apply H67, H56, H45, H34. clear -IH Ggroup Hsub Hb.
    revert io2 Hsub Hb. induction groups as [| [nm sub] groups IHl]; intros io2 Hsub Hb.
    - apply elem_of_nil in Hb. contradiction.
    - apply bind_ok_inv in Hsub as (g' & io2' & Hg & Hrest).
      apply elem_of_app in Hb as [Hb | Hb]; [| exact (IHl _ Hrest Hb)].
      pose proof (IH sub _ _ _ _ _ _ _ Hg b Hb) as Hin.
      clear -Ggroup Hrest Hin. revert io2' Hrest Hin.
      induction groups as [| [nm' sub'] groups IHl]; intros io2' Hrest Hin.
      + injection Hrest as <-. exact Hin.
      + apply bind_ok_inv in Hrest as (g'' & io2'' & Hg' & Hrest).
        apply (IHl _ Hrest).
        exact (run_grows _ _ _ _ (Ggroup _ _ _ _ _ _) Hg' _ Hin). }
  apply elem_of_app in Hb as [Hb | Hb].
  - apply H67, H56, H45.
    apply list_elem_of_In, in_map_iff in Hb as (sub & <- & Hsubin);
    apply list_elem_of_In in Hsubin.
    refine (for_each_marks datasets _ (fun sub => ident_of (d_info sub.2))
              _ _ io3 io4 Hds sub Hsubin).
    + intros x io0 io0' Hx. apply then_ret_ok in Hx as [r Hx].
      exact (write_dataset_marks _ _ _ _ _ _ _ _ Hx).
    + intros x io0. rewrite then_ret_state. apply Gdataset.
  - apply H67, H56.
    apply list_elem_of_In, in_map_iff in Hb as (sub & <- & Hsubin);
    apply list_elem_of_In in Hsubin.
    refine (for_each_marks links _ (fun sub => ident_of (l_info sub.2))
              _ _ io4 io5 Hln sub Hsubin).
    + intros x io0 io0' Hx. exact (write_link_marks _ _ _ _ Hx).
    + intros x io0. apply Glink.
Qed.

Lemma exhaust_queue_empties io io' :
  exhaust_queue io = (Ok tt, io') -> __dci_queue io' = Some [].
Proof.
  unfold exhaust_queue. rewrite (bind_ok get _ io io io eq_refl).
  destruct (__dci_queue io) as [q |]; [| discriminate]. intros H.
  apply bind_ok_inv in H as ([] & io1 & _ & H).
  apply bind_ok_inv in H as ([] & io2 & _ & H).
  injection H as <-. reflexivity.
Qed.

Lemma consolidate_metadata_ok store io io' :
  consolidate_metadata store io = (Ok tt, io') ->
  (exists f, stores io' !! store = Some f /\ zf_consolidated f = true)
  /\ __dci_queue io' = __dci_queue io
  /\ _written_builders io' = _written_builders io
  /\ path io' = path io.
Proof.
  unfold consolidate_metadata. intros H.
  apply bind_ok_inv in H as ([] & io1 & Hc & H). injection Hc as <-.
  rewrite (bind_ok get _ _ _ _ eq_refl) in H.
  match type of H with
  | context [stores ?i !! store] => destruct (stores i !! store) as [f |]
  end; [| discriminate].
  injection H as <-. cbn. rewrite lookup_insert_eq. repeat split. eauto.
Qed.

Lemma node_at_key io z z' : node_key z = node_key z' -> node_at io z = node_at io z'.
Proof. unfold node_key. intros [= El Ep]. unfold node_at. rewrite El, Ep. reflexivity. Qed.

Lemma fill_run dset data io io' :
  fill dset data io = (Ok tt, io') ->
  (exists attrs arr,
     node_at io' dset = Some (ZArray attrs arr) /\ a_data arr = data)
  /\ (forall z, node_key z <> node_key dset -> node_at io' z = node_at io z)
  /\ __dci_queue io' = __dci_queue io.
Proof.
  unfold fill. rewrite (bind_ok get _ _ _ _ eq_refl).
  destruct (node_at io dset) as [[attrs | attrs arr] |] eqn:Hn; try discriminate.
  intros H. pose proof (f_equal snd H) as E. cbn [snd] in E. rewrite <- E.
  split; [| split; [| reflexivity]].
  - exists attrs, {| a_shape := a_shape arr; a_chunks := a_chunks arr;
                     a_dtype := a_dtype arr; a_object_codec := a_object_codec arr;
                     a_data := data |}.
    split; [| reflexivity]. apply node_at_put_same. rewrite Hn. eauto.
  - intros z Hz. apply node_at_put_other. intros [El Ep]. apply Hz.
    unfold node_key. congruence.
Qed.

Lemma fill_loop : forall (q : list (zarr_obj * chunk_iterator)) io io',
  for_each q (fun e => fill e.1 (AD_values (dci_values e.2))) io = (Ok tt, io') ->
  (forall z, node_key z ∉ map (fun e : zarr_obj * chunk_iterator => node_key e.1) q ->
             node_at io' z = node_at io z)
  /\ (NoDup (map (fun e : zarr_obj * chunk_iterator => node_key e.1) q) ->
      forall dset it, (dset, it) ∈ q ->
        exists attrs arr, node_at io' dset = Some (ZArray attrs arr)
                          /\ a_data arr = AD_values (dci_values it)).
Proof.
  induction q as [| [d i] q IH]; intros io io' H.
  - injection H as <-. split; [reflexivity |].
    intros _ dset it Hin. apply elem_of_nil in Hin. contradiction.
  - rewrite for_each_cons in H. apply bind_ok_inv in H as ([] & io1 & Hf & H).
    cbn [fst snd] in Hf.
    destruct (fill_run _ _ _ _ Hf) as ((attrs & arr & Hn & Hd) & Hother & _).
    destruct (IH _ _ H) as (Hrest & Hfilled).
    split.
    + intros z Hz. cbn in Hz. apply not_elem_of_cons in Hz as [Hne Hz].
      rewrite (Hrest z Hz). apply Hother, Hne.
    + intros Hnd dset it Hin. cbn in Hnd. apply NoDup_cons in Hnd as [Hfresh Hnd].
      apply elem_of_cons in Hin as [[= -> ->] | Hin]; [| exact (Hfilled Hnd _ _ Hin)].
      exists attrs, arr. split; [| exact Hd].
      rewrite (Hrest d Hfresh). exact Hn.
Qed.

Lemma exhaust_queue_run io io' q :
  __dci_queue io = Some q ->
  exhaust_queue io = (Ok tt, io') ->
  (NoDup (map (fun e : zarr_obj * chunk_iterator => node_key e.1) q) ->
   forall dset it, (dset, it) ∈ q ->
     exists attrs arr, node_at io' dset = Some (ZArray attrs arr)
                       /\ a_data arr = AD_values (dci_values it))
  /\ (forall z, node_key z ∉ map (fun e : zarr_obj * chunk_iterator => node_key e.1) q ->
                node_at io' z = node_at io z)
  /\ __dci_queue io' = Some [].
Proof.
  intros Hqueue Hrun. unfold exhaust_queue in Hrun.
  rewrite (bind_ok get _ _ _ _ eq_refl), Hqueue in Hrun.
  apply bind_ok_inv in Hrun as ([] & io1 & Hc & H). injection Hc as <-.
  apply bind_ok_inv in H as ([] & io2 & Hloop & H). injection H as <-.
  destruct (fill_loop _ _ _ Hloop) as (Hrest & Hfilled).
  split; [exact Hfilled | split; [| reflexivity]].
  intros z Hz. exact (Hrest z Hz).
Qed.

(** When [write_builder] returns, the queue of chunk iterators has
    been written out: every array that was waiting in the queue when
    the sub groups, datasets and attributes of the root builder had
    been written holds the values of its iterator (the queue naming
    each array once), the other nodes are as those writes left them,
    and the queue is empty.  The root builder is marked written, and,
    where it was asked for, the store at the path of the IO object
    has consolidated metadata. *)
Theorem write_builder_writes_out_the_queue
  (f_builder : GroupBuilder) (link_data exhaust_dci : bool)
  (export_source : option string) (consolidate : bool) (io io' : ZarrIO)
  (Hrun : write_builder f_builder link_data exhaust_dci export_source consolidate io
          = (Ok tt, io')) :
  exists io1 q,
    write_members f_builder link_data exhaust_dci export_source io = (Ok tt, io1)
    /\ __dci_queue io1 = Some q
    /\ (NoDup (map (fun e : zarr_obj * chunk_iterator => node_key e.1) q) ->
        forall dset it, (dset, it) ∈ q ->
          exists attrs arr, node_at io' dset = Some (ZArray attrs arr)
                            /\ a_data arr = AD_values (dci_values it))
    /\ (forall z,
          node_key z ∉ map (fun e : zarr_obj * chunk_iterator => node_key e.1) q ->
          node_at io' z = node_at io1 z)
    /\ __dci_queue io' = Some []
    /\ ident_of (g_info f_builder) ∈ _written_builders io'
    /\ (consolidate = true ->
        exists f, stores io' !! path io' = Some f /\ zf_consolidated f = true).
Proof.
  unfold write_builder in Hrun.
  rewrite (bind_ok get _ io io io eq_refl) in Hrun.
  apply bind_ok_inv in Hrun as ([] & io1 & H1 & H).
  apply bind_ok_inv in H as ([] & io2 & H2 & H).
  apply bind_ok_inv in H as ([] & io3 & H3 & H).
  apply bind_ok_inv in H as ([] & io4 & Hex & H).
  apply bind_ok_inv in H as ([] & io5 & Hset & H).
  assert (Hq : is_Some (__dci_queue io3)).
  { unfold exhaust_queue in Hex. rewrite (bind_ok get _ _ _ _ eq_refl) in Hex.
    destruct (__dci_queue io3); [eauto | discriminate]. }
  destruct Hq as [q Hq].
  destruct (exhaust_queue_run _ _ _ Hq Hex) as (Hfilled & Hrest & Hempty).
  injection Hset as <-.
  assert (Hnodes : forall z, node_at io' z = node_at io4 z
                   /\ __dci_queue io' = __dci_queue io4
                   /\ _written_builders io'
                      = {[ ident_of (g_info f_builder) ]} ∪ _written_builders io4).
  { destruct consolidate.
    - rewrite (bind_ok get _ _ _ _ eq_refl) in H.
      unfold consolidate_metadata in H.
      apply bind_ok_inv in H as ([] & io6 & Hc & H). injection Hc as <-.
      rewrite (bind_ok get _ _ _ _ eq_refl) in H.
      match type of H with
      | context [stores ?i !! ?p] => destruct (stores i !! p) as [f |] eqn:Hf
      end; [| discriminate].
      injection H as <-. intros z. split; [| split; reflexivity].
      rewrite (node_at_consolidated _ _ _ _ Hf). reflexivity.
    - injection H as <-. intros z. repeat split. }
  exists io3, q. split; [| split; [exact Hq | split; [| split; [| split; [| split]]]]].
  - unfold write_members. rewrite (bind_ok get _ io io io eq_refl).
    rewrite (bind_ok _ _ _ _ _ H1), (bind_ok _ _ _ _ _ H2). exact H3.
  - intros Hnd dset it Hin. destruct (Hfilled Hnd dset it Hin) as (attrs & arr & Hn & Hd).
    exists attrs, arr. split; [| exact Hd].
    rewrite (proj1 (Hnodes dset)). exact Hn.
  - intros z Hz. rewrite (proj1 (Hnodes z)). apply Hrest, Hz.
  - rewrite (proj1 (proj2 (Hnodes (file io)))). exact Hempty.
  - rewrite (proj2 (proj2 (Hnodes (file io)))).
    apply elem_of_union_l, elem_of_singleton. reflexivity.
  - intros ->. rewrite (bind_ok get _ _ _ _ eq_refl) in H.
    destruct (consolidate_metadata_ok _ _ _ H) as (Hc & _ & _ & Hp).
    rewrite Hp. exact Hc.
Qed.

Lemma child_is_not_parent parent name :
  ~ (z_location (child parent name) = z_location parent
     /\ z_path (child parent name) = z_path parent).
Proof.
  intros [_ H]. cbn in H. apply (f_equal List.length) in H.
  rewrite length_app in H. cbn in H. lia.
Qed.

(** [write_dataset] on a builder whose data is a Zarr array, with
    linking on: the array is not copied.  The call returns None, no
    node is made under the name of the builder, the attributes of the
    builder are not written anywhere; the parent gets a link record
    with the path of the array's store and the name of the array, and
    the builder is marked written. *)
Theorem a_linked_array_is_not_copied
  (parent : zarr_obj) (builder : DatasetBuilder) (a : zarr_obj)
  (exhaust_dci : bool) (export_source : option string) (io : ZarrIO)
  (Hdata : d_data builder = Plain (Data_Array a))
  (Hnew : ident_of (d_info builder) ∉ _written_builders io)
  (Hparent : is_Some (node_at io parent))
  (Hlist : links_well_formed io parent)
  (Hqueue : __dci_queue io = Some []) :
  exists io',
    write_dataset parent builder true exhaust_dci export_source io = (Ok None, io')
    /\ links_of io' parent
       = (links_of io parent
          ++ [link_json (__get_store_path a) (name_str a) (b_name (d_info builder))])%list
    /\ node_at io' (child parent (b_name (d_info builder)))
       = node_at io (child parent (b_name (d_info builder)))
    /\ (forall k, k <> "zarr_link" -> attr_at io' parent k = attr_at io parent k)
    /\ ident_of (d_info builder) ∈ _written_builders io'.
Proof.
  destruct Hparent as [n Hn].
  destruct (add_link_run parent (__get_store_path a) (name_str a)
              (b_name (d_info builder)) io n Hn Hlist)
    as (io1 & Hrun & Hlinks & Hattrs & Hnodes & Hw & Hq).
  assert (Hinit : (if exhaust_dci then init_dci_queue else ret tt) io = (Ok tt, io)).
  { destruct exhaust_dci; [| reflexivity].
    unfold init_dci_queue, modify. destruct io; cbn in *. subst. reflexivity. }
  set (io2 := with_written (fun w => {[ ident_of (d_info builder) ]} ∪ w) io1).
  assert (Hex : exists io3,
             (if exhaust_dci then exhaust_queue else ret tt) io2 = (Ok tt, io3)
             /\ stores io3 = stores io2
             /\ _written_builders io3 = _written_builders io2).
  { destruct exhaust_dci; [| exists io2; repeat split].
    unfold exhaust_queue. rewrite (bind_ok get _ _ _ _ eq_refl).
    change (__dci_queue io2) with (__dci_queue io1). rewrite Hq, Hqueue.
    eexists. split; [reflexivity | split; reflexivity]. }
  destruct Hex as (io3 & Hex & Hst & Hwr).
  exists io3. split; [| split; [| split; [| split]]].
  - unfold write_dataset. rewrite Hdata. cbn [write_dataset_data].
    rewrite (bind_ok _ _ _ _ _ Hinit).
    rewrite (bind_ok _ _ _ _ _ (get_written_false _ _ Hnew)).
    rewrite (bind_ok _ _ io (true, None) io1);
      [| rewrite (bind_ok _ _ _ _ _ Hrun); reflexivity].
    cbv iota. rewrite (bind_ok (ret tt) _ io1 tt io1 eq_refl).
    rewrite (bind_ok (set_written (ident_of (d_info builder))) _ io1 tt io2 eq_refl).
    rewrite (bind_ok _ _ _ _ _ Hex). reflexivity.
  - unfold links_of, attr_at, node_at in *. rewrite Hst. exact Hlinks.
  - unfold node_at in *. rewrite Hst. apply Hnodes, child_is_not_parent.
  - intros k Hk. unfold attr_at, node_at in *. rewrite Hst. exact (Hattrs k Hk).
  - rewrite Hwr. apply set_written_in.
Qed.

End WrittenAfter.
(** ** ReadEngine: what reading keeps and what it returns *)

Section ReadKeeps.
Import Zarr IO Monad Builders.
Context {os : OsPath} {manager : BuildManager} {numpy : NumPy}.

(** A relation that holds of an IO object and itself and that every
    elementary step of the read engine extends is kept by its
    methods. *)
Lemma reading_keeps (R : ZarrIO -> ZarrIO -> Prop) :
  (forall io, R io io) ->
  (forall io0 msg io, R io0 io -> R io0 (with_warned (fun w => (w ++ [msg])%list) io)) ->
  (forall io0 f io, R io0 io -> R io0 (with_written f io)) ->
  (forall io0 k b io, R io0 io ->
     R io0 (with_built (fun m => match m !! k with
                                 | Some _ => m
                                 | None => <[ k := b ]> m
                                 end) io)) ->
  (forall io0 b io, R io0 io -> R io0 (with_objects (fun l => (l ++ [b])%list) io)) ->
  (forall io0 id f io,
     (forall b, built_attributes (f b) = built_attributes b) ->
     R io0 io -> R io0 (with_objects (alter f id) io)) ->
  kept_by_reading R.
Proof.
  intros Hrefl Hw Hwr Hb Hc Hu.
  assert (K : forall io0 depth,
    (forall z name, keeps (R io0) (fun _ => True) (__read_group depth z name))
    /\ (forall z parent, keeps (R io0) (fun _ => True) (__read_links depth z parent))
    /\ (forall z name, keeps (R io0) (fun _ => True) (__read_dataset depth z name))
    /\ (forall z, keeps (R io0) reserved_free (__read_attrs depth z))).
  { intros io0 depth. apply read_keeps; intros;
      first [ apply Hw | apply Hwr | apply Hb | apply Hc | apply Hu ]; assumption. }
  repeat split; intros.
  - apply (proj1 (K io depth)), Hrefl.
  - apply (proj1 (proj2 (K io depth))), Hrefl.
  - apply (proj1 (proj2 (proj2 (K io depth)))), Hrefl.
  - apply (proj2 (proj2 (proj2 (K io depth)))), Hrefl.
  - unfold read_builder. rewrite (bind_ok get _ io io io eq_refl).
    apply (proj1 (K io depth)), Hrefl.
Qed.

Lemma reading_is_read_only :
  kept_by_reading (fun io io' =>
    stores io' = stores io /\ calls io' = calls io
    /\ __dci_queue io' = __dci_queue io
    /\ source io' = source io /\ path io' = path io /\ file io' = file io).
Proof.
  apply reading_keeps; try (intros; assumption).
  intros io. repeat split.
Qed.

(** Reading writes nothing: no call of the read engine changes a
    store, makes a call that writes to one, touches the queue of chunk
    iterators or the source, path and root handle of the IO object,
    also when it ends in an exception. *)
Theorem reading_changes_no_store :
  kept_by_reading (fun io io' =>
    stores io' = stores io /\ calls io' = calls io
    /\ __dci_queue io' = __dci_queue io
    /\ source io' = source io /\ path io' = path io /\ file io' = file io).
Proof. exact reading_is_read_only. Qed.

(** [resolve_ref] is a pure look-up: it leaves the IO object as it
    was, and what it answers depends on the source, the path, the root
    handle and the stores only, not on what has been read, written or
    warned about before. *)
Theorem resolving_a_reference_changes_nothing
  (zarr_ref : list (string * json)) (io : ZarrIO) :
  (resolve_ref zarr_ref io).2 = io
  /\ forall io', same_world io io' ->
       (resolve_ref zarr_ref io).1 = (resolve_ref zarr_ref io').1.
Proof.
  split; [apply resolve_ref_pure |]. intros io' H. apply resolve_ref_world, H.
Qed.

(** The steps of a chain of binds that ended well. *)
Ltac split_binds H :=
  repeat (apply bind_ok_inv in H;
          let a := fresh "a" in
          let io := fresh "io" in
          let Hm := fresh "Hm" in
          destruct H as (a & io & Hm & H); cbv beta in H).

Lemma set_built_written z r io :
  _written_builders (__set_built z r io).2 = _written_builders io.
Proof. reflexivity. Qed.

(** The builder a read constructs is marked written before it is
    returned: after a call of [__read_group] or [__read_dataset] that
    found nothing in the cache and returned, the builder it returned
    is in the set of written builders, so that a later write of it is
    skipped. *)
Theorem builders_read_are_marked_written
  (depth : nat) (zarr_obj : zarr_obj) (name : option string)
  (io io' : ZarrIO) (r : nat)
  (Hmiss : __built io !! built_key zarr_obj = None)
  (Hread : __read_group depth zarr_obj name io = (Ok r, io')
           \/ __read_dataset depth zarr_obj name io = (Ok r, io')) :
  inr r ∈ _written_builders io'.
Proof.
  destruct depth as [| depth]; [destruct Hread; discriminate |].
  destruct Hread as [H | H].
  - cbn [__read_group] in H.
    rewrite (bind_ok _ _ _ _ _ (get_built_eq zarr_obj io)), Hmiss in H.
    split_binds H. injection H as <- <-.
    match goal with
    | Hs : __set_built _ _ ?i = (Ok _, ?j), Hw : set_written (inr ?x) ?k = (Ok _, ?i)
      |- _ =>
        pose proof (set_built_written zarr_obj x i) as E; rewrite Hs in E;
        cbn [snd] in E; rewrite E;
        pose proof (set_written_in (inr x) k) as S; rewrite Hw in S; exact S
    end.
  - cbn [__read_dataset] in H.
    rewrite (bind_ok _ _ _ _ _ (get_built_eq zarr_obj io)), Hmiss in H.
    rewrite (bind_ok _ _ _ _ _ (eq_refl : get io = (Ok io, io))) in H.
    destruct (node_at io zarr_obj) as [[attrs | attrs arr] |];
      [destruct (dict_has attrs "zarr_dtype"); discriminate | | discriminate].
    split_binds H. injection H as <- <-.
    match goal with
    | Hs : __set_built _ _ ?i = (Ok _, ?j), Hw : set_written (inr ?x) ?k = (Ok _, ?i)
      |- _ =>
        pose proof (set_built_written zarr_obj x i) as E; rewrite Hs in E;
        cbn [snd] in E; rewrite E;
        pose proof (set_written_in (inr x) k) as S; rewrite Hw in S; exact S
    end.
Qed.

(** [get_builder] raises a ValueError for an object no read has
    returned a builder for, as long as nothing is cached under its
    key; once [__read_group] or [__read_dataset] has returned for the
    object, [get_builder] answers with the cached builder, and when
    the reads from the object do not come back to it that is the
    builder the read returned. *)
Theorem get_builder_answers_after_a_read
  (depth : nat) (zarr_obj : zarr_obj) (name : option string)
  (io io' : ZarrIO) (r : nat)
  (Hread : __read_group depth zarr_obj name io = (Ok r, io')
           \/ __read_dataset depth zarr_obj name io = (Ok r, io')) :
  (__built io !! built_key zarr_obj = None ->
     get_builder zarr_obj io
     = (Raise (ValueError (name_str zarr_obj ++ " has not been built")), io))
  /\ exists cached,
       get_builder zarr_obj io' = (Ok cached, io')
       /\ forall rank, acyclic_from rank io zarr_obj -> cached = r.
Proof.
  split.
  - intros Hmiss. unfold get_builder.
    rewrite (bind_ok _ _ _ _ _ (get_built_eq zarr_obj io)), Hmiss. reflexivity.
  - assert (Hreg : is_Some (__built io' !! built_key zarr_obj)).
    { destruct Hread as [H | H];
        [eapply read_group_registers | eapply read_dataset_registers]; exact H. }
    destruct Hreg as [cached Hc]. exists cached. split.
    + unfold get_builder.
      rewrite (bind_ok _ _ _ _ _ (get_built_eq zarr_obj io')), Hc. reflexivity.
    + intros rank Hacy.
      assert (Hr : __built io' !! built_key zarr_obj = Some r).
      { destruct Hread as [H | H];
          [eapply returned_group_is_cached | eapply returned_dataset_is_cached];
          eassumption. }
      congruence.
Qed.

End ReadKeeps.
(** ** ReadEngine: builders once constructed *)

Section ReadSetters.
Import Zarr IO Monad Builders.
Context {os : OsPath} {manager : BuildManager} {numpy : NumPy}.

Lemma extends_refl b : extends b b.
Proof. destruct b; cbn; repeat split; reflexivity. Qed.

Lemma extends_trans b1 b2 b3 : extends b1 b2 -> extends b2 b3 -> extends b1 b3.
Proof.
  destruct b1, b2, b3; cbn; try tauto.
  - intros (-> & -> & -> & G & D & L) (-> & -> & -> & G' & D' & L').
    repeat split; etrans; eassumption.
  - intros (-> & -> & -> & -> & -> & -> & ->) H. exact H.
  - intros (-> & -> & ->) H. exact H.
Qed.

Lemma extends_set_location loc b : extends b (set_location loc b).
Proof. destruct b; cbn; repeat split; reflexivity. Qed.

Lemma extends_set_group sub b : extends b (set_group sub b).
Proof. destruct b; cbn; repeat split; try reflexivity. apply prefix_app_r. reflexivity. Qed.

Lemma extends_set_dataset sub b : extends b (set_dataset sub b).
Proof. destruct b; cbn; repeat split; try reflexivity. apply prefix_app_r. reflexivity. Qed.

Lemma extends_set_link sub b : extends b (set_link sub b).
Proof. destruct b; cbn; repeat split; try reflexivity. apply prefix_app_r. reflexivity. Qed.

Section Generic.
Variable I : ZarrIO -> Prop.
Hypothesis I_warned : forall msg io,
  I io -> I (with_warned (fun w => (w ++ [msg])%list) io).
Hypothesis I_written : forall f io, I io -> I (with_written f io).
Hypothesis I_built : forall k b io, I io ->
  I (with_built (fun m => match m !! k with
                          | Some _ => m
                          | None => <[ k := b ]> m
                          end) io).
Hypothesis I_construct : forall b io, I io -> I (with_objects (fun l => (l ++ [b])%list) io).
Hypothesis I_update : forall id f io,
  (forall b, extends b (f b)) -> I io -> I (with_objects (alter f id) io).

Local Abbreviation any := (fun _ => True).
Ltac kb := eapply keeps_bind with (Q1 := fun _ => True); [| intros ? _].
Ltac kret := apply keeps_ret; trivial.

Lemma rs_warn msg : keeps I any (warn msg).
Proof. apply keeps_modify. intros. apply I_warned. assumption. Qed.

Lemma rs_set_written b : keeps I any (set_written b).
Proof. apply keeps_modify. intros. apply I_written. assumption. Qed.

Lemma rs_set_built z b : keeps I any (__set_built z b).
Proof. apply keeps_modify. intros. apply I_built. assumption. Qed.

Lemma rs_get_built z : keeps I any (__get_built z).
Proof. apply keeps_pure; [intros io; reflexivity | trivial]. Qed.

Lemma rs_construct b : keeps I any (construct b).
Proof.
  unfold construct. eapply keeps_bind; [apply keeps_get | intros io _].
  kb; [| kret]. apply keeps_modify. intros. apply I_construct. assumption.
Qed.

Lemma rs_update id f : (forall b, extends b (f b)) -> keeps I any (update id f).
Proof. intros Hf. apply keeps_modify. intros. apply I_update; assumption. Qed.

Lemma rs_resolve_ref r : keeps I any (resolve_ref r).
Proof. apply keeps_pure; [apply resolve_ref_pure | trivial]. Qed.

Lemma rs_read_data_for z arr dtype : keeps I any (read_data_for z arr dtype).
Proof. apply keeps_pure; [apply read_data_for_pure | trivial]. Qed.

(** Every method of the read engine keeps an invariant that its
    elementary steps keep, the updates of builders being extensions. *)
Lemma read_keeps_extending : forall depth,
  (forall z name, keeps I any (__read_group depth z name))
  /\ (forall z parent, keeps I any (__read_links depth z parent))
  /\ (forall z name, keeps I any (__read_dataset depth z name))
  /\ (forall z, keeps I any (__read_attrs depth z)).
Proof.
  induction depth as [| d (IHg & IHl & IHd & IHa)].
  - split; [| split; [| split]]; intros; apply keeps_too_deep.
  - split; [| split; [| split]].
    + intros z n. cbn [__read_group].
      kb; [apply rs_get_built |].
      match goal with |- keeps _ _ (match ?c with _ => _ end) => destruct c end; [kret |].
      kb; [apply IHa |].
      eapply keeps_bind; [apply keeps_get | intros io1 _].
      kb; [apply rs_construct |].
      kb; [apply rs_update, extends_set_location |].
      kb; [apply keeps_for_each; intros sub;
           kb; [apply IHg | apply rs_update, extends_set_group] |].
      kb; [apply keeps_for_each; intros sub;
           kb; [apply IHd | apply rs_update, extends_set_dataset] |].
      kb; [apply IHl |].
      kb; [apply rs_set_written |].
      kb; [apply rs_set_built | kret].
    + intros z p. cbn [__read_links].
      eapply keeps_bind; [apply keeps_get | intros io1 _].
      destruct (TypeResolver.dict_get (default [] (node_attrs <$> node_at io1 z)) "zarr_link")
        as [lk |]; [| kret].
      destruct (json_iter lk) as [links |]; [| apply keeps_raise].
      apply keeps_for_each. intros link.
      destruct link as [| | | | | dd]; try apply keeps_raise.
      kb; [destruct (TypeResolver.dict_get dd "name"); first [kret | apply keeps_raise] |].
      eapply keeps_bind; [apply rs_resolve_ref | intros [tn tz] _]. cbn iota.
      eapply keeps_bind; [apply keeps_get | intros io3 _].
      kb; [destruct (node_at io3 tz) as [[] |]; first [apply IHg | apply IHd] |].
      eapply keeps_bind; [apply keeps_get | intros io4 _].
      kb; [match goal with |- keeps _ _ (match ?x with _ => _ end) => destruct x end;
           first [kret | apply keeps_raise] |].
      kb; [apply rs_construct |].
      kb; [apply rs_update, extends_set_location |].
      kb; [apply rs_set_written |].
      apply rs_update, extends_set_link.
    + intros z n. cbn [__read_dataset].
      kb; [apply rs_get_built |].
      match goal with |- keeps _ _ (match ?c with _ => _ end) => destruct c end; [kret |].
      eapply keeps_bind; [apply keeps_get | intros io1 _].
      destruct (node_at io1 z) as [[attrs | attrs arr] |];
        [destruct (dict_has attrs "zarr_dtype"); apply keeps_raise | | apply keeps_raise].
      kb.
      { destruct (TypeResolver.dict_get attrs "zarr_dtype"); [kret |].
        destruct (a_dtype arr); [| apply keeps_raise].
        kb; [apply rs_warn | kret]. }
      kb; [apply IHa |].
      kb; [apply rs_read_data_for |].
      eapply keeps_bind; [apply keeps_get | intros io2 _].
      kb; [apply rs_construct |].
      kb; [apply rs_update, extends_set_location |].
      kb; [apply rs_set_written |].
      kb; [apply rs_set_built | kret].
    + intros z. cbn [__read_attrs].
      eapply keeps_bind; [apply keeps_get | intros io1 _].
      apply keeps_fold_m; [| trivial]. intros acc [k v] _.
      destruct (bool_decide (k ∈ __reserve_attribute)); [kret |].
      destruct v as [| | | | | dd]; try kret.
      destruct (TypeResolver.dict_get dd "zarr_dtype") as [tag |]; [| kret].
      destruct (tag_is tag "object");
        [| destruct (tag_is tag "region"); apply keeps_raise].
      eapply keeps_bind with (Q1 := fun _ => True);
        [destruct (TypeResolver.dict_get dd "value") as [[| | | | | rr] |];
         first [apply rs_resolve_ref | apply keeps_raise]
        | intros [tn tz] _].
      cbn iota.
      eapply keeps_bind; [apply keeps_get | intros io3 _].
      kb; [destruct (node_at io3 tz) as [[] |]; first [apply IHg | apply IHd] | kret].
Qed.

End Generic.

(** The builders of [io0] as they are found, extended, in [io]. *)
Local Abbreviation extended io0 io :=
  (forall i b, objects io0 !! i = Some b ->
     exists b', objects io !! i = Some b' /\ extends b b').

Lemma extended_refl io : extended io io.
Proof. intros i b Hb. exists b. split; [exact Hb | apply extends_refl]. Qed.

Lemma extended_construct io0 b io :
  extended io0 io -> extended io0 (with_objects (fun l => (l ++ [b])%list) io).
Proof.
  intros H i b0 Hb0. destruct (H i b0 Hb0) as (b1 & Hb1 & He).
  exists b1. split; [| exact He]. cbn. apply lookup_app_l_Some, Hb1.
Qed.

Lemma extended_update io0 id f io :
  (forall b, extends b (f b)) ->
  extended io0 io -> extended io0 (with_objects (alter f id) io).
Proof.
  intros Hf H i b0 Hb0. destruct (H i b0 Hb0) as (b1 & Hb1 & He).
  cbn. rewrite list_lookup_alter. destruct (decide (id = i)) as [-> | Hne].
  - exists (f b1). rewrite Hb1. split; [reflexivity |].
    eapply extends_trans; [exact He | apply Hf].
  - exists b1. split; [exact Hb1 | exact He].
Qed.

Lemma extending_keeps io0 depth :
  (forall z name, keeps (fun io => extended io0 io) (fun _ => True)
                    (__read_group depth z name))
  /\ (forall z parent, keeps (fun io => extended io0 io) (fun _ => True)
                         (__read_links depth z parent))
  /\ (forall z name, keeps (fun io => extended io0 io) (fun _ => True)
                       (__read_dataset depth z name))
  /\ (forall z, keeps (fun io => extended io0 io) (fun _ => True)
                  (__read_attrs depth z)).
Proof.
  apply read_keeps_extending.
  - intros msg io H. exact H.
  - intros f io H. exact H.
  - intros k b io H. exact H.
  - intros b io. apply extended_construct.
  - intros id f io. apply extended_update.
Qed.

Lemma extending_update io0 id f :
  (forall b, extends b (f b)) ->
  keeps (fun io => extended io0 io) (fun _ => True) (update id f).
Proof.
  intros Hf. apply rs_update; [| exact Hf].
  intros id' f' io. apply extended_update.
Qed.

Lemma builders_extend :
  kept_by_reading (fun io io' => extended io io').
Proof.
  split; [| split; [| split; [| split]]].
  - intros depth z name io.
    apply (proj1 (extending_keeps io depth)), extended_refl.
  - intros depth z parent io.
    apply (proj1 (proj2 (extending_keeps io depth))), extended_refl.
  - intros depth z name io.
    apply (proj1 (proj2 (proj2 (extending_keeps io depth)))), extended_refl.
  - intros depth z io.
    apply (proj2 (proj2 (proj2 (extending_keeps io depth)))), extended_refl.
  - intros depth io. unfold read_builder. rewrite (bind_ok get _ io io io eq_refl).
    apply (proj1 (extending_keeps io depth)), extended_refl.
Qed.

(** Builders are never taken back or rewritten by a read: a builder
    object that exists keeps its identity, its kind, its name, source
    and attributes (a dataset also its type, shape and data, a link
    its target) through every call of the read engine; all that can
    happen to it is that its location is set and that groups, datasets
    and links are appended to it. *)
Theorem builders_are_only_extended :
  kept_by_reading (fun io io' =>
    forall i b, objects io !! i = Some b ->
      exists b', objects io' !! i = Some b' /\ extends b b').
Proof. exact builders_extend. Qed.

Lemma construct_run b io :
  construct b io
  = (Ok (List.length (objects io)), with_objects (fun l => (l ++ [b])%list) io).
Proof. reflexivity. Qed.

(** A group that [__read_group] builds, having found nothing in the
    cache, is a new builder object: a GroupBuilder under the name the
    call was given, or under the last component of the path of the
    group when it was given none, with the source of the IO object and
    with the attributes [__read_attrs] returned for the group. *)
Theorem groups_are_built_under_their_name
  (depth : nat) (zarr_obj : zarr_obj) (name : option string)
  (io io' : ZarrIO) (r : nat)
  (Hmiss : __built io !! built_key zarr_obj = None)
  (Hread : __read_group (S depth) zarr_obj name io = (Ok r, io')) :
  exists attributes io1 b,
    __read_attrs depth zarr_obj io = (Ok attributes, io1)
    /\ r = List.length (objects io1)
    /\ objects io' !! r = Some b
    /\ extends (BGroup (name_or_basename name zarr_obj) (source io) attributes
                  "" [] [] []) b.
Proof.
  cbn [__read_group] in Hread.
  rewrite (bind_ok _ _ _ _ _ (get_built_eq zarr_obj io)), Hmiss in Hread.
  apply bind_ok_inv in Hread as (attributes & io1 & Hattrs & H).
  assert (Hsrc : source io1 = source io).
  { destruct reading_is_read_only as (_ & _ & _ & Ha & _).
    pose proof (Ha depth zarr_obj io) as S. rewrite Hattrs in S. apply S. }
  rewrite (bind_ok get _ io1 io1 io1 eq_refl) in H.
  rewrite (bind_ok _ _ _ _ _ (construct_run _ io1)) in H.
  rewrite Hsrc in H.
  set (b0 := BGroup (name_or_basename name zarr_obj) (source io) attributes "" [] [] [])
    in *.
  set (io2 := with_objects (fun l => (l ++ [b0])%list) io1) in *.
  set (r0 := List.length (objects io1)) in *.
  destruct (extending_keeps io2 depth) as (IHg & IHl & IHd & _).
  apply bind_ok_inv in H as ([] & io3 & H3 & H).
  apply bind_ok_inv in H as ([] & io4 & H4 & H).
  apply bind_ok_inv in H as ([] & io5 & H5 & H).
  apply bind_ok_inv in H as ([] & io6 & H6 & H).
  apply bind_ok_inv in H as ([] & io7 & H7 & H).
  apply bind_ok_inv in H as ([] & io8 & H8 & H).
  injection H as <- <-.
  assert (E3 : extended io2 io3).
  { eapply (keeps_run (fun io => extended io2 io));
      [apply extending_update, extends_set_location | apply extended_refl | exact H3]. }
  assert (E4 : extended io2 io4).
  { eapply (keeps_run (fun io => extended io2 io)); [| exact E3 | exact H4].
    apply keeps_for_each. intros sub.
    eapply keeps_bind; [apply IHg | intros; apply extending_update, extends_set_group]. }
  assert (E5 : extended io2 io5).
  { eapply (keeps_run (fun io => extended io2 io)); [| exact E4 | exact H5].
    apply keeps_for_each. intros sub.
    eapply keeps_bind; [apply IHd | intros; apply extending_update, extends_set_dataset]. }
  assert (E6 : extended io2 io6).
  { eapply (keeps_run (fun io => extended io2 io)); [apply IHl | exact E5 | exact H6]. }
  assert (E8 : extended io2 io8).
  { injection H8 as <-. injection H7 as <-. exact E6. }
  destruct (E8 r0 b0) as (b & Hb & He).
  { unfold io2, r0. cbn. rewrite lookup_app_r by reflexivity.
    rewrite Nat.sub_diag. reflexivity. }
  exists attributes, io1, b. repeat split; assumption.
Qed.

End ReadSetters.
(** ** ReadEngine: attributes and arrays as they were written *)

Section ReadBack.
Import Zarr IO Monad Builders.
Context {os : OsPath} {manager : BuildManager} {numpy : NumPy}.

Lemma dict_set_fresh {V} (d : list (string * V)) k v :
  k ∉ map fst d -> dict_set d k v = (d ++ [(k, v)])%list.
Proof.
  induction d as [| [k0 x] d IH]; intros Hk; [reflexivity |].
  cbn in Hk. apply not_elem_of_cons in Hk as [Hne Hk]. cbn.
  destruct (String.eqb k0 k) eqn:E.
  - apply String.eqb_eq in E. congruence.
  - rewrite (IH Hk). reflexivity.
Qed.

Lemma read_plain_cons k v rest :
  read_plain ((k, v) :: rest)
  = if bool_decide (k ∈ __reserve_attribute) then read_plain rest
    else (k, RA_json v) :: read_plain rest.
Proof.
  unfold read_plain. rewrite filter_cons. cbn [fst].
  destruct (decide (k ∉ __reserve_attribute)) as [Hn | Hy].
  - rewrite bool_decide_false by exact Hn. reflexivity.
  - rewrite bool_decide_true; [reflexivity |].
    destruct (decide (k ∈ __reserve_attribute)); [assumption | contradiction].
Qed.

Lemma read_plain_keys rest k :
  k ∈ map fst (read_plain rest) -> k ∈ map fst rest.
Proof.
  induction rest as [| [k0 v0] rest IH]; [trivial |].
  rewrite read_plain_cons. cbn.
  destruct (bool_decide (k0 ∈ __reserve_attribute)).
  - intros H. right. apply IH, H.
  - cbn. intros H. apply elem_of_cons in H as [-> | H]; [left | right; apply IH, H].
Qed.

(** The loop of [__read_attrs] over attributes none of which is a
    reference. *)
Lemma read_attrs_loop
  (keep : list (string * read_attr) -> string -> list (string * json) -> json
          -> M (list (string * read_attr))) io : forall rest acc,
  (forall k v, (k, v) ∈ rest -> k ∉ __reserve_attribute -> plain_value v) ->
  NoDup (map fst rest) ->
  (forall k, k ∈ map fst rest -> k ∉ map fst acc) ->
  fold_m (fun ret_ (kv : string * json) =>
        let '(k, v) := kv in
        if bool_decide (k ∈ __reserve_attribute) then ret ret_
        else
          match v with
          | JDict d =>
              match TypeResolver.dict_get d "zarr_dtype" with
              | Some tag => keep ret_ k d tag
              | None => ret (dict_set ret_ k (RA_json v))
              end
          | _ => ret (dict_set ret_ k (RA_json v))
          end) rest acc io
  = (Ok (acc ++ read_plain rest)%list, io).
Proof.
  match goal with
  | |- forall rest acc, _ -> _ -> _ -> fold_m ?B _ _ _ = _ => set (body := B)
  end.
  induction rest as [| [k v] rest IH]; intros acc Hplain Hnd Hfresh.
  - cbn. rewrite app_nil_r. reflexivity.
  - cbn [fold_m]. rewrite read_plain_cons.
    cbn in Hnd. apply NoDup_cons in Hnd as [Hk Hnd].
    assert (Hplain' : forall k' v', (k', v') ∈ rest -> k' ∉ __reserve_attribute ->
                                    plain_value v').
    { intros k' v' Hin. apply Hplain. right. exact Hin. }
    destruct (bool_decide (k ∈ __reserve_attribute)) eqn:Er.
    + assert (Hstep : body acc (k, v) io = (Ok acc, io)).
      { unfold body. rewrite Er. reflexivity. }
      rewrite (bind_ok _ _ _ _ _ Hstep).
      apply IH; [exact Hplain' | exact Hnd |].
      intros k' Hk'. apply Hfresh. cbn. right. exact Hk'.
    + pose proof Er as Er'. apply bool_decide_eq_false in Er'.
      assert (Hv : plain_value v) by (apply (Hplain k v); [left | exact Er']).
      assert (Hset : dict_set acc k (RA_json v) = (acc ++ [(k, RA_json v)])%list).
      { apply dict_set_fresh, Hfresh. cbn. left. }
      assert (Hstep : body acc (k, v) io = (Ok (acc ++ [(k, RA_json v)])%list, io)).
      { unfold body. rewrite Er, <- Hset.
        destruct v as [| | | | | d]; try reflexivity.
        cbn in Hv. unfold dict_get in Hv. rewrite Hv. reflexivity. }
      rewrite (bind_ok _ _ _ _ _ Hstep).
      rewrite (IH (acc ++ [(k, RA_json v)])%list Hplain' Hnd).
      * rewrite <- app_assoc. reflexivity.
      * intros k' Hk'. rewrite map_app. cbn. intros Hin.
        apply elem_of_app in Hin as [Hin | Hin].
        -- revert Hin. apply Hfresh. cbn. right. exact Hk'.
        -- apply list_elem_of_singleton in Hin. subst k'. contradiction.
Qed.

Lemma read_attrs_plain depth zarr_obj io :
  NoDup (map fst (attrs_of io zarr_obj)) ->
  (forall k v, (k, v) ∈ attrs_of io zarr_obj -> k ∉ __reserve_attribute ->
               plain_value v) ->
  __read_attrs (S depth) zarr_obj io = (Ok (read_plain (attrs_of io zarr_obj)), io).
Proof.
  intros Hnd Hplain. cbn [__read_attrs].
  rewrite (bind_ok get _ io io io eq_refl).
  change (default [] (node_attrs <$> node_at io zarr_obj)) with (attrs_of io zarr_obj).
  refine (read_attrs_loop _ io (attrs_of io zarr_obj) [] Hplain Hnd _).
  intros k _ Hin. apply elem_of_nil in Hin. exact Hin.
Qed.

(** Attributes that are no references are read as they are stored:
    on a node whose attribute values are plain, [__read_attrs] returns
    the stored values under their keys, in the order of the store,
    leaves out 'zarr_dtype' and 'zarr_link', and changes nothing. *)
Theorem plain_attributes_are_read_as_stored
  (depth : nat) (zarr_obj : zarr_obj) (io : ZarrIO)
  (Hkeys : NoDup (map fst (attrs_of io zarr_obj)))
  (Hplain : forall k v, (k, v) ∈ attrs_of io zarr_obj ->
                        k ∉ __reserve_attribute -> plain_value v) :
  __read_attrs (S depth) zarr_obj io = (Ok (read_plain (attrs_of io zarr_obj)), io).
Proof. exact (read_attrs_plain depth zarr_obj io Hkeys Hplain). Qed.

Lemma set_node_attrs_twice n a b :
  set_node_attrs (set_node_attrs n a) b = set_node_attrs n b.
Proof. destruct n; reflexivity. Qed.

Lemma set_node_attrs_same n : set_node_attrs n (node_attrs n) = n.
Proof. destruct n; reflexivity. Qed.

Lemma write_plain_run obj es : forall (kvs : list (string * json)) io n,
  node_at io obj = Some n ->
  exists io1,
    write_attributes obj
      (map (fun kv : string * json => (kv.1, AV_scalar (AI_json kv.2))) kvs) es io
    = (Ok tt, io1)
    /\ node_at io1 obj
       = Some (set_node_attrs n
                 (fold_left (fun d (kv : string * json) => dict_set d kv.1 kv.2) kvs
                    (node_attrs n))).
Proof.
  unfold write_attributes.
  induction kvs as [| [k j] kvs IH]; intros io n Hn.
  - exists io. split; [reflexivity |]. cbn. rewrite set_node_attrs_same. exact Hn.
  - destruct (zarr_attrs_set_total obj k j io n Hn) as (io' & Hrun & Hnode & _).
    destruct (IH io' _ Hnode) as (io1 & Hrest & Hnode1).
    exists io1. split.
    + cbn [map]. rewrite for_each_cons. cbn [fst snd write_attribute].
      rewrite (bind_ok _ _ _ _ _ Hrun). exact Hrest.
    + rewrite Hnode1, node_attrs_set, set_node_attrs_twice. reflexivity.
Qed.

Lemma fold_set_fresh : forall (kvs acc : list (string * json)),
  NoDup (map fst kvs) ->
  (forall k, k ∈ map fst kvs -> k ∉ map fst acc) ->
  fold_left (fun d (kv : string * json) => dict_set d kv.1 kv.2) kvs acc
  = (acc ++ kvs)%list.
Proof.
  induction kvs as [| [k j] kvs IH]; intros acc Hnd Hfresh.
  - cbn. rewrite app_nil_r. reflexivity.
  - cbn in Hnd. apply NoDup_cons in Hnd as [Hk Hnd]. cbn [fold_left fst snd].
    rewrite dict_set_fresh by (apply Hfresh; cbn; left).
    rewrite IH.
    + rewrite <- app_assoc. reflexivity.
    + exact Hnd.
    + intros k' Hk'. rewrite map_app. cbn. intros Hin.
      apply elem_of_app in Hin as [Hin | Hin].
      * revert Hin. apply Hfresh. cbn. right. exact Hk'.
      * apply list_elem_of_singleton in Hin. subst k'. contradiction.
Qed.

Lemma read_plain_all (kvs : list (string * json)) :
  (forall k, k ∈ map fst kvs -> k ∉ __reserve_attribute) ->
  read_plain kvs = map (fun kv : string * json => (kv.1, RA_json kv.2)) kvs.
Proof.
  induction kvs as [| [k j] kvs IH]; intros Hres; [reflexivity |].
  rewrite read_plain_cons.
  rewrite bool_decide_false by (apply Hres; cbn; left).
  cbn. rewrite IH; [reflexivity |]. intros k' Hk'. apply Hres. cbn. right. exact Hk'.
Qed.

Lemma dict_free_plain (v : json) : dict_free v = true -> plain_value v.
Proof. destruct v; cbn; first [discriminate | trivial]. Qed.

(** Attributes written are attributes read: JSON values without dicts
    that [write_attributes] writes to a node that had no attributes
    come back from [__read_attrs] under the same keys and with the
    same values, each once and nothing else, as long as the keys are
    distinct and none is reserved.  The order in which they come back
    is left open. *)
Theorem written_attributes_are_read_back
  (obj : zarr_obj) (export_source : option string)
  (kvs : list (string * json)) (io : ZarrIO) (n : znode) (depth : nat)
  (Hnode : node_at io obj = Some n)
  (Hempty : node_attrs n = [])
  (Hkeys : NoDup (map fst kvs))
  (Hfree : forall k, k ∈ map fst kvs -> k ∉ __reserve_attribute)
  (Hplain : forall k v, (k, v) ∈ kvs -> dict_free v = true) :
  exists io1 attributes,
    write_attributes obj
      (map (fun kv : string * json => (kv.1, AV_scalar (AI_json kv.2))) kvs)
      export_source io
    = (Ok tt, io1)
    /\ __read_attrs (S depth) obj io1 = (Ok attributes, io1)
    /\ attributes ≡ₚ map (fun kv : string * json => (kv.1, RA_json kv.2)) kvs.
Proof.
  destruct (write_plain_run obj export_source kvs io n Hnode) as (io1 & Hrun & Hnode1).
  exists io1, (map (fun kv : string * json => (kv.1, RA_json kv.2)) kvs).
  split; [exact Hrun | split; [| reflexivity]].
  assert (Hattrs : attrs_of io1 obj = kvs).
  { unfold attrs_of. rewrite Hnode1. cbn. rewrite node_attrs_set, Hempty.
    rewrite fold_set_fresh; [reflexivity | exact Hkeys |].
    intros k _ Hin. apply elem_of_nil in Hin. exact Hin. }
  rewrite <- (read_plain_all kvs Hfree). rewrite <- Hattrs.
  apply read_attrs_plain; rewrite Hattrs; [exact Hkeys |].
  intros k v Hin _. exact (dict_free_plain v (Hplain k v Hin)).
Qed.

Lemma node_at_put_in_store z n io :
  is_Some (stores io !! z_location z) -> node_at (put_node z n io).2 z = Some n.
Proof.
  unfold node_at, put_node, modify. cbn. intros [f Hf]. rewrite Hf.
  rewrite lookup_insert_eq. cbn. apply lookup_insert_eq.
Qed.

Lemma node_at_store io z n : node_at io z = Some n -> is_Some (stores io !! z_location z).
Proof. unfold node_at. destruct (stores io !! z_location z); [eauto | discriminate]. Qed.

Lemma zarr_require_dataset_new parent name shape dtype oc settings io d io' :
  node_at io (child parent name) = None ->
  zarr_require_dataset parent name shape dtype oc settings io = (Ok d, io') ->
  d = child parent name
  /\ node_at io' d = Some (new_array shape dtype oc settings)
  /\ __built io' = __built io /\ source io' = source io.
Proof.
  intros Hnew H. unfold zarr_require_dataset in H.
  apply bind_ok_inv in H as ([] & io1 & Hc & H). injection Hc as <-.
  rewrite (bind_ok get _ _ _ _ eq_refl) in H.
  rewrite !node_at_with_calls, Hnew in H.
  destruct (node_at io parent) as [[pa | pa parr] |] eqn:Hp; try discriminate.
  apply bind_ok_inv in H as ([] & io2 & Hput & H). injection H as <- <-.
  split; [reflexivity |].
  pose proof (f_equal snd Hput) as E. cbn [snd] in E. rewrite <- E.
  split; [| split; reflexivity].
  apply node_at_put_in_store. exact (node_at_store io parent _ Hp).
Qed.

Lemma zarr_setitem_run dset data io io' :
  zarr_setitem dset data io = (Ok tt, io') ->
  exists attrs arr content,
    node_at io dset = Some (ZArray attrs arr)
    /\ assigned (a_shape arr) data = Some content
    /\ node_at io' dset
       = Some (ZArray attrs {| a_shape := a_shape arr; a_chunks := a_chunks arr;
                               a_dtype := a_dtype arr;
                               a_object_codec := a_object_codec arr;
                               a_data := content |})
    /\ __built io' = __built io /\ source io' = source io.
Proof.
  unfold zarr_setitem, fill. intros H.
  apply bind_ok_inv in H as ([] & io1 & Hc & H). injection Hc as <-.
  rewrite (bind_ok get _ _ _ _ eq_refl) in H. rewrite node_at_with_calls in H.
  destruct (node_at io dset) as [[attrs | attrs arr] |] eqn:Hn; try discriminate.
  destruct (assigned (a_shape arr) data) as [content |] eqn:Ec; [| discriminate].
  rewrite (bind_ok get _ _ _ _ eq_refl) in H. rewrite node_at_with_calls, Hn in H.
  exists attrs, arr, content. split; [reflexivity | split; [exact Ec |]].
  pose proof (f_equal snd H) as E. cbn [snd] in E. rewrite <- E.
  split; [| split; reflexivity].
  apply node_at_put_same. rewrite node_at_with_calls, Hn. eauto.
Qed.

Lemma zarr_attrs_set_run obj k v io io' :
  zarr_attrs_set obj k v io = (Ok tt, io') ->
  exists n,
    node_at io obj = Some n
    /\ node_at io' obj = Some (set_node_attrs n (dict_set (node_attrs n) k v))
    /\ __built io' = __built io /\ source io' = source io.
Proof.
  intros H. destruct (node_at io obj) as [n |] eqn:Hn.
  - destruct (zarr_attrs_set_total obj k v io n Hn) as (io1 & Hrun & Hnode & _).
    rewrite Hrun in H. injection H as <-. exists n.
    split; [reflexivity | split; [exact Hnode |]].
    unfold zarr_attrs_set in Hrun. rewrite (bind_ok get _ _ _ _ eq_refl), Hn in Hrun.
    injection Hrun as <-. split; reflexivity.
  - unfold zarr_attrs_set in H. rewrite (bind_ok get _ _ _ _ eq_refl), Hn in H.
    discriminate.
Qed.

(** What [__scalar_fill__] leaves where there was no node. *)
Lemma scalar_fill_new parent name data dtype settings io dset io1 :
  node_at io (child parent name) = None ->
  __scalar_fill__ parent name data dtype settings io = (Ok dset, io1) ->
  dset = child parent name
  /\ exists arr content,
       node_at io1 dset = Some (ZArray [("zarr_dtype", JStr "scalar")] arr)
       /\ a_shape arr = [1] /\ as_content [1] data = Some content
       /\ a_data arr = AD_values content.
Proof.
  intros Hnew H. unfold __scalar_fill__ in H.
  apply bind_ok_inv in H as (t & io0 & Ht & H).
  assert (E0 : io0 = io).
  { unfold reraise, lift in Ht.
    destruct (TypeResolver.__resolve_dtype__ dtype data); injection Ht; congruence. }
  subst io0.
  apply bind_ok_inv in H as (d & io2 & Hreq & H).
  destruct (zarr_require_dataset_new _ _ _ _ _ _ _ _ _ Hnew Hreq) as (-> & Hn2 & _).
  apply bind_ok_inv in H as ([] & io3 & Hset & H).
  destruct (zarr_setitem_run _ _ _ _ Hset) as (attrs & arr & filled & Hn2' & Hc & Hn3 & _).
  rewrite Hn2 in Hn2'. injection Hn2' as <- <-.
  cbn [assigned a_shape] in Hc.
  destruct (as_content [1] data) as [content |] eqn:Econtent; [| discriminate].
  injection Hc as <-.
  apply bind_ok_inv in H as ([] & io4 & Htag & H). injection H as <- <-.
  destruct (zarr_attrs_set_run _ _ _ _ _ Htag) as (n & Hn3' & Hn4 & _).
  rewrite Hn3 in Hn3'. injection Hn3' as <-.
  split; [reflexivity |]. do 2 eexists.
  split; [exact Hn4 | split; [reflexivity | split; reflexivity]].
Qed.

(** Reading an array that carries a type tag. *)
Lemma read_tagged depth zarr_obj name io io2 attrs arr tag attributes data :
  node_at io zarr_obj = Some (ZArray attrs arr) ->
  TypeResolver.dict_get attrs "zarr_dtype" = Some tag ->
  __built io !! built_key zarr_obj = None ->
  __read_attrs depth zarr_obj io = (Ok attributes, io2) ->
  read_data_for zarr_obj arr (RT_tag tag) io2 = (Ok data, io2) ->
  exists r io' location,
    __read_dataset (S depth) zarr_obj name io = (Ok r, io')
    /\ objects io' !! r
       = Some (BDataset (name_or_basename name zarr_obj) (source io2) attributes
                 location (RT_tag tag) (a_shape arr)
                 (negb (bool_decide (Some (a_shape arr) = a_chunks arr
                                     \/ a_chunks arr = None)))
                 data)
    /\ warned io' = warned io2.
Proof.
  intros Hnode Htag Hmiss Hattrs Hdata.
  cbn [__read_dataset].
  rewrite (bind_ok _ _ _ _ _ (get_built_eq zarr_obj io)), Hmiss.
  rewrite (bind_ok _ _ _ _ _ (eq_refl : get io = (Ok io, io))).
  rewrite Hnode. unfold dict_get. rewrite Htag.
  rewrite (bind_ok (ret (RT_tag tag)) _ io (RT_tag tag) io eq_refl).
  rewrite (bind_ok _ _ _ _ _ Hattrs).
  rewrite (bind_ok _ _ _ _ _ Hdata).
  do 3 eexists. split; [reflexivity | split; [| reflexivity]].
  cbn. rewrite list_lookup_alter. rewrite lookup_app_r by reflexivity.
  rewrite Nat.sub_diag. rewrite decide_True by reflexivity. reflexivity.
Qed.

(** An array with a string for its type tag is read by that tag,
    whenever its attributes can be read: the builder carries the tag
    as its dtype, the shape of the array as its maxshape, and the
    chunks flag tells whether the chunks differ from the shape; its
    data is the content of the array for the tag 'scalar', a dataset
    of references for 'object', the array itself, to be loaded
    lazily, for every other tag.  No warning is issued. *)
Theorem arrays_are_read_by_their_tag
  (depth : nat) (zarr_obj : zarr_obj) (name : option string) (io io2 : ZarrIO)
  (attrs : list (string * json)) (arr : zarray) (tag : string)
  (attributes : list (string * read_attr))
  (Hnode : node_at io zarr_obj = Some (ZArray attrs arr))
  (Htag : dict_get attrs "zarr_dtype" = Some (JStr tag))
  (Hmiss : __built io !! built_key zarr_obj = None)
  (Hattrs : __read_attrs depth zarr_obj io = (Ok attributes, io2)) :
  exists r io' location,
    __read_dataset (S depth) zarr_obj name io = (Ok r, io')
    /\ objects io' !! r
       = Some (BDataset (name_or_basename name zarr_obj) (source io2) attributes
                 location (RT_tag (JStr tag)) (a_shape arr)
                 (negb (bool_decide (Some (a_shape arr) = a_chunks arr
                                     \/ a_chunks arr = None)))
                 (if String.eqb tag "scalar" then RD_scalar (a_data arr)
                  else if String.eqb tag "object" then RD_references zarr_obj
                  else RD_array zarr_obj))
    /\ warned io' = warned io2.
Proof.
  apply (read_tagged depth zarr_obj name io io2 attrs arr (JStr tag) attributes);
    try assumption.
  unfold read_data_for, tag_is.
  destruct (String.eqb tag "scalar"); [reflexivity |].
  destruct (String.eqb tag "object"); reflexivity.
Qed.

(** A scalar written is read back inside an array: after
    [__scalar_fill__] has made a new array for a value, the array holds
    what the assignment made of the value for the shape (1,), for a
    string, bytes or a number the array with that one element, and
    [__read_dataset] on it returns a DatasetBuilder tagged 'scalar', of
    shape (1,), without attributes, whose data is that content. *)
Theorem scalars_are_read_back
  (parent : zarr_obj) (name : string) (data : TypeResolver.pydata)
  (dtype : TypeResolver.dtype_desc) (settings : io_settings)
  (io io1 : ZarrIO) (dset : zarr_obj) (read_name : option string) (depth : nat)
  (Hnew : node_at io (child parent name) = None)
  (Hfill : __scalar_fill__ parent name data dtype settings io = (Ok dset, io1))
  (Hmiss : __built io1 !! built_key dset = None) :
  exists r io2 location chunks content,
    as_content [1] data = Some content
    /\ (np_isscalar data = true -> content = TypeResolver.PySeq [data])
    /\ __read_dataset (S (S depth)) dset read_name io1 = (Ok r, io2)
    /\ objects io2 !! r
       = Some (BDataset (name_or_basename read_name dset) (source io1) []
                 location (RT_tag (JStr "scalar")) [1] chunks
                 (RD_scalar (AD_values content))).
Proof.
  destruct (scalar_fill_new _ _ _ _ _ _ _ _ Hnew Hfill)
    as (-> & arr & content & Hn & Hs & Hc & Hd).
  assert (Hattrs : __read_attrs (S depth) (child parent name) io1 = (Ok [], io1)).
  { assert (Ha : attrs_of io1 (child parent name) = [("zarr_dtype", JStr "scalar")]).
    { unfold attrs_of. rewrite Hn. reflexivity. }
    rewrite (read_attrs_plain depth (child parent name) io1); rewrite Ha.
    - reflexivity.
    - cbn. apply NoDup_singleton.
    - intros k v Hin Hk. apply list_elem_of_singleton in Hin. injection Hin as -> ->.
      exfalso. apply Hk. unfold __reserve_attribute. left. }
  destruct (read_tagged (S depth) (child parent name) read_name io1 io1
              _ arr (JStr "scalar") [] (RD_scalar (a_data arr)) Hn eq_refl Hmiss
              Hattrs eq_refl)
    as (r & io2 & location & Hrun & Hobj & _).
  exists r, io2, location. do 2 eexists.
  split; [exact Hc | split; [| split; [exact Hrun |]]].
  - intros Hsc. unfold as_content in Hc. rewrite Hsc in Hc. injection Hc as <-.
    reflexivity.
  - rewrite Hobj, Hs, Hd. reflexivity.
Qed.

End ReadBack.

(** ** ReadEngine: arrays without a type tag *)

Section UntaggedArrays.
Import TypeResolver Zarr IO Monad Builders.
Context {os : OsPath} {manager : BuildManager} {numpy : NumPy}.

Lemma bind_raise {A B} (m : M A) (k : A -> M B) io e io1 :
  m io = (Raise e, io1) -> bind m k io = (Raise e, io1).
Proof. intros H. unfold bind. rewrite H. reflexivity. Qed.

Lemma bind_too_deep {A B} (m : M A) (k : A -> M B) io io1 :
  m io = (RecursionError, io1) -> bind m k io = (RecursionError, io1).
Proof. intros H. unfold bind. rewrite H. reflexivity. Qed.

(** C8, as the code has it.  For an array that has no 'zarr_dtype'
    attribute but has a dtype of its own, [__read_dataset] issues the
    warning about the missing tag and goes on with the array's own
    dtype; the error for a missing tag is not raised.  What the read
    then gives is decided by the attributes of the node: where
    [__read_attrs] returns, the builder is returned with the raw dtype
    and the array as its lazy data; where it raises, that exception
    is raised after the warning.  On a node whose attributes hold no
    reference dicts the read returns, at every depth of calls from 2
    on. *)
Theorem C8_missing_type_tag_falls_back_to_raw_dtype
  (depth : nat) (zarr_obj : zarr_obj) (name : option string) (io : ZarrIO)
  (attrs : list (string * json)) (arr : zarray) (t : storage_type)
  (Hnode : node_at io zarr_obj = Some (ZArray attrs arr))
  (Htag : dict_get attrs "zarr_dtype" = None)
  (Hraw : a_dtype arr = Some t)
  (Hmiss : __built io !! built_key zarr_obj = None) :
  match __read_attrs depth zarr_obj
          (with_warned (fun w => (w ++ [missing_tag_warning name zarr_obj])%list) io)
  with
  | (Ok attributes, io2) =>
      exists r io' location maxshape chunks,
        __read_dataset (S depth) zarr_obj name io = (Ok r, io')
        /\ objects io' !! r
           = Some (BDataset (name_or_basename name zarr_obj) (source io2) attributes
                     location (RT_raw t) maxshape chunks (RD_array zarr_obj))
        /\ missing_tag_warning name zarr_obj ∈ warned io'
  | (Raise e, io2) =>
      __read_dataset (S depth) zarr_obj name io = (Raise e, io2)
      /\ missing_tag_warning name zarr_obj ∈ warned io2
  | (RecursionError, io2) =>
      __read_dataset (S depth) zarr_obj name io = (RecursionError, io2)
  end
  /\ (NoDup (map fst attrs) ->
      (forall k v, (k, v) ∈ attrs -> k ∉ __reserve_attribute -> plain_value v) ->
      forall depth', exists r io' location maxshape chunks,
        __read_dataset (S (S depth')) zarr_obj name io = (Ok r, io')
        /\ objects io' !! r
           = Some (BDataset (name_or_basename name zarr_obj) (source io)
                     (read_plain attrs) location (RT_raw t) maxshape chunks
                     (RD_array zarr_obj))
        /\ missing_tag_warning name zarr_obj ∈ warned io').
Proof.
  set (msg := missing_tag_warning name zarr_obj).
  set (io1 := with_warned (fun w => (w ++ [msg])%list) io).
  assert (Hstart : forall d,
    __read_dataset (S d) zarr_obj name io
    = (let* attributes := __read_attrs d zarr_obj in
       let* data := read_data_for zarr_obj arr (RT_raw t) in
       let* io := get in
       let* r := construct (BDataset (name_or_basename name zarr_obj) (source io)
                              attributes "" (RT_raw t) (a_shape arr)
                              (negb (bool_decide (Some (a_shape arr) = a_chunks arr
                                                  \/ a_chunks arr = None)))
                              data) in
       update r (set_location (get_zarr_parent_path zarr_obj)) ;;;
       set_written (inr r) ;;;
       __set_built zarr_obj r ;;;
       ret r) io1).
  { intros d. cbn [__read_dataset].
    rewrite (bind_ok _ _ _ _ _ (get_built_eq zarr_obj io)), Hmiss.
    rewrite (bind_ok _ _ _ _ _ (eq_refl : get io = (Ok io, io))).
    rewrite Hnode, Htag, Hraw.
    rewrite (bind_ok (warn _ ;;; ret (RT_raw t)) _ io (RT_raw t) io1 eq_refl).
    reflexivity. }
  assert (Hin1 : msg ∈ warned io1).
  { cbn. apply elem_of_app. right. apply list_elem_of_singleton. reflexivity. }
  split.
  - destruct (__read_attrs depth zarr_obj io1) as [[attributes | e |] io2] eqn:Hattrs.
    + exact (untagged_array_is_read depth zarr_obj name io io2 attrs arr t attributes
               Hnode Htag Hraw Hmiss Hattrs).
    + split; [rewrite Hstart; apply bind_raise, Hattrs |].
      destruct (warned_stays depth msg) as (_ & _ & _ & Ha).
      pose proof (proj1 (Ha zarr_obj io1 Hin1)) as H. rewrite Hattrs in H. exact H.
    + rewrite Hstart. apply bind_too_deep, Hattrs.
  - intros Hkeys Hplain depth'.
    assert (Hattrs : __read_attrs (S depth') zarr_obj io1 = (Ok (read_plain attrs), io1)).
    { assert (Ha : attrs_of io1 zarr_obj = attrs).
      { unfold attrs_of. change (node_at io1 zarr_obj) with (node_at io zarr_obj).
        rewrite Hnode. reflexivity. }
      rewrite <- Ha. apply read_attrs_plain; rewrite Ha; assumption. }
    exact (untagged_array_is_read (S depth') zarr_obj name io io1 attrs arr t
             (read_plain attrs) Hnode Htag Hraw Hmiss Hattrs).
Qed.

End UntaggedArrays.
(** ** WriteEngine: chunk iterators *)

Section ChunkedWrites.
Import Zarr IO Monad Builders.
Context {os : OsPath} {manager : BuildManager} {numpy : NumPy}.

Lemma zarr_create_dataset_run parent name shape dtype settings io d io' :
  zarr_create_dataset parent name shape dtype settings io = (Ok d, io') ->
  d = child parent name
  /\ node_at io (child parent name) = None
  /\ node_at io' d = Some (new_array shape dtype false settings).
Proof.
  intros H. unfold zarr_create_dataset in H.
  apply bind_ok_inv in H as ([] & io1 & Hc & H). injection Hc as <-.
  rewrite (bind_ok get _ _ _ _ eq_refl) in H. rewrite !node_at_with_calls in H.
  destruct (node_at io parent) as [[pa | pa parr] |] eqn:Hp; try discriminate;
    destruct (node_at io (child parent name)) as [n |] eqn:Hn; try discriminate.
  apply bind_ok_inv in H as ([] & io2 & Hput & H). injection H as <- <-.
  split; [reflexivity | split; [reflexivity |]].
  pose proof (f_equal snd Hput) as E. cbn [snd] in E. rewrite <- E.
  apply node_at_put_in_store. exact (node_at_store io parent _ Hp).
Qed.

(** [__setup_chunked_dataset__] only ever makes a new array: when it
    returns, there was no node under the name before, and the array
    it made has the shape and the chunks of the io settings where they
    give them, those the iterator recommends otherwise; it holds no
    data yet and carries the type tag as its only attribute.  However
    the call fails, the exception says that the dataset could not be
    created. *)
Theorem chunked_datasets_are_created_new
  (parent : zarr_obj) (name : string) (data : chunk_iterator)
  (dtype : TypeResolver.dtype_desc) (settings : io_settings) (io : ZarrIO) :
  (forall dset io',
     __setup_chunked_dataset__ parent name data dtype settings io = (Ok dset, io') ->
     dset = child parent name
     /\ node_at io (child parent name) = None
     /\ exists arr tag,
          node_at io' dset = Some (ZArray [("zarr_dtype", JStr tag)] arr)
          /\ a_shape arr = default (dci_recommended_data_shape data) (ios_shape settings)
          /\ a_chunks arr = match ios_chunks settings with
                            | Some c => c
                            | None => dci_recommended_chunk_shape data
                            end
          /\ a_data arr = AD_unset)
  /\ (forall e,
        (__setup_chunked_dataset__ parent name data dtype settings io).1 = Raise e ->
        e = Exception ("Could not create dataset " ++ name ++ " in " ++ name_str parent)).
Proof.
  split.
  - intros dset io' H. unfold __setup_chunked_dataset__, reraise in H.
    match type of H with
    | match ?m io with _ => _ end = _ => destruct (m io) as [[x | e |] io0] eqn:E
    end; try discriminate.
    injection H as -> ->.
    apply bind_ok_inv in E as (t & io1 & Ht & E).
    assert (E1 : io1 = io).
    { destruct (ios_dtype settings); [| destruct dtype];
        first [ injection Ht; congruence
              | unfold lift in Ht; injection Ht; congruence ]. }
    subst io1.
    apply bind_ok_inv in E as (d & io2 & Hcreate & E).
    destruct (zarr_create_dataset_run _ _ _ _ _ _ _ _ Hcreate) as (-> & Hnew & Hn2).
    apply bind_ok_inv in E as ([] & io3 & Htag & E). injection E as <- <-.
    destruct (zarr_attrs_set_run _ _ _ _ _ Htag) as (n & Hn2' & Hn3 & _).
    rewrite Hn2 in Hn2'. injection Hn2' as <-.
    split; [reflexivity | split; [exact Hnew |]].
    do 2 eexists. split; [exact Hn3 |]. repeat split.
  - intros e H. unfold __setup_chunked_dataset__, reraise in H.
    match type of H with
    | (match ?m io with _ => _ end).1 = _ => destruct (m io) as [[x | e' |] io0]
    end; cbn in H; try discriminate.
    injection H as <-. reflexivity.
Qed.

End ChunkedWrites.

(** ** The statements above at concrete builders and stores *)

Section Worked.
Import TypeResolver Zarr IO Monad Builders Examples.
#[local] Existing Instance plain_os.
#[local] Existing Instance plain_manager.
#[local] Existing Instance plain_numpy.

Ltac by_evaluation := vm_compute; reflexivity.
Ltac member := apply (bool_decide_unpack _); vm_compute; exact I.

(** *** C1 *)

(** The IO object after G has been written once. *)
Definition G_written : ZarrIO := (write_group root G true true None writing).2.

(** C1 fails for groups: G is marked written after the first
    [write_group], and the second [write_group] assigns its attribute
    'a' a second time. *)
Lemma C1_written_group_gets_its_attributes_again :
  ident_of (g_info G) ∈ _written_builders G_written
  /\ calls G_written = [c_require_group ["G"]; c_attrs_set ["G"] "a" (JNum 1)]
  /\ calls (write_group root G true true None G_written).2
     = [c_require_group ["G"]; c_attrs_set ["G"] "a" (JNum 1);
        c_getitem ["G"]; c_attrs_set ["G"] "a" (JNum 1)].
Proof. split; [member | split; by_evaluation]. Qed.

(** The IO object after the link and the dataset have been written. *)
Definition lnk_written : ZarrIO := (write_link root lnk writing).2.
Definition ds_written : ZarrIO := (write_dataset root ds true true None writing).2.

(** The IO object after S was written without members. *)
Definition S_written : ZarrIO := (write_group root S_alone true true None writing).2.

Lemma C1_at_a_written_link_and_dataset :
  write_link root lnk lnk_written = (Ok tt, lnk_written)
  /\ (write_dataset root ds true true None ds_written).1 = Ok None
  /\ calls (write_dataset root ds true true None ds_written).2 = calls ds_written
  /\ (write_group root nested true true None S_written).1 = Ok (child root "S")
  /\ is_Some (node_at (write_group root nested true true None S_written).2
                (child (child root "S") "G"))
  /\ attr_at (write_group root nested true true None S_written).2 (child root "S")
       "zarr_link"
     = Some (JList [link_json "." "/G" "lnk"]).
Proof.
  destruct C1_written_links_and_datasets_are_skipped as (Hl & Hd & Hg).
  split.
  - apply Hl. member.
  - assert (Hw : ident_of (d_info ds) ∈ _written_builders ds_written) by member.
    destruct (Hd root ds true true None ds_written Hw) as (H1 & _ & H3 & _).
    split; [exact H1 | split; [exact H3 |]].
    assert (Hs : ident_of (g_info nested) ∈ _written_builders S_written) by member.
    rewrite (Hg root nested true true None S_written Hs).
    split; [by_evaluation | split; [vm_compute; eauto | by_evaluation]].
Defined.

(** *** C3 *)

(** C3 at a root builder with a link: [write_builder] returns, the
    root builder is marked written, but its link is neither written
    as a 'zarr_link' entry of the root node nor marked written. *)
Theorem C3_link_of_the_root_builder_is_dropped :
  (write_builder rooted true true None false writing).1 = Ok tt
  /\ attr_at (write_builder rooted true true None false writing).2 root "zarr_link"
     = None
  /\ (ident_of (l_info lnk)
      ∉ _written_builders (write_builder rooted true true None false writing).2)
  /\ (ident_of (g_info rooted)
      ∈ _written_builders (write_builder rooted true true None false writing).2).
Proof. split; [by_evaluation | split; [by_evaluation | split; member]]. Qed.

(** The same link under a group: [write_group] writes it. *)
Lemma write_group_writes_the_link :
  attr_at (write_group root nested true true None writing).2 (child root "S")
    "zarr_link"
  = Some (JList [link_json "." "/G" "lnk"])
  /\ ident_of (l_info lnk)
     ∈ _written_builders (write_group root nested true true None writing).2.
Proof. split; [by_evaluation | member]. Qed.

(** *** C4 *)

Definition ref_written : ZarrIO := (write_attributes root ref_attributes None writing).2.

(** C4 fails as stated: the tag stored with a reference-valued
    attribute is "object", not "reference". *)
Lemma C4_reference_tag_is_object_not_reference :
  (write_attributes root ref_attributes None writing).1 = Ok tt
  /\ attr_at ref_written root "ref" = Some (stored_reference "object" G_ref)
  /\ attr_at ref_written root "ref" <> Some (stored_reference "reference" G_ref).
Proof.
  split; [by_evaluation | split; [by_evaluation |]].
  vm_compute. discriminate.
Qed.

Lemma C4_at_an_attribute_referring_to_G :
  exists ref, (attribute_ref (RO_Builder G_info) None writing).1 = Ok ref
              /\ attr_at ref_written root "ref" = Some (stored_reference "object" ref).
Proof.
  apply (C4_reference_attributes_are_tagged_object root ref_attributes None "ref"
           (RO_Builder G_info) writing ref_written).
  - apply (bool_decide_unpack _). vm_compute. exact I.
  - unfold ref_attributes. repeat constructor.
  - by_evaluation.
Defined.

(** *** C6 *)

Lemma C6_at_a_link_to_G :
  resolve_ref to_G with_G = (Ok ("G", opened G_file location ["G"]), with_G)
  /\ resolve_ref to_nowhere with_G
     = (Raise (ValueError "Found bad link to object /H in file /data/a.zarr"), with_G).
Proof.
  split.
  - refine (proj1 (C6_resolve_ref_descends_or_fails to_G with_G "." G_file []
                     _ _ _) "/G" _ _); try by_evaluation.
    discriminate.
  - refine (proj1 (C6_resolve_ref_descends_or_fails to_nowhere with_G "." G_file []
                     _ _ _) "/H" _ _); try by_evaluation.
    discriminate.
Defined.

(** *** C10 *)

Lemma C10_at_a_written_dataset :
  (write_dataset root ds true true None ds_written).1 = Ok None
  /\ stores (write_dataset root ds true true None ds_written).2 = stores ds_written
  /\ calls (write_dataset root ds true true None ds_written).2 = calls ds_written.
Proof.
  apply (C10_written_dataset_returns_none root ds true true None ds_written).
  member.
Defined.

(** *** C2 *)

Lemma bind_deep {A B} (m : M A) (k : A -> M B) io :
  (m io).1 = RecursionError -> (bind m k io).1 = RecursionError.
Proof. unfold bind. destruct (m io) as [[a | e |] io1]; cbn; congruence. Qed.

Lemma to_G_in_any_state io :
  same_world cyclic io ->
  resolve_ref [("source", JStr "."); ("path", JStr "/G"); ("name", JStr "me")] io
  = (Ok ("G", child root "G"), io).
Proof.
  intros Hw.
  pose proof (resolve_ref_pure [("source", JStr "."); ("path", JStr "/G");
                                ("name", JStr "me")] io) as Hp.
  pose proof (resolve_ref_world [("source", JStr "."); ("path", JStr "/G");
                                 ("name", JStr "me")] cyclic io Hw) as Ho.
  destruct (resolve_ref _ io) as [o io1]. cbn in Hp, Ho. subst io1.
  rewrite <- Ho. reflexivity.
Qed.

Lemma no_attributes_in_cyclic z depth io :
  z = root \/ z = child root "G" ->
  same_world cyclic io -> __read_attrs (S depth) z io = (Ok [], io).
Proof.
  intros Hz Hw.
  assert (Hr : read_plain (attrs_of io z) = []).
  { rewrite (same_world_attrs cyclic io z Hw). destruct Hz as [-> | ->]; by_evaluation. }
  rewrite <- Hr. apply read_attrs_plain; rewrite (same_world_attrs cyclic io z Hw).
  - destruct Hz as [-> | ->]; member.
  - intros k v Hin Hk. destruct Hz as [-> | ->].
    + vm_compute in Hin. apply elem_of_nil in Hin. destruct Hin.
    + change (attrs_of cyclic (child root "G"))
        with [("zarr_link", JList [link_json "." "/G" "me"])] in Hin.
      apply list_elem_of_singleton in Hin. injection Hin as -> ->. exact Logic.I.
Qed.

(** In the store whose group G links to itself a read of G never
    returns: whatever the bound on the depth of calls, it runs into
    it. *)
Lemma self_linked_group_never_returns :
  forall depth io name,
    same_world cyclic io ->
    __built io !! built_key (child root "G") = None ->
    (__read_group depth (child root "G") name io).1 = RecursionError.
Proof.
  induction depth as [depth IH] using (well_founded_induction lt_wf).
  intros io name Hw Hmiss.
  destruct depth as [| [| depth]]; [reflexivity | |].
  - cbn [__read_group].
    rewrite (bind_ok _ _ _ _ _ (get_built_eq _ io)), Hmiss. reflexivity.
  - cbn [__read_group].
    rewrite (bind_ok _ _ _ _ _ (get_built_eq _ io)), Hmiss.
    rewrite (bind_ok _ _ _ _ _ (no_attributes_in_cyclic _ depth io (or_intror eq_refl) Hw)).
    rewrite (bind_ok get _ io io io eq_refl).
    rewrite (bind_ok _ _ _ _ _ (construct_run _ io)).
    match goal with
    | |- (bind (update ?r ?f) _ ?i).1 = _ =>
        rewrite (bind_ok (update r f) _ i tt (with_objects (alter f r) i) eq_refl)
    end.
    rewrite !(same_world_members cyclic io _ _ Hw).
    change (members cyclic (child root "G") true) with (@nil (string * zarr_obj)).
    change (members cyclic (child root "G") false) with (@nil (string * zarr_obj)).
    cbn [for_each].
    match goal with
    | |- (bind (ret tt) _ ?i).1 = _ => rewrite (bind_ok (ret tt) _ i tt i eq_refl)
    end.
    match goal with
    | |- (bind (ret tt) _ ?i).1 = _ => rewrite (bind_ok (ret tt) _ i tt i eq_refl)
    end.
    apply bind_deep.
    match goal with |- (__read_links _ _ _ ?i).1 = _ => set (io3 := i) end.
    assert (Hw3 : same_world cyclic io3) by exact Hw.
    cbn [__read_links].
    rewrite (bind_ok get _ io3 io3 io3 eq_refl).
    change (default [] (node_attrs <$> node_at io3 (child root "G")))
      with (attrs_of io3 (child root "G")).
    rewrite (same_world_attrs cyclic io3 _ Hw3).
    change (attrs_of cyclic (child root "G"))
      with [("zarr_link", JList [link_json "." "/G" "me"])].
    cbn [dict_get TypeResolver.dict_get String.eqb Ascii.eqb Bool.eqb json_iter
         for_each link_json].
    apply bind_deep.
    rewrite (bind_ok (ret (JStr "me")) _ io3 (JStr "me") io3 eq_refl).
    rewrite (bind_ok _ _ _ _ _ (to_G_in_any_state io3 Hw3)).
    rewrite (bind_ok get _ io3 io3 io3 eq_refl).
    rewrite <- (same_world_node_at cyclic io3 _ Hw3).
    change (node_at cyclic (child root "G"))
      with (Some (ZGroup [("zarr_link", JList [link_json "." "/G" "me"])])).
    apply bind_deep. apply IH; [lia | exact Hw3 | exact Hmiss].
Qed.

(** C2 at a group that holds a link to itself.  [write_builder] writes
    such a builder without complaint, and the store it leaves cannot
    be read back: whatever the bound on the depth of calls,
    [read_builder] runs into it and returns nothing.  The call on G
    made through the link of G, while the first call on G is still
    running, finds no builder in the cache, since the builder is
    registered only after the links have been read: with the depth
    bounded by 6, two builders have been constructed for the one node
    G, and the cache is still empty. *)
Theorem C2_group_linking_to_itself_is_never_read :
  (write_builder looped true true None false writing).1 = Ok tt
  /\ stores (write_builder looped true true None false writing).2 = stores cyclic
  /\ (forall depth, (read_builder depth cyclic).1 = RecursionError)
  /\ objects (read_builder 6 cyclic).2
     = [BGroup "root" location [] "/" [] [] [];
        BGroup "G" location [] "/" [] [] [];
        BGroup "G" location [] "/" [] [] []]
  /\ __built (read_builder 6 cyclic).2 = ∅.
Proof.
  split; [by_evaluation | split; [by_evaluation | split; [| split; by_evaluation]]].
  intros depth. unfold read_builder.
  rewrite (bind_ok get _ cyclic cyclic cyclic eq_refl).
  change (file cyclic) with root.
  destruct depth as [| below]; [reflexivity |].
  cbn [__read_group].
  assert (Hmiss : __built cyclic !! built_key root = None) by reflexivity.
  rewrite (bind_ok _ _ _ _ _ (get_built_eq _ cyclic)), Hmiss.
  destruct below as [| depth]; [reflexivity |].
  assert (Hw : same_world cyclic cyclic) by (repeat split).
  rewrite (bind_ok _ _ _ _ _ (no_attributes_in_cyclic _ depth cyclic (or_introl eq_refl) Hw)).
  rewrite (bind_ok get _ cyclic cyclic cyclic eq_refl).
  rewrite (bind_ok _ _ _ _ _ (construct_run _ cyclic)).
  match goal with
  | |- (bind (update ?r ?f) _ ?i).1 = _ =>
      rewrite (bind_ok (update r f) _ i tt (with_objects (alter f r) i) eq_refl)
  end.
  change (members cyclic root true) with [("G", child root "G")].
  cbn [for_each fst snd].
  do 3 apply bind_deep.
  apply self_linked_group_never_returns; [repeat split | reflexivity].
Qed.

(** The IO object after the store with the shared group B was read:
    B, reached first through the link of A, is builder 1. *)
Definition shared_read : ZarrIO := (read_builder 8 shared).2.

Lemma read_shared :
  read_builder 8 shared = (Ok 0, shared_read)
  /\ objects shared_read
     = [BGroup "root" location [] "/" [1; 2] [] [];
        BGroup "B" location [("x", RA_json (JNum 1))] "/" [] [] [];
        BGroup "A" location [] "/" [] [] [3];
        BLink "toB" location "/A" 1].
Proof. split; by_evaluation. Qed.

(** The elements of a list that evaluation has spelled out. *)
Ltac one_of H :=
  repeat (apply elem_of_cons in H; destruct H as [H | H]);
  [.. | apply elem_of_nil in H; destruct H].

(** The three ways a read goes on from a node of a given store. *)
Ltac next_cases Hm Hl Hin Hres :=
  intros [(? & g & Hm) | [(? & ? & ? & Hl & Hin & Hres) | (? & ? & ? & ? & Hm & _)]];
  [destruct g; vm_compute in Hm; one_of Hm
  | vm_compute in Hl
  | vm_compute in Hm; one_of Hm];
  try discriminate.

Lemma shared_from_root z' :
  reads_next shared root z' -> z' = child root "A" \/ z' = child root "B".
Proof.
  next_cases Hm Hl Hin Hres; injection Hm as -> ->; [right | left]; reflexivity.
Qed.

Lemma shared_from_A z' : reads_next shared (child root "A") z' -> z' = child root "B".
Proof.
  next_cases Hm Hl Hin Hres.
  injection Hl as <-. one_of Hin. injection Hin as ->.
  vm_compute in Hres. injection Hres as _ <-. reflexivity.
Qed.

Lemma shared_from_B z' : ~ reads_next shared (child root "B") z'.
Proof. next_cases Hm Hl Hin Hres. Qed.

(** In the store with the shared group every read goes down in rank:
    from the root to A and B, from A through its link to B. *)
Lemma shared_reads_are_acyclic : acyclic_from shared_rank shared root.
Proof.
  intros z z' Hz Hn.
  assert (Hin : z = root \/ z = child root "A" \/ z = child root "B").
  { clear z' Hn. revert z Hz.
    apply (rtc_ind_r (fun z => z = root \/ z = child root "A" \/ z = child root "B"));
      [left; reflexivity |].
    intros y z _ Hxy IH. destruct IH as [-> | [-> | ->]].
    - destruct (shared_from_root _ Hxy) as [-> | ->]; auto.
    - rewrite (shared_from_A _ Hxy). auto.
    - destruct (shared_from_B _ Hxy). }
  destruct Hin as [-> | [-> | ->]].
  - destruct (shared_from_root _ Hn) as [-> | ->]; vm_compute; lia.
  - rewrite (shared_from_A _ Hn). vm_compute. lia.
  - destruct (shared_from_B _ Hn).
Qed.

(** After the store with the shared group was read, the cache holds
    builder 0, the one the read returned, for the root, and every
    later read of the root returns it. *)
Lemma shared_group_is_served_from_the_cache :
  exists cached,
    __built shared_read !! built_key root = Some cached
    /\ cached = 0
    /\ forall (later : ZarrIO) (depth' : nat) (name' : option string),
         __built shared_read ⊆ __built later ->
         __read_group (S depth') root name' later = (Ok cached, later)
         /\ __read_dataset (S depth') root name' later = (Ok cached, later).
Proof.
  destruct (returned_reads_are_served_from_the_cache 8 root (Some ROOT_NAME)
              shared shared_read 0) as (cached & Hc & Hr & Hl).
  - left. by_evaluation.
  - exists cached. split; [exact Hc | split; [| exact Hl]].
    apply (Hr shared_rank), shared_reads_are_acyclic.
Defined.

(** *** C8 *)

(** C8 fails as stated: an array without a type tag whose attribute
    is a region reference is not read; the warning is issued and the
    NotImplementedError of [__read_attrs] is raised. *)
Lemma C8_untagged_array_with_a_region_attribute_is_not_read :
  (__read_dataset 3 (child root "d") (Some "d") untagged_region).1
  = Raise (NotImplementedError
             "Read of region references from attributes not implemented in ZarrIO")
  /\ missing_tag_warning (Some "d") (child root "d")
     ∈ warned (__read_dataset 3 (child root "d") (Some "d") untagged_region).2.
Proof. split; [by_evaluation | member]. Qed.

Lemma C8_at_an_untagged_array :
  (forall depth', exists r io' location maxshape chunks,
     __read_dataset (S (S depth')) (child root "d") (Some "d") untagged = (Ok r, io')
     /\ objects io' !! r
        = Some (BDataset "d" "/data/a.zarr" [("unit", RA_json (JStr "mV"))]
                  location (RT_raw (st_type (ty_np np_int32))) maxshape chunks
                  (RD_array (child root "d")))
     /\ missing_tag_warning (Some "d") (child root "d") ∈ warned io')
  /\ __read_dataset 3 (child root "d") (Some "d") untagged_region
     = (Raise (NotImplementedError
                 "Read of region references from attributes not implemented in ZarrIO"),
        with_warned
          (fun w => (w ++ [missing_tag_warning (Some "d") (child root "d")])%list)
          untagged_region).
Proof.
  split.
  - apply (proj2 (C8_missing_type_tag_falls_back_to_raw_dtype 0 (child root "d")
                    (Some "d") untagged [("unit", JStr "mV")] int32_pair
                    (st_type (ty_np np_int32)) eq_refl eq_refl eq_refl eq_refl)).
    + member.
    + intros k v Hin _. apply list_elem_of_singleton in Hin. injection Hin as -> ->.
      exact Logic.I.
  - apply (proj1 (C8_missing_type_tag_falls_back_to_raw_dtype 2 (child root "d")
                    (Some "d") untagged_region
                    [("r", JDict [("zarr_dtype", JStr "region"); ("value", JDict [])])]
                    int32_pair (st_type (ty_np np_int32))
                    eq_refl eq_refl eq_refl eq_refl)).
Defined.

(** *** C9 *)

Lemma C9_at_the_shared_store :
  (forall attributes, (__read_attrs 3 (child root "A") shared).1 = Ok attributes ->
     dict_get attributes "zarr_dtype" = None
     /\ dict_get attributes "zarr_link" = None)
  /\ (forall b, b ∈ objects (__read_group 3 (child root "A") (Some "A") shared).2 ->
        dict_get (built_attributes b) "zarr_dtype" = None
        /\ dict_get (built_attributes b) "zarr_link" = None)
  /\ (forall b, b ∈ objects (__read_dataset 3 (child root "A") (Some "A") shared).2 ->
        dict_get (built_attributes b) "zarr_dtype" = None
        /\ dict_get (built_attributes b) "zarr_link" = None).
Proof.
  apply (C9_read_attributes_exclude_reserved_keys 3 (child root "A") (Some "A") shared).
  vm_compute. constructor.
Defined.

End Worked.

(** ** Further properties at concrete builders and stores *)

Section WorkedFurther.
Import TypeResolver Zarr IO Monad Builders Examples.
#[local] Existing Instance plain_os.
#[local] Existing Instance plain_manager.
#[local] Existing Instance plain_numpy.

Ltac evaluated := vm_compute; reflexivity.
Ltac decided := apply (bool_decide_unpack _); vm_compute; exact I.

Lemma float_is_tagged_float32 :
  exists tag, __serial_dtype__ (st_type (ty_np np_float32)) = JStr tag
              /\ __resolve_dtype_helper__ (D_str tag)
                 = Ok (Some (st_type (ty_np np_float32))).
Proof.
  apply (type_tags_resolve_to_the_same_type "float" (st_type (ty_np np_float32)));
    [reflexivity | discriminate].
Defined.

Lemma object_is_tagged_ZarrReference :
  __resolve_dtype_helper__ (D_str "object") = Ok (Some (st_type ty_ZarrReference))
  /\ __serial_dtype__ (st_type ty_ZarrReference) = JStr "ZarrReference"
  /\ __resolve_dtype_helper__ (D_str "ZarrReference") = Ok None.
Proof. apply (reference_names_are_tagged_by_class_name "object"). reflexivity. Defined.

Lemma id_and_name_are_tagged_in_order :
  exists fs tags,
    Some (st_compound [("id", Some (st_type (ty_np np_int32)));
                       ("name", Some (st_type ty_str))])
    = Some (st_compound fs)
    /\ Forall2 (fun (f : string * dtype_desc) (x : string * option storage_type) =>
                  x.1 = f.1 /\ __resolve_dtype_helper__ f.2 = Ok x.2)
         [("id", D_str "int"); ("name", D_str "text")] fs
    /\ __serial_dtype__ (st_compound fs) = JList tags
    /\ map (fun tag => match tag with
                       | JDict d => TypeResolver.dict_get d "name"
                       | _ => None
                       end) tags
       = map (fun f : string * dtype_desc => Some (JStr f.1))
           [("id", D_str "int"); ("name", D_str "text")].
Proof.
  apply (compound_tags_list_the_fields_in_order
           [("id", D_str "int"); ("name", D_str "text")]).
  reflexivity.
Defined.

Lemma path_of_x_below_G :
  __get_path x_info = __get_path G_info ++ "/" ++ b_name x_info.
Proof.
  destruct (paths_extend_the_path_of_the_parent x_info G_info)
    as (_ & Hbelow & Hsame); [reflexivity | reflexivity | discriminate |].
  rewrite <- Hsame by reflexivity. apply Hbelow. discriminate.
Defined.

Lemma reference_through_lnk :
  exists r,
    (__get_ref (RO_LinkBuilder (l_info lnk) G_info) None with_G).1 = Ok r
    /\ ref_path r = __get_path G_info
    /\ ref_object_id r = b_object_id G_info
    /\ ref_source_object_id r = walk_to_root G_info ≫= b_object_id
    /\ (__get_ref (RO_LinkBuilder (l_info lnk) G_info) None with_G).2
       = match walk_to_root G_info with
         | Some _ => with_G
         | None => with_warned (fun w => (w ++ [no_root_warning G_info])%list) with_G
         end.
Proof.
  apply (references_point_at_the_referenced_builder
           (RO_LinkBuilder (l_info lnk) G_info) None with_G G_info).
  reflexivity.
Defined.

Lemma no_links_yet io : attr_at io root "zarr_link" = None -> links_well_formed io root.
Proof. intros H v Hv. rewrite H in Hv. discriminate. Qed.

Lemma link_appended_to_the_root :
  exists io',
    __add_link__ root "." "/G" "lnk" writing = (Ok tt, io')
    /\ links_of io' root = (links_of writing root ++ [link_json "." "/G" "lnk"])%list
    /\ (forall k, k <> "zarr_link" -> attr_at io' root k = attr_at writing root k)
    /\ (forall z, ~ (z_location z = z_location root /\ z_path z = z_path root) ->
                  node_at io' z = node_at writing z)
    /\ _written_builders io' = _written_builders writing
    /\ __dci_queue io' = __dci_queue writing.
Proof.
  apply (links_are_appended root "." "/G" "lnk" writing).
  - vm_compute. eauto.
  - apply no_links_yet. reflexivity.
Defined.

Lemma lnk_is_recorded :
  exists io' src,
    write_link root lnk writing = (Ok tt, io')
    /\ links_of io' root
       = (links_of writing root
          ++ [link_json src (__get_path (l_builder lnk)) (b_name (l_info lnk))])%list
    /\ (b_source (l_info lnk) = b_source (l_builder lnk) -> src = ".")
    /\ ident_of (l_info lnk) ∈ _written_builders io'
    /\ write_link root lnk io' = (Ok tt, io').
Proof.
  apply (written_links_are_recorded root lnk writing).
  - vm_compute. set_solver.
  - vm_compute. eauto.
  - apply no_links_yet. reflexivity.
Defined.

Lemma unit_stays_when_a_0d_array_fails :
  exists msg,
    write_attributes root
      ([("unit", AV_scalar (AI_json (JStr "mV")))]
       ++ ("bad", AV_ndarray0 "array(1)") :: [("n", AV_scalar (AI_json (JNum 3)))])
      None writing
    = (Raise (TypeError msg),
       (write_attributes root [("unit", AV_scalar (AI_json (JStr "mV")))] None writing).2).
Proof.
  apply (failing_attribute_keeps_the_earlier_ones root None
           [("unit", AV_scalar (AI_json (JStr "mV")))]
           [("n", AV_scalar (AI_json (JNum 3)))] "bad" (AV_ndarray0 "array(1)") writing).
  - evaluated.
  - exact Logic.I.
Defined.

Lemma bytes_are_stored_as_text :
  exists j, convert_item (AI_bytes "mV") = AI_json j
            /\ attr_at (write_attributes root
                          [("unit", AV_scalar (AI_bytes "mV"));
                           ("dims", AV_ndarray [AI_np_generic (JNum 2)])]
                          None writing).2 root "unit"
               = Some j.
Proof.
  apply (attributes_are_stored_converted root
           [("unit", AV_scalar (AI_bytes "mV"));
            ("dims", AV_ndarray [AI_np_generic (JNum 2)])]
           None "unit" (AV_scalar (AI_bytes "mV")) writing).
  - decided.
  - left.
  - evaluated.
Defined.

Lemma d_is_not_written_again :
  ident_of (d_info ds) ∈ _written_builders ds_written
  /\ forall parent' link_data' exhaust_dci' export_source',
       write_dataset parent' ds link_data' exhaust_dci' export_source' ds_written
       = (Ok None, queue_ready exhaust_dci' ds_written).
Proof.
  apply (a_written_dataset_is_not_written_again root ds true true None writing
           ds_written (Some (child root "d"))).
  evaluated.
Defined.

Lemma S_is_marked_with_G_and_lnk :
  ident_of G_info ∈ _written_builders (write_group root nested true true None writing).2
  /\ ident_of (l_info lnk)
     ∈ _written_builders (write_group root nested true true None writing).2.
Proof.
  split;
    apply (a_written_group_is_marked_with_its_members nested root true true None writing
             (write_group root nested true true None writing).2 (child root "S"));
    first [evaluated | decided].
Defined.

Lemma ramp_is_written_out :
  (exists attrs arr,
     node_at (write_builder chunked true false None true writing).2 (child root "r")
     = Some (ZArray attrs arr)
     /\ a_data arr = AD_values (PySeq [PyScalar (ty_np np_int32);
                                       PyScalar (ty_np np_int32)]))
  /\ __dci_queue (write_builder chunked true false None true writing).2 = Some []
  /\ ident_of (g_info chunked)
     ∈ _written_builders (write_builder chunked true false None true writing).2.
Proof.
  destruct (write_builder_writes_out_the_queue chunked true false None true writing
              (write_builder chunked true false None true writing).2)
    as (io1 & q & Hmembers & Hq & Hfilled & _ & Hempty & Hroot & _); [evaluated |].
  split; [| split; assumption].
  assert (E : io1 = (write_members chunked true false None writing).2)
    by (rewrite Hmembers; reflexivity).
  subst io1. vm_compute in Hq. injection Hq as <-.
  refine (Hfilled _ (child root "r") ramp _); [decided | left].
Defined.

(** The tagged store once [write] has set up the chunk queue. *)
Definition tagged_writing : ZarrIO := with_dci_queue (fun _ => Some []) tagged.

Lemma alias_is_linked_not_copied :
  exists io',
    write_dataset root alias true true None tagged_writing = (Ok None, io')
    /\ links_of io' root
       = (links_of tagged_writing root
          ++ [link_json (__get_store_path (child root "d")) (name_str (child root "d"))
                (b_name (d_info alias))])%list
    /\ node_at io' (child root (b_name (d_info alias)))
       = node_at tagged_writing (child root (b_name (d_info alias)))
    /\ (forall k, k <> "zarr_link" -> attr_at io' root k = attr_at tagged_writing root k)
    /\ ident_of (d_info alias) ∈ _written_builders io'.
Proof.
  apply (a_linked_array_is_not_copied root alias (child root "d") true None
           tagged_writing).
  - reflexivity.
  - vm_compute. set_solver.
  - vm_compute. eauto.
  - apply no_links_yet. reflexivity.
  - reflexivity.
Defined.

(** The IO object after B alone was read from a fresh session. *)
Definition B_read : ZarrIO := (__read_group 3 (child root "B") (Some "B") shared).2.

Lemma B_is_marked_written : inr 0 ∈ _written_builders B_read.
Proof.
  apply (builders_read_are_marked_written 3 (child root "B") (Some "B") shared B_read 0).
  - reflexivity.
  - left. evaluated.
Defined.

Lemma get_builder_answers_for_B :
  (__built shared !! built_key (child root "B") = None ->
     get_builder (child root "B") shared
     = (Raise (ValueError (name_str (child root "B") ++ " has not been built")), shared))
  /\ exists cached,
       get_builder (child root "B") B_read = (Ok cached, B_read)
       /\ forall rank, acyclic_from rank shared (child root "B") -> cached = 0.
Proof.
  apply (get_builder_answers_after_a_read 3 (child root "B") (Some "B") shared B_read 0).
  left. evaluated.
Defined.

Lemma B_is_built_under_its_name :
  exists attributes io1 b,
    __read_attrs 2 (child root "B") shared = (Ok attributes, io1)
    /\ 0 = List.length (objects io1)
    /\ objects B_read !! 0 = Some b
    /\ extends (BGroup (name_or_basename None (child root "B")) (source shared)
                  attributes "" [] [] []) b.
Proof.
  apply (groups_are_built_under_their_name 2 (child root "B") None shared B_read 0).
  - reflexivity.
  - evaluated.
Defined.

Lemma x_of_B_is_read_as_stored :
  __read_attrs 1 (child root "B") shared
  = (Ok (read_plain (attrs_of shared (child root "B"))), shared).
Proof.
  apply (plain_attributes_are_read_as_stored 0 (child root "B") shared).
  - decided.
  - intros k v Hin _. vm_compute in Hin.
    apply list_elem_of_singleton in Hin. injection Hin as -> ->. exact Logic.I.
Defined.

Lemma unit_and_n_are_read_back :
  exists io1 attributes,
    write_attributes root
      (map (fun kv : string * json => (kv.1, AV_scalar (AI_json kv.2)))
           [("unit", JStr "mV"); ("n", JNum 3)])
      None writing
    = (Ok tt, io1)
    /\ __read_attrs 1 root io1 = (Ok attributes, io1)
    /\ attributes
       ≡ₚ map (fun kv : string * json => (kv.1, RA_json kv.2))
            [("unit", JStr "mV"); ("n", JNum 3)].
Proof.
  apply (written_attributes_are_read_back root None
           [("unit", JStr "mV"); ("n", JNum 3)] writing (ZGroup []) 0).
  - reflexivity.
  - reflexivity.
  - decided.
  - intros k Hk. vm_compute in Hk.
    repeat (apply elem_of_cons in Hk as [-> | Hk]); [decided | decided |].
    apply elem_of_nil in Hk. destruct Hk.
  - intros k v Hin. vm_compute in Hin.
    repeat (apply elem_of_cons in Hin as [[= -> ->] | Hin]); try reflexivity.
    apply elem_of_nil in Hin. destruct Hin.
Defined.

Lemma d_is_read_by_its_tag :
  exists r io' location,
    __read_dataset 2 (child root "d") None tagged = (Ok r, io')
    /\ objects io' !! r
       = Some (BDataset (name_or_basename None (child root "d")) (source tagged) []
                 location (RT_tag (JStr "int32")) (a_shape int32_pair)
                 (negb (bool_decide (Some (a_shape int32_pair) = a_chunks int32_pair
                                     \/ a_chunks int32_pair = None)))
                 (if String.eqb "int32" "scalar" then RD_scalar (a_data int32_pair)
                  else if String.eqb "int32" "object" then RD_references (child root "d")
                  else RD_array (child root "d")))
    /\ warned io' = warned tagged.
Proof.
  apply (arrays_are_read_by_their_tag 1 (child root "d") None tagged tagged
           [("zarr_dtype", JStr "int32")] int32_pair "int32" []);
    evaluated.
Defined.

(** The empty store after the scalar "hello" was written as s. *)
Definition hello_written : ZarrIO :=
  (__scalar_fill__ root "s" (PyStr "hello") D_None no_io_settings writing).2.

Lemma hello_is_read_back :
  exists r io2 location chunks,
    __read_dataset 2 (child root "s") (Some "s") hello_written = (Ok r, io2)
    /\ objects io2 !! r
       = Some (BDataset (name_or_basename (Some "s") (child root "s"))
                 (source hello_written) [] location (RT_tag (JStr "scalar")) [1] chunks
                 (RD_scalar (AD_values (PySeq [PyStr "hello"])))).
Proof.
  destruct (scalars_are_read_back root "s" (PyStr "hello") D_None no_io_settings
              writing hello_written (child root "s") (Some "s") 0)
    as (r & io2 & location & chunks & content & _ & Hcontent & Hrun & Hobj);
    [evaluated | evaluated | evaluated |].
  exists r, io2, location, chunks. rewrite (Hcontent eq_refl) in Hobj.
  split; assumption.
Defined.

Lemma ramp_is_set_up_new :
  exists dset io',
    __setup_chunked_dataset__ root "r" ramp (D_str "int32") no_io_settings tagged
    = (Ok dset, io')
    /\ dset = child root "r"
    /\ node_at tagged (child root "r") = None
    /\ exists arr tag,
         node_at io' dset = Some (ZArray [("zarr_dtype", JStr tag)] arr)
         /\ a_shape arr
            = default (dci_recommended_data_shape ramp) (ios_shape no_io_settings)
         /\ a_chunks arr = match ios_chunks no_io_settings with
                           | Some c => c
                           | None => dci_recommended_chunk_shape ramp
                           end
         /\ a_data arr = AD_unset.
Proof.
  do 2 eexists. split; [evaluated |].
  apply (proj1 (chunked_datasets_are_created_new root "r" ramp (D_str "int32")
                  no_io_settings tagged)).
  evaluated.
Defined.

End WorkedFurther.
